(* ===== verification/_CoqProject ===== *)
-Q . S2P
Prelude.v
Chars.v
Normalize.v
Format.v
Summary.v
FileSys.v
Utf8.v
Main.v
Cli.v
Run.v
Errors.v
Crash.v
Interrupt.v
Stable.v
Scenarios.v
Cases.v
