(* ===== verification/Prelude.v ===== *)
(** * Verification of [tools/normalize_hyphens.py]

    The program is a command-line script that walks a directory tree,
    finds the files with a given extension and, in each of them, replaces
    the Unicode dashes by the ASCII hyphen, deletes zero-width characters
    and replaces or deletes soft hyphens.  A file whose text changes is
    written back through a temporary sibling file and an atomic replace;
    at the end the script prints how many files it scanned and modified
    and a table of the characters it hit.  The source is one file,
    [src/tools/normalize_hyphens.py]; line numbers below refer to it.

    ** The parts of the program and the files that model them

    - [Prelude] (this file): Python values.  A code point is a number [N],
      a [str] is a list of code points, a [dict] is a [gmap], a [set] is a
      [gset]; [py] turns an ASCII literal of the source into such a list,
      [str_join] is [sep.join], [dict_get] is [d.get(k, default)].  The
      hint databases and the tactic [case_tests] the other files use.
    - [Chars]: the tables [TO_ASCII_HYPHEN], [REMOVE] and [SOFT_HYPHEN]
      (lines 24-45) as finite sets, and [classify], the category the
      [if]/[elif] chain of lines 60-73 selects.
    - [Normalize]: [normalize_text] (lines 47-76).  The loop [for ch in s]
      is a left fold of [loop_body] over the input; its state is the record
      [loop_state] of the two locals [out] and [counts]; [bump] is the
      inner function of lines 55-56.  The specification is [normalized]
      (the image of every character, concatenated) and [hit_count] (the
      number of occurrences of a listed character).
    - [Format]: the formatting the report uses: [format_04X] for
      ["{ord(ch):04X}"], [ljust] for ["{x:<8}"], [str_of_nat] for a number
      in an f-string.  The source calls Python's formatting; the digit
      loop [digits_fuel] is the model's, and [parse_digits] is its
      specification.
    - [Summary]: the counters of a run ([summary]: [total_changed] and
      [total_hits], lines 103-104), the merge of the hits of one file
      ([merge_hits], lines 114-115), the sort of the table ([sort_key],
      [sorted_by_key], line 131) and the text of a row ([code], [label],
      [row], lines 132-136).
    - [FileSys]: what the calls of [main] act on.  A [world] is a finite
      map from absolute paths to nodes (a file with its bytes, or a
      directory), the lines printed so far, and a budget of bytes that may
      still be written.  A call is a function from a world to a result
      ([Ok] or [Raise]) and a world ([io], a monad); the calls are
      [rglob], [is_file], [read_text], [with_suffix], [write_text],
      [replace] and [print].  Text goes through a [Codec]; its laws are the
      class [CodecLaws], the interface between the pipeline and the
      encoding.
    - [Utf8]: the codec of [encoding="utf-8", errors="strict"], an instance
      of [Codec] with its laws proved.
    - [Main]: [iter_files] (lines 79-84), the body of the loop over the
      files ([process], lines 106-124, with [write_back], lines 117-121),
      [report] (lines 126-138), [main] (lines 96-140, after the command
      line has been parsed into the record [args]) and [exit_status]
      (lines 143-144).
    - [Cli]: the command line (lines 88-96).  [parse_args] is the parser
      the four [add_argument] calls build, with the behaviour of
      [argparse]: an argument is classified ([parse_optional]: a value,
      an option written out or abbreviated, with or without [=value], or
      unknown), then the arguments are consumed from left to right
      ([consume], a loop of [parse_step] over the state [pstate]);
      [resolve] is [Path(args.root).resolve()]; [main_argv] is [main] from
      the arguments of the process to the exit status.
    - [Run]: the specification of a run that meets no error, as a pure
      function of the file tree ([step_spec], [loop_spec], [announced]),
      and the proof that [main] computes it.
    - [Errors]: the ways the write-back and the step of a file fail, as
      relations with one rule per outcome ([wb_outcome],
      [process_error]) that [write_back] and [process] compute.
    - [Crash]: the write-back (lines 119-121) as the steps the file
      system sees, a relation [wb_step] on a program point [pc] and a
      world, with the function [wb_next] that computes it and the run
      [wb_run] of a number of steps.  An interruption of the process is a
      run that stops in any state.
    - [Interrupt]: the whole run as steps ([main_step] on a program
      point [run_pc] and a world): the enumeration, for each file the
      read, the announcement and the steps of its write-back, and the
      report.
    - [Stable]: the tree a run leaves, path by path, and the second run
      over it.
    - [Scenarios], [Cases]: [main] evaluated on concrete file trees with
      the UTF-8 codec, command lines parsed, a write-back stopped half-way,
      and the theorems of the other files applied to them.

    ** What the theorems show

    - Characters ([Chars]): the tables are pairwise disjoint, so every
      code point has exactly one category ([classify_tables]); no listed
      code point is ASCII; all are scalar values of the Basic Multilingual
      Plane.
    - [normalize_text] ([Normalize]): it implements its specification
      ([normalize_text_output], [normalize_text_counts]); it is idempotent;
      its output holds no listed character; the output differs from the
      input exactly when a hit was counted, and exactly when the input
      holds a listed character; the behaviour on a single character of
      each category; every mode string other than ["hyphen"] acts as
      ["remove"]; what the loop keeps, drops and adds.
    - Counters and report ([Summary], [Format]): the merge is the
      pointwise sum whatever the order of the items; the hits are additive
      over concatenation; the rows are the entries of the dictionary in
      descending count, then ascending code point, and no other
      arrangement is sorted; a row read at its columns ([read_row])
      gives back the code point, the label and the count
      ([read_row_row]), which pins the base, the case and the width of
      the digits and the widths of the columns; the label agrees with
      the category.
    - Encoding ([Utf8]): decoding inverts encoding, the strict decoder
      accepts nothing but what the encoder writes, and exactly the texts of
      scalar values can be encoded.
    - The pipeline ([Main]): what [iter_files] returns, for every
      extension [rglob] accepts and for those that are plain suffixes;
      the effect of [process] on a clean file (none), on a file with a
      listed character
      (with and without [--dry-run]) and on a file that cannot be decoded;
      a processed file is stable; a dry run changes no file
      ([main_dry_run]); however a run ends, a path without a temporary name
      is as it was or holds the complete encoding of its normalized text
      ([main_atomic]); a world that is a tree stays one
      ([main_keeps_tree]); the counters agree ([loop_counters]); a run that
      raises prints no report and exits with 1; a run without files, or
      with a missing root, prints one line and returns 0.
    - Refinement ([Run]): when the files found can be read and written
      back and none bears the temporary name of another ([ready]), [main]
      returns 0 and leaves the world and prints the lines its
      specification describes ([main_refines], [main_output]); the table
      of hits is the one [normalize_text] returns for all the texts
      concatenated ([counters_spec]).
    - Errors ([Errors]): the six outcomes of the write-back, each with
      its condition and the world it leaves ([write_back_outcomes]); the
      four ways the step of a file raises ([process_Raise_iff]); a run
      raises one of five exceptions, never [UnicodeEncodeError], and
      leaves every file intact, with at most the bytes that fitted in one
      temporary file ([main_errors]).
    - Interruption ([Crash]): in whatever state the write-back is
      stopped, the file is intact or completely rewritten, and every
      other path but the temporary one is as it was ([wb_crash_safe], by
      the invariant [wb_inv] and induction on the runs); the steps
      terminate ([wb_terminates], by the measure [wb_measure]); a
      write-back that can succeed reaches its end from every state of
      its runs ([wb_completes]); the runs that end are the calls of
      [write_back] ([wb_refines]: the relation is deterministic and
      [write_back] is its normal form).
    - Interruption of the run ([Interrupt]): in whatever state the run
      is stopped, every path without a temporary name is as it was or
      holds the complete encoding of its normalized text
      ([main_crash_safe], by the invariant [main_inv]); the runs of the
      steps that end are the calls of [main] ([main_steps_refine]).
    - After a run ([Stable]): every file found holds its normalized
      text, no temporary sibling of a modified file remains, nothing else
      changed ([main_files]); a second run finds the same files, modifies
      none and prints the report of a clean tree ([main_stable]).
    - The command line ([Cli]): the mode of a parsed namespace is one of
      the two choices ([parse_args_choices]); a command line that spells
      a namespace out parses to it ([parse_args_render]); the resolved
      root is a path of the model ([resolve_components]); [--dry-run]
      among the arguments keeps every file as it is
      ([main_argv_dry_run]); the exit status is 2 exactly for a usage
      error ([main_argv_status]).

    Properties of every run are proved through one notion: [respects R m]
    says that the call [m] relates the world it starts in to the world it
    leaves, whatever it returns or raises, for a preorder [R] on worlds
    ([same_files], [stdout_grows], [frame], [rewritten]).

    ** Bounds and fuel

    Two functions take fuel.  [digits_fuel] of [Format] produces the
    digits of a number: [digits] gives it [S (log2 n)] steps, one more
    than the number of binary digits of [n], which is enough for every
    base from 2 on, and more fuel changes nothing ([digits_terminates]).
    [wb_run] of [Crash] runs a number of steps of the write-back:
    [wb_measure] steps, the length of the encoded text plus five from the
    start, reach the final state ([wb_run_Halt]), and the relation itself
    is well founded ([wb_terminates]).  Everything else is structurally
    recursive.  Python integers that only count are [nat] and unbounded,
    as in Python.

    ** Assumptions of the model of the file system

    POSIX semantics and the [pathlib] and [argparse] of Python 3.11.  A
    world is meant to be a tree ([tree_like]: every
    node but the root lies in a directory); the calls do not check it, and
    [rglob] lists every path below the root.  There are no symbolic links and no permissions.
    [rglob] is modelled for the patterns of one component without a
    bracket ([glob_pattern]): [*] and [?] are matched as [fnmatch] does,
    two stars in a row are refused with [ValueError], and a pattern with
    a bracket or a separator is the exception [Unmodelled].  For an
    extension without metacharacters ([plain_ext]) the pattern
    ["*" + ext] is the test that the name ends with [ext], so
    [iter_files] returns the files whose name ends with the extension
    ([iter_files_plain]).  [wanted] is the postcondition of
    [iter_files]: it is stated with [fnmatch], not with the suffix test
    of the specification.  The order in which [rglob]
    yields paths is the order of the finite map; the theorems do not depend
    on it.  A write either stores all bytes or, when the budget of the
    world is too small, a prefix of them and raises [OSError]; [replace]
    is one step.  Reading applies universal newlines, as text mode does.
    In [Crash] the bytes of a write reach the disk one at a time, which
    covers every point at which a write can be cut.  [resolve] follows no
    symbolic link.  [print] always returns: the lines are kept as texts,
    not encoded for the standard output, so the model has no
    [UnicodeEncodeError] for a path that holds a surrogate and no
    [OSError] for a closed pipe; the exceptions [main_errors] lists are
    those of the calls on files.

    ** What is not modelled

    Of the command line: the separator [--], single-dash arguments other
    than [-h] (combined short options, negative numbers) and a root that
    starts with exactly two slashes, for which [parse_args] and [resolve]
    answer [NotModelled] and [None]; the text of the help and of the
    usage messages, which depends on the width of the terminal (the help
    is a parameter of [main_argv], the messages go to the standard
    error).  Of the file system: symbolic links, permissions, glob
    patterns with brackets or of several components.  The local [hint]
    of line 134, which the source computes and never uses.  The
    traceback an uncaught exception prints on the standard error. *)

From stdpp Require Export gmap list strings sorting.
From Stdlib Require Import Ascii.

(** ** Python values

    A Python [str] is a sequence of Unicode code points; iterating over it
    yields one-character strings.  A code point is a number [N], a string is a
    [list N], and a one-character string is identified with its code point.
    Python [int]s that only ever count are [nat]. *)

Declare Scope pystr_scope.
Delimit Scope pystr_scope with py.

Abbreviation codepoint := N (only parsing).
Abbreviation pystr := (list N) (only parsing).

(** An ASCII literal of the source, as a Python string. *)
Fixpoint py (s : string) : pystr :=
  match s with
  | EmptyString => []
  | String a s' => N_of_ascii a :: py s'
  end.
Arguments py _%_string.

(** [sep.join(parts)]. *)
Fixpoint str_join (sep : pystr) (parts : list pystr) : pystr :=
  match parts with
  | [] => []
  | [p] => p
  | p :: ps => p ++ sep ++ str_join sep ps
  end.

(** [d.get(k, dflt)]. *)
Definition dict_get `{Countable K} {V} (d : gmap K V) (k : K) (dflt : V) : V :=
  default dflt (d !! k).

(** Number of positions of [s] that hold [ch] ([s.count(ch)]). *)
Definition occurrences (ch : codepoint) (s : pystr) : nat :=
  length (filter (λ x, x = ch) s).

(** The code points Python accepts in a [str], and those UTF-8 can encode
    (everything but the surrogates). *)
Definition is_codepoint (c : codepoint) : Prop := (c < 0x110000)%N.
Definition is_scalar (c : codepoint) : Prop :=
  (c < 0xD800 ∨ (0xE000 ≤ c ∧ c < 0x110000))%N.

#[export] Instance is_codepoint_dec c : Decision (is_codepoint c).
Proof. unfold is_codepoint. apply _. Defined.
#[export] Instance is_scalar_dec c : Decision (is_scalar c).
Proof. unfold is_scalar. apply _. Defined.

(** ** Automation *)

Create HintDb pystr discriminated.
Create Rewrite HintDb pystr.

(** Case analysis on every [decide] test of the goal, closing what [done]
    closes. *)
Ltac case_tests := repeat (case_decide; simplify_eq/=); try done.

(** ** Strings *)

Lemma py_app (s1 s2 : string) : py (s1 ++ s2) = py s1 ++ py s2.
Proof. induction s1 as [|a s1 IH]; simpl; [done | by rewrite IH]. Qed.

Lemma py_length (s : string) : length (py s) = String.length s.
Proof. induction s; simpl; congruence. Qed.

Lemma py_ascii (s : string) : Forall (λ c, (c < 256)%N) (py s).
Proof.
  induction s as [|a s IH]; constructor; [apply N_ascii_bounded | done].
Qed.

Lemma py_inj : Inj (=) (=) py.
Proof.
  intros s1. induction s1 as [|a s1 IH]; intros [|b s2] Heq; simplify_eq/=; [done|].
  f_equal; [| by apply IH].
  rewrite <-(ascii_N_embedding a), <-(ascii_N_embedding b). congruence.
Qed.

Lemma str_join_empty (parts : list pystr) : str_join [] parts = concat parts.
Proof.
  induction parts as [|p [|q ps] IH]; simpl in *; [done | by rewrite app_nil_r |].
  by rewrite IH.
Qed.

Lemma str_join_singletons (s : pystr) : str_join [] ((λ c, [c]) <$> s) = s.
Proof.
  rewrite str_join_empty. induction s as [|c s IH]; simpl; [done | by f_equal].
Qed.

(** ** Lists *)

(** Induction for functions that look at the next element. *)
Lemma list_ind_2 {A} (P : list A → Prop) :
  P [] → (∀ x, P [x]) → (∀ x y l, P l → P (y :: l) → P (x :: y :: l)) →
  ∀ l, P l.
Proof.
  intros Hnil Hone Hstep l. cut (P l ∧ ∀ x, P (x :: l)); [by intros [? _]|].
  induction l as [|y l [IH1 IH2]]; [by split|].
  split; [apply IH2 | intros x; by apply Hstep].
Qed.

(** ** Sorted lists *)

Lemma StronglySorted_lookup {A} (R : relation A) (l : list A) i j x y :
  StronglySorted R l → i < j → l !! i = Some x → l !! j = Some y → R x y.
Proof.
  intros Hs. revert i j. induction Hs as [|a l Hs IH Ha]; intros i j Hij Hi Hj.
  { by rewrite lookup_nil in Hi. }
  destruct j as [|j]; [lia|]. destruct i as [|i]; simplify_eq/=.
  - by apply (proj1 (Forall_forall _ _) Ha), list_elem_of_lookup_2 with j.
  - apply (IH i j); [lia | done..].
Qed.

(** ** Dictionaries *)

Section dict.
Context `{Countable K} {V : Type}.
Implicit Types (d : gmap K V) (k : K) (v : V).

Lemma dict_get_Some d k v dflt : d !! k = Some v → dict_get d k dflt = v.
Proof. unfold dict_get. by intros ->. Qed.

Lemma dict_get_None d k dflt : d !! k = None → dict_get d k dflt = dflt.
Proof. unfold dict_get. by intros ->. Qed.

Lemma dict_get_empty k dflt : dict_get (∅ : gmap K V) k dflt = dflt.
Proof. apply dict_get_None, lookup_empty. Qed.

Lemma dict_get_insert d k k' v dflt :
  dict_get (<[k := v]> d) k' dflt = if decide (k = k') then v else dict_get d k' dflt.
Proof. unfold dict_get. rewrite lookup_insert. by case_decide. Qed.

End dict.

(** ** Counting *)

Lemma occurrences_nil ch : occurrences ch [] = 0.
Proof. done. Qed.

Lemma occurrences_cons ch c s :
  occurrences ch (c :: s) = (if decide (c = ch) then 1 else 0) + occurrences ch s.
Proof. unfold occurrences. rewrite filter_cons. by case_decide. Qed.

Lemma occurrences_app ch s1 s2 :
  occurrences ch (s1 ++ s2) = occurrences ch s1 + occurrences ch s2.
Proof. unfold occurrences. by rewrite filter_app, length_app. Qed.

Lemma occurrences_pos ch s : 0 < occurrences ch s ↔ ch ∈ s.
Proof.
  induction s as [|c s IH]; [rewrite occurrences_nil; set_solver by lia|].
  rewrite occurrences_cons, elem_of_cons, <-IH. case_decide; intuition lia.
Qed.

Lemma occurrences_zero ch s : occurrences ch s = 0 ↔ ch ∉ s.
Proof. rewrite <-occurrences_pos. lia. Qed.

Lemma occurrences_le_length ch s : occurrences ch s ≤ length s.
Proof. apply length_filter. Qed.

#[export] Hint Rewrite occurrences_nil occurrences_cons occurrences_app : pystr.
#[export] Hint Rewrite str_join_empty str_join_singletons : pystr.
#[export] Hint Rewrite @dict_get_empty @dict_get_insert : pystr.
