(* ===== verification/Chars.v ===== *)
(** * The character tables

    The three compiled-in tables of [tools/normalize_hyphens.py]
    ([TO_ASCII_HYPHEN], [REMOVE], [SOFT_HYPHEN]) and the classification the
    [if]/[elif] chain of [normalize_text] computes from them.  The theorems
    show that the tables are pairwise disjoint (so the order of the tests is
    immaterial and every code point has exactly one category), that no table
    holds an ASCII code point or the ASCII hyphen the rewriting produces, and
    that every listed code point is a Unicode scalar value of the Basic
    Multilingual Plane. *)

From S2P Require Import Prelude.

#[local] Set Warnings "-clear-no-such-hyp".
Local Open Scope N_scope.

(** ** The tables (lines 24-45) *)

(** Characters to convert to a normal hyphen. *)
Definition TO_ASCII_HYPHEN : gset codepoint :=
  {[ 0x2010;   (* hyphen *)
     0x2011;   (* non-breaking hyphen *)
     0x2012;   (* figure dash *)
     0x2013;   (* en dash *)
     0x2014;   (* em dash *)
     0x2212;   (* minus sign *)
     0xfe63;   (* small hyphen-minus *)
     0xff0d ]} (* fullwidth hyphen-minus *).

(** Characters that are removed entirely. *)
Definition REMOVE : gset codepoint :=
  {[ 0x200b;   (* zero width space *)
     0x200c;   (* zero width non-joiner *)
     0x200d;   (* zero width joiner *)
     0x2060;   (* word joiner *)
     0xfeff ]} (* zero width no-break space (BOM) *).

(** Discretionary / soft hyphen. *)
Definition SOFT_HYPHEN : codepoint := 0x00ad.

(** ** Classification *)

(** The four categories of the data model. *)
Inductive category : Set :=
  | Passthrough
  | DashLike
  | RemovableInvisible
  | SoftHyphen.

#[export] Instance category_eq_dec : EqDecision category.
Proof. solve_decision. Defined.

(** The tests of the loop body, in the order the code makes them. *)
Definition classify (ch : codepoint) : category :=
  if decide (ch ∈ TO_ASCII_HYPHEN) then DashLike
  else if decide (ch ∈ REMOVE) then RemovableInvisible
  else if decide (ch = SOFT_HYPHEN) then SoftHyphen
  else Passthrough.

(** Every code point some table lists. *)
Definition SPECIAL : gset codepoint :=
  TO_ASCII_HYPHEN ∪ REMOVE ∪ {[ SOFT_HYPHEN ]}.

(** A text that holds no listed code point. *)
Definition clean (s : pystr) : Prop := Forall (λ ch, ch ∉ SPECIAL) s.

#[export] Instance clean_dec s : Decision (clean s).
Proof. unfold clean. apply _. Defined.

(** The ASCII hyphen-minus, the only character of the literal ["-"]. *)
Definition HYPHEN_MINUS : codepoint := 0x2d.

(** ** The tables are disjoint *)

Lemma TO_ASCII_HYPHEN_REMOVE_disjoint : TO_ASCII_HYPHEN ## REMOVE.
Proof. apply disjoint_intersection_L. by vm_compute. Qed.

Lemma SOFT_HYPHEN_not_dash : SOFT_HYPHEN ∉ TO_ASCII_HYPHEN.
Proof. by apply (bool_decide_unpack _); vm_compute. Qed.

Lemma SOFT_HYPHEN_not_removed : SOFT_HYPHEN ∉ REMOVE.
Proof. by apply (bool_decide_unpack _); vm_compute. Qed.

Lemma elem_of_SPECIAL ch :
  ch ∈ SPECIAL ↔ ch ∈ TO_ASCII_HYPHEN ∨ ch ∈ REMOVE ∨ ch = SOFT_HYPHEN.
Proof. unfold SPECIAL. set_solver. Qed.

(** ** What [classify] decides *)

Lemma classify_DashLike ch : classify ch = DashLike ↔ ch ∈ TO_ASCII_HYPHEN.
Proof. unfold classify. case_tests; naive_solver. Qed.

Lemma classify_RemovableInvisible ch :
  classify ch = RemovableInvisible ↔ ch ∈ REMOVE.
Proof.
  pose proof TO_ASCII_HYPHEN_REMOVE_disjoint.
  unfold classify. case_tests; set_solver.
Qed.

Lemma classify_SoftHyphen ch : classify ch = SoftHyphen ↔ ch = SOFT_HYPHEN.
Proof.
  pose proof SOFT_HYPHEN_not_dash. pose proof SOFT_HYPHEN_not_removed.
  unfold classify. case_tests; naive_solver.
Qed.

Lemma classify_Passthrough ch : classify ch = Passthrough ↔ ch ∉ SPECIAL.
Proof. rewrite elem_of_SPECIAL. unfold classify. case_tests; naive_solver. Qed.

Lemma classify_special ch : classify ch ≠ Passthrough ↔ ch ∈ SPECIAL.
Proof.
  rewrite classify_Passthrough. destruct (decide (ch ∈ SPECIAL)); naive_solver.
Qed.

(** C37. Every code point has exactly one category, and the category
    says which table lists it: the tables are pairwise disjoint, so the
    order of the tests of the loop is immaterial. *)
Theorem classify_tables ch :
  match classify ch with
  | DashLike => ch ∈ TO_ASCII_HYPHEN ∧ (ch ∉ REMOVE) ∧ ch ≠ SOFT_HYPHEN
  | RemovableInvisible => (ch ∉ TO_ASCII_HYPHEN) ∧ ch ∈ REMOVE ∧ ch ≠ SOFT_HYPHEN
  | SoftHyphen => (ch ∉ TO_ASCII_HYPHEN) ∧ (ch ∉ REMOVE) ∧ ch = SOFT_HYPHEN
  | Passthrough => (ch ∉ TO_ASCII_HYPHEN) ∧ (ch ∉ REMOVE) ∧ ch ≠ SOFT_HYPHEN
  end.
Proof.
  pose proof TO_ASCII_HYPHEN_REMOVE_disjoint.
  pose proof SOFT_HYPHEN_not_dash. pose proof SOFT_HYPHEN_not_removed.
  unfold classify. repeat case_decide; set_solver.
Qed.

(** ** Where the listed code points lie *)

(** Every listed code point is at least U+00AD and below U+10000. *)
Lemma SPECIAL_range : set_Forall (λ ch, 0xad ≤ ch ∧ ch < 0x10000) SPECIAL.
Proof. by apply (bool_decide_unpack _); vm_compute. Qed.

Lemma SPECIAL_not_ascii ch : ch ∈ SPECIAL → 0x80 ≤ ch.
Proof. intros Hch%SPECIAL_range. simpl in Hch. lia. Qed.

Lemma SPECIAL_scalar ch : ch ∈ SPECIAL → is_scalar ch.
Proof. by revert ch; apply (bool_decide_unpack _); vm_compute. Qed.

Lemma ascii_not_SPECIAL ch : ch < 0x80 → ch ∉ SPECIAL.
Proof. intros ? ?%SPECIAL_not_ascii. lia. Qed.

Lemma HYPHEN_MINUS_not_SPECIAL : HYPHEN_MINUS ∉ SPECIAL.
Proof. by apply ascii_not_SPECIAL. Qed.

Lemma classify_HYPHEN_MINUS : classify HYPHEN_MINUS = Passthrough.
Proof. apply classify_Passthrough, HYPHEN_MINUS_not_SPECIAL. Qed.

Lemma py_hyphen : py "-" = [HYPHEN_MINUS].
Proof. done. Qed.

(** ** Clean texts *)

Lemma clean_nil : clean [].
Proof. constructor. Qed.

Lemma clean_cons ch s : clean (ch :: s) ↔ (ch ∉ SPECIAL) ∧ clean s.
Proof. exact (Forall_cons _ _ _). Qed.

Lemma clean_app s1 s2 : clean (s1 ++ s2) ↔ clean s1 ∧ clean s2.
Proof. exact (Forall_app _ _ _). Qed.

Lemma clean_elem_of s ch : clean s → ch ∈ s → ch ∉ SPECIAL.
Proof. intros Hs. exact (proj1 (Forall_forall _ _) Hs ch). Qed.

Lemma not_clean s : ¬ clean s ↔ ∃ ch, ch ∈ s ∧ ch ∈ SPECIAL.
Proof.
  split.
  - intros (ch & Hin & Hch)%not_Forall_Exists%Exists_exists; [|apply _].
    exists ch. split; [done | by apply dec_stable].
  - intros (ch & Hin & Hch) Hs. by apply (clean_elem_of s ch).
Qed.

Lemma clean_ascii s : Forall (λ ch, (ch < 0x80)) s → clean s.
Proof. intros Hs. eapply Forall_impl; [exact Hs | apply ascii_not_SPECIAL]. Qed.

#[export] Hint Resolve TO_ASCII_HYPHEN_REMOVE_disjoint SOFT_HYPHEN_not_dash
  SOFT_HYPHEN_not_removed HYPHEN_MINUS_not_SPECIAL clean_nil : pystr.
