(* ===== verification/Normalize.v ===== *)
(** * [normalize_text]

    The per-character rewriting loop of [tools/normalize_hyphens.py]
    (lines 47-76), as a left fold of the loop body over the input with the
    two mutable locals ([out], [counts]) as explicit state, and its
    specification: the output is the concatenation of the images of the
    characters ([normalized]), the returned dictionary maps every listed
    character that occurs to its number of occurrences ([hit_count]). *)

From S2P Require Import Prelude Chars.

#[local] Set Warnings "-clear-no-such-hyp".

(** ** The code *)

(** The locals the loop mutates: the list of output pieces and the hit
    counters. *)
Record loop_state : Type := LoopState {
  out : list pystr;
  counts : gmap codepoint nat;
}.

(** [counts[ch] = counts.get(ch, 0) + 1] (the closure [bump], lines 55-56). *)
Definition bump (ch : codepoint) (counts : gmap codepoint nat) : gmap codepoint nat :=
  <[ch := (dict_get counts ch 0 + 1)%nat]> counts.

(** One iteration of [for ch in s] (lines 60-74). *)
Definition loop_body (soft_hyphen_mode : pystr) (st : loop_state) (ch : codepoint)
  : loop_state :=
  if decide (ch ∈ TO_ASCII_HYPHEN) then
    {| out := out st ++ [py "-"]; counts := bump ch (counts st) |}
  else if decide (ch ∈ REMOVE) then
    {| out := out st; counts := bump ch (counts st) |}
  else if decide (ch = SOFT_HYPHEN) then
    if decide (soft_hyphen_mode = py "hyphen") then
      {| out := out st ++ [py "-"]; counts := bump ch (counts st) |}
    else
      {| out := out st; counts := bump ch (counts st) |}
  else
    {| out := out st ++ [[ch]]; counts := counts st |}.

(** [normalize_text(s, soft_hyphen_mode)] (lines 47-76). *)
Definition normalize_text (s soft_hyphen_mode : pystr)
  : pystr * gmap codepoint nat :=
  let st := foldl (loop_body soft_hyphen_mode) {| out := []; counts := ∅ |} s in
  (str_join [] (out st), counts st).

(** ** The specification *)

(** What one character becomes. *)
Definition char_image (mode : pystr) (ch : codepoint) : pystr :=
  match classify ch with
  | Passthrough => [ch]
  | DashLike => [HYPHEN_MINUS]
  | RemovableInvisible => []
  | SoftHyphen => if decide (mode = py "hyphen") then [HYPHEN_MINUS] else []
  end.

(** The characters that leave no trace in the output. *)
Definition dropped (mode : pystr) (ch : codepoint) : Prop :=
  ch ∈ REMOVE ∨ (ch = SOFT_HYPHEN ∧ mode ≠ py "hyphen").

#[export] Instance dropped_dec mode ch : Decision (dropped mode ch).
Proof. unfold dropped. apply _. Defined.

(** The normalized text: every character replaced by its image. *)
Definition normalized (mode s : pystr) : pystr := s ≫= char_image mode.

(** The entry of the hit dictionary for [ch]: present exactly for the listed
    characters that occur, with their number of occurrences. *)
Definition hit_count (s : pystr) (ch : codepoint) : option nat :=
  if decide (ch ∈ SPECIAL ∧ ch ∈ s) then Some (occurrences ch s) else None.

(** ** Scenarios of the specification *)

Example scenario_1 :
  normalize_text (py "micro" ++ [0xad%N] ++ py "scopic") (py "hyphen")
  = (py "micro-scopic", {[ 0xad%N := 1%nat ]}).
Proof. by vm_compute. Qed.

Example scenario_1_remove :
  normalize_text (py "micro" ++ [0xad%N] ++ py "scopic") (py "remove")
  = (py "microscopic", {[ 0xad%N := 1%nat ]}).
Proof. by vm_compute. Qed.

Example scenario_2 mode :
  normalize_text (py "a" ++ [0x2013%N] ++ py "b" ++ [0x2014%N] ++ py "c") mode
  = (py "a-b-c", {[ 0x2013%N := 1%nat; 0x2014%N := 1%nat ]}).
Proof. by vm_compute. Qed.

Example scenario_3 mode :
  normalize_text (py "wo" ++ [0x200b%N] ++ py "rd") mode
  = (py "word", {[ 0x200b%N := 1%nat ]}).
Proof. by vm_compute. Qed.

Example scenario_4 mode :
  normalize_text (py "plain text") mode = (py "plain text", ∅).
Proof. by vm_compute. Qed.

(** ** The loop body, one step *)

Lemma bump_lookup ch ch' (c : gmap codepoint nat) :
  bump ch c !! ch' =
    if decide (ch = ch') then Some (dict_get c ch 0 + 1)%nat else c !! ch'.
Proof. unfold bump. by rewrite lookup_insert. Qed.

Lemma dict_get_bump ch ch' (c : gmap codepoint nat) :
  dict_get (bump ch c) ch' 0%nat =
    (dict_get c ch' 0 + if decide (ch = ch') then 1 else 0)%nat.
Proof.
  unfold dict_get. rewrite bump_lookup.
  case_decide; simplify_eq/=; unfold dict_get; lia.
Qed.

Lemma bump_dom ch (c : gmap codepoint nat) : dom (bump ch c) = {[ ch ]} ∪ dom c.
Proof. unfold bump. by rewrite dom_insert_L. Qed.

Lemma bump_ne_empty ch (c : gmap codepoint nat) : bump ch c ≠ ∅.
Proof. apply insert_non_empty. Qed.

(** The output pieces grow by the image of the character. *)
Lemma loop_body_out mode st ch :
  concat (out (loop_body mode st ch)) = concat (out st) ++ char_image mode ch.
Proof.
  unfold loop_body, char_image, classify.
  case_tests; rewrite ?concat_app, ?app_nil_r; by simpl.
Qed.

(** The counters are bumped exactly for the listed characters. *)
Lemma loop_body_counts mode st ch :
  counts (loop_body mode st ch) =
    if decide (ch ∈ SPECIAL) then bump ch (counts st) else counts st.
Proof.
  destruct (decide (ch ∈ SPECIAL)) as [Hs|Hs]; rewrite elem_of_SPECIAL in Hs;
    unfold loop_body; case_tests; naive_solver.
Qed.

(** ** The whole loop, from any state *)

Lemma loop_out mode s st :
  concat (out (foldl (loop_body mode) st s)) = concat (out st) ++ normalized mode s.
Proof.
  revert st. induction s as [|ch s IH]; intros st; simpl.
  - by rewrite app_nil_r.
  - by rewrite IH, loop_body_out, <-app_assoc.
Qed.

Lemma loop_counts mode s st ch :
  counts (foldl (loop_body mode) st s) !! ch =
    if decide (ch ∈ SPECIAL ∧ ch ∈ s)
    then Some (dict_get (counts st) ch 0 + occurrences ch s)%nat
    else counts st !! ch.
Proof.
  revert st. induction s as [|c s IH]; intros st; simpl.
  { case_decide as Hin; [|done]. by destruct Hin as [_ ?%elem_of_nil]. }
  rewrite IH, loop_body_counts, occurrences_cons. clear IH.
  destruct (decide (ch ∈ SPECIAL)) as [Hs|Hs];
    [|rewrite !(decide_False (P := ch ∈ SPECIAL ∧ _)) by tauto;
      case_decide; [rewrite bump_lookup|]; by case_tests].
  destruct (decide (c = ch)) as [->|Hne].
  - rewrite (decide_True (P := ch ∈ SPECIAL)) by done.
    rewrite dict_get_bump, bump_lookup, !(decide_True (P := ch = ch)) by done.
    rewrite (decide_True (P := _ ∧ ch ∈ ch :: s)) by set_solver.
    case_decide as Hin; [f_equal; lia|].
    rewrite (proj2 (occurrences_zero ch s)) by tauto. f_equal; lia.
  - rewrite (decide_ext (_ ∧ ch ∈ c :: s) (ch ∈ SPECIAL ∧ ch ∈ s)) by set_solver.
    case_decide; case_decide;
      rewrite ?dict_get_bump, ?bump_lookup, ?(decide_False (P := c = ch)) by done;
      try done; f_equal; lia.
Qed.

(** ** Facts about the specification *)

Lemma normalized_nil mode : normalized mode [] = [].
Proof. done. Qed.

Lemma normalized_cons mode ch s :
  normalized mode (ch :: s) = char_image mode ch ++ normalized mode s.
Proof. done. Qed.

Lemma normalized_app mode s1 s2 :
  normalized mode (s1 ++ s2) = normalized mode s1 ++ normalized mode s2.
Proof. apply bind_app. Qed.

Lemma char_image_dash mode ch :
  ch ∈ TO_ASCII_HYPHEN → char_image mode ch = [HYPHEN_MINUS].
Proof. intros Hch%classify_DashLike. unfold char_image. by rewrite Hch. Qed.

Lemma char_image_removed mode ch : ch ∈ REMOVE → char_image mode ch = [].
Proof.
  intros Hch%classify_RemovableInvisible. unfold char_image. by rewrite Hch.
Qed.

Lemma char_image_soft_hyphen mode :
  char_image mode SOFT_HYPHEN =
    if decide (mode = py "hyphen") then [HYPHEN_MINUS] else [].
Proof. done. Qed.

Lemma char_image_passthrough mode ch : ch ∉ SPECIAL → char_image mode ch = [ch].
Proof. intros Hch%classify_Passthrough. unfold char_image. by rewrite Hch. Qed.

(** A character of an image is the ASCII hyphen or the unlisted character
    itself. *)
Lemma classify_special_cases mode ch c :
  c ∈ char_image mode ch → c = HYPHEN_MINUS ∨ (c = ch ∧ ch ∉ SPECIAL).
Proof.
  unfold char_image. destruct (classify ch) eqn:Hcl; case_tests;
    rewrite ?list_elem_of_singleton, ?elem_of_nil; try tauto.
  intros ->. right. split; [done | by apply classify_Passthrough].
Qed.

(** The image of a character never holds a listed character. *)
Lemma char_image_clean mode ch : clean (char_image mode ch).
Proof.
  apply Forall_forall. intros c [-> | [-> ?]]%classify_special_cases;
    auto with pystr.
Qed.

Lemma normalized_clean mode s : clean (normalized mode s).
Proof.
  induction s as [|ch s IH]; [constructor|].
  rewrite normalized_cons. apply clean_app. auto using char_image_clean.
Qed.

Lemma normalized_id mode s : clean s → normalized mode s = s.
Proof.
  induction 1 as [|ch s Hch _ IH]; [done|].
  by rewrite normalized_cons, char_image_passthrough, IH.
Qed.

Lemma normalized_fixpoint mode s : normalized mode s = s ↔ clean s.
Proof.
  split; [intros <-; apply normalized_clean | apply normalized_id].
Qed.

Lemma hit_count_None s ch : hit_count s ch = None ↔ (ch ∉ SPECIAL) ∨ (ch ∉ s).
Proof.
  unfold hit_count.
  destruct (decide (ch ∈ SPECIAL)), (decide (ch ∈ s)); case_decide; naive_solver.
Qed.

Lemma hit_count_clean s : (∀ ch, hit_count s ch = None) ↔ clean s.
Proof.
  unfold clean. rewrite Forall_forall. split.
  - intros Hs ch Hin. by destruct (proj1 (hit_count_None s ch) (Hs ch)).
  - intros Hs ch. apply hit_count_None.
    destruct (decide (ch ∈ s)); [left | right]; auto.
Qed.

(** ** [normalize_text] meets its specification *)

Lemma normalize_text_fst s mode :
  (normalize_text s mode).1 = normalized mode s.
Proof. unfold normalize_text. simpl. by rewrite str_join_empty, loop_out. Qed.

Lemma normalize_text_snd s mode ch :
  (normalize_text s mode).2 !! ch = hit_count s ch.
Proof.
  unfold normalize_text, hit_count. simpl. rewrite loop_counts. simpl.
  by rewrite (dict_get_empty (K := N)), (lookup_empty (M := gmap N)).
Qed.

(** C1. The text [normalize_text] returns is the input with every character
    replaced by its image: ["-"] for a dash-like character, nothing for a
    removable one, ["-"] or nothing for the soft hyphen according to the
    mode, the character itself otherwise. *)
Theorem normalize_text_output s mode :
  (normalize_text s mode).1 = normalized mode s.
Proof. apply normalize_text_fst. Qed.


(** C2. The dictionary [normalize_text] returns has an entry exactly for the
    listed characters that occur in the input, and the entry is the number
    of occurrences, whatever the mode. *)
Theorem normalize_text_counts s mode ch :
  (normalize_text s mode).2 !! ch = hit_count s ch.
Proof. apply normalize_text_snd. Qed.

(** To show what [normalize_text] returns it is enough to compute the
    specification. *)
Lemma normalize_text_eq s mode t (c : gmap codepoint nat) :
  normalized mode s = t → (∀ ch, c !! ch = hit_count s ch) →
  normalize_text s mode = (t, c).
Proof.
  intros <- Hc. apply injective_projections.
  - apply normalize_text_fst.
  - apply map_eq. intros ch. by rewrite normalize_text_snd, Hc.
Qed.

Lemma normalize_text_counts_empty s mode :
  (normalize_text s mode).2 = ∅ ↔ clean s.
Proof.
  rewrite <-hit_count_clean, map_empty.
  by setoid_rewrite normalize_text_snd.
Qed.

(** The keys of the returned dictionary are the listed characters that
    occur in the input. *)
Lemma normalize_text_counts_dom s mode :
  dom (normalize_text s mode).2 = SPECIAL ∩ list_to_set s.
Proof.
  apply set_eq. intros ch.
  rewrite elem_of_dom, normalize_text_snd, elem_of_intersection,
    elem_of_list_to_set.
  unfold hit_count. case_decide; [naive_solver | rewrite is_Some_alt; tauto].
Qed.

(** A text without listed characters is returned unchanged, with an
    empty dictionary (no-op stability). *)
Lemma normalize_text_clean s mode :
  clean s → normalize_text s mode = (s, ∅).
Proof.
  intros Hs. apply normalize_text_eq; [by apply normalized_id|].
  intros ch. rewrite lookup_empty. symmetry. by apply hit_count_clean.
Qed.

(** C34. The returned text never holds a listed character. *)
Theorem normalize_text_output_clean s mode : clean (normalize_text s mode).1.
Proof. rewrite normalize_text_fst. apply normalized_clean. Qed.

(** C3. Idempotence: normalizing the output again returns it unchanged and
    counts nothing. *)
Theorem normalize_text_idempotent s mode :
  normalize_text (normalize_text s mode).1 mode = ((normalize_text s mode).1, ∅).
Proof.
  rewrite normalize_text_fst.
  apply normalize_text_eq; [apply normalized_id, normalized_clean|].
  intros ch. rewrite lookup_empty. symmetry. apply hit_count_clean, normalized_clean.
Qed.

(** C20. The returned text differs from the input exactly when the returned
    dictionary is not empty: every counted hit changes the content, and a
    changed content has a counted hit. *)
Theorem normalize_text_changed_iff_hits s mode :
  (normalize_text s mode).1 ≠ s ↔ (normalize_text s mode).2 ≠ ∅.
Proof.
  by rewrite normalize_text_fst, normalized_fixpoint, normalize_text_counts_empty.
Qed.

(** The returned text differs from the input exactly when the input
    holds a listed character. *)
Lemma normalize_text_changed_iff s mode :
  (normalize_text s mode).1 ≠ s ↔ ∃ ch, ch ∈ s ∧ ch ∈ SPECIAL.
Proof. by rewrite normalize_text_fst, normalized_fixpoint, not_clean. Qed.

(** ** Single characters (the category tests of the specification) *)

Lemma normalize_text_singleton ch mode :
  normalize_text [ch] mode =
    (char_image mode ch, if decide (ch ∈ SPECIAL) then {[ ch := 1%nat ]} else ∅).
Proof.
  apply normalize_text_eq; [apply app_nil_r|]. intros c. unfold hit_count.
  rewrite occurrences_cons, occurrences_nil.
  destruct (decide (ch ∈ SPECIAL)), (decide (c = ch)) as [->|];
    rewrite ?lookup_singleton_eq, ?lookup_singleton_ne, ?lookup_empty by done;
    case_decide as Hd; case_tests; set_solver.
Qed.

(** Category completeness: a dash-like character alone becomes exactly
    ["-"], whatever the mode, and is counted once. *)
Lemma normalize_text_dash ch mode :
  ch ∈ TO_ASCII_HYPHEN → normalize_text [ch] mode = (py "-", {[ ch := 1%nat ]}).
Proof.
  intros Hch. rewrite normalize_text_singleton, char_image_dash by done.
  by rewrite decide_True by (apply elem_of_SPECIAL; auto).
Qed.

(** Removal: a removable character alone becomes the empty text,
    whatever the mode, and is counted once. *)
Lemma normalize_text_removed ch mode :
  ch ∈ REMOVE → normalize_text [ch] mode = ([], {[ ch := 1%nat ]}).
Proof.
  intros Hch. rewrite normalize_text_singleton, char_image_removed by done.
  by rewrite decide_True by (apply elem_of_SPECIAL; auto).
Qed.

(** Soft hyphen modes: the soft hyphen becomes ["-"] when the mode is
    ["hyphen"] and is dropped for every other mode string, ["remove"]
    included; it is counted once either way. *)
Lemma normalize_text_soft_hyphen mode :
  normalize_text [SOFT_HYPHEN] mode =
    (if decide (mode = py "hyphen") then py "-" else [], {[ SOFT_HYPHEN := 1%nat ]}).
Proof. rewrite normalize_text_singleton. by case_decide. Qed.

(** Passthrough: a character no table lists is returned as it is and is
    not counted. *)
Lemma normalize_text_passthrough ch mode :
  ch ∉ SPECIAL → normalize_text [ch] mode = ([ch], ∅).
Proof.
  intros Hch. by rewrite normalize_text_singleton, char_image_passthrough, decide_False.
Qed.

(** C35. One character: [normalize_text] on a single character returns
    what its category says, whatever else the mode string is: itself and
    no hit for a character no table lists, ["-"] and one hit for a
    dash-like character, nothing and one hit for a removable one, and for
    the soft hyphen ["-"] in mode ["hyphen"], nothing in every other mode,
    and one hit. *)
Theorem normalize_text_char ch mode :
  normalize_text [ch] mode =
    match classify ch with
    | Passthrough => ([ch], ∅)
    | DashLike => (py "-", {[ ch := 1%nat ]})
    | RemovableInvisible => ([], {[ ch := 1%nat ]})
    | SoftHyphen =>
        (if decide (mode = py "hyphen") then py "-" else [], {[ ch := 1%nat ]})
    end.
Proof.
  rewrite normalize_text_singleton. unfold char_image.
  destruct (classify ch) eqn:Hcl;
    [rewrite (decide_False (P := ch ∈ SPECIAL)) by (by apply classify_Passthrough)
    |rewrite (decide_True (P := ch ∈ SPECIAL))
       by (apply classify_special; congruence)..]; done.
Qed.

(** ** The mode *)

Lemma char_image_mode mode ch :
  mode ≠ py "hyphen" → char_image mode ch = char_image (py "remove") ch.
Proof. intros Hm. unfold char_image. destruct (classify ch); by case_tests. Qed.

(** Two modes that give the same text give the same result. *)
Lemma normalize_text_ext s mode mode' :
  normalized mode s = normalized mode' s →
  normalize_text s mode = normalize_text s mode'.
Proof.
  intros Heq. rewrite (surjective_pairing (normalize_text s mode')).
  apply normalize_text_eq; [by rewrite normalize_text_fst|].
  apply normalize_text_snd.
Qed.

(** C36. Every mode string other than ["hyphen"] behaves as ["remove"]:
    [normalize_text] does not reject an unknown mode. *)
Theorem normalize_text_mode_default s mode :
  mode ≠ py "hyphen" → normalize_text s mode = normalize_text s (py "remove").
Proof.
  intros Hm. apply normalize_text_ext.
  induction s as [|ch s IH]; [done|].
  by rewrite !normalized_cons, IH, char_image_mode.
Qed.

(** The mode matters only for texts that hold a soft hyphen. *)
Lemma normalize_text_mode_irrelevant s mode mode' :
  SOFT_HYPHEN ∉ s → normalize_text s mode = normalize_text s mode'.
Proof.
  intros Hs. apply normalize_text_ext.
  induction s as [|ch s IH]; [done|]. apply not_elem_of_cons in Hs as [Hne Hs].
  rewrite !normalized_cons, IH by done. f_equal. unfold char_image.
  destruct (classify ch) eqn:Hc; try done. by apply classify_SoftHyphen in Hc.
Qed.

(** ** Length and content of the output *)

Lemma char_image_length mode ch :
  length (char_image mode ch) = if decide (dropped mode ch) then 0%nat else 1%nat.
Proof.
  pose proof SOFT_HYPHEN_not_removed.
  unfold char_image, dropped. destruct (classify ch) eqn:Hc.
  - apply classify_Passthrough in Hc. rewrite elem_of_SPECIAL in Hc.
    rewrite decide_False; [done | naive_solver].
  - apply classify_DashLike in Hc. pose proof TO_ASCII_HYPHEN_REMOVE_disjoint.
    pose proof SOFT_HYPHEN_not_dash. rewrite decide_False; [done | set_solver].
  - apply classify_RemovableInvisible in Hc. by rewrite decide_True by auto.
  - apply classify_SoftHyphen in Hc as ->. repeat case_decide; naive_solver.
Qed.

(** C38. The output is the input shortened by the dropped characters: the
    removable ones and, unless the mode is ["hyphen"], the soft hyphens;
    every other character yields exactly one character. *)
Theorem normalize_text_length s mode :
  (length (normalize_text s mode).1 + length (filter (dropped mode) s))%nat
  = length s.
Proof.
  rewrite normalize_text_fst. induction s as [|ch s IH]; [done|].
  rewrite normalized_cons, length_app, char_image_length, filter_cons.
  case_decide; simpl; lia.
Qed.

(** Every character of the output is the ASCII hyphen or an unlisted
    character of the input. *)
Lemma elem_of_normalized mode s c :
  c ∈ normalized mode s → c = HYPHEN_MINUS ∨ (c ∈ s ∧ c ∉ SPECIAL).
Proof.
  unfold normalized. rewrite list_elem_of_bind. intros (ch & Hc & Hch).
  apply classify_special_cases in Hc as [-> | [-> ?]]; auto.
Qed.

Lemma normalized_Forall (P : codepoint → Prop) mode s :
  P HYPHEN_MINUS → Forall P s → Forall P (normalized mode s).
Proof.
  intros Hh Hs. apply Forall_forall.
  intros c [-> | [Hc _]]%elem_of_normalized; [done|].
  by apply (proj1 (Forall_forall P s) Hs).
Qed.

(** A property of code points that holds of the ASCII hyphen and of
    every character of the input holds of every character of the output;
    in particular the output of a text UTF-8 can encode can be encoded. *)
Lemma normalize_text_Forall (P : codepoint → Prop) s mode :
  P HYPHEN_MINUS → Forall P s → Forall P (normalize_text s mode).1.
Proof. rewrite normalize_text_fst. apply normalized_Forall. Qed.

Lemma normalized_scalar mode s :
  Forall is_scalar s → Forall is_scalar (normalized mode s).
Proof. apply normalized_Forall. by apply (bool_decide_unpack _). Qed.

Lemma filter_char_image mode ch :
  filter (λ c, c ≠ HYPHEN_MINUS) (char_image mode ch)
  = if decide (ch ∈ SPECIAL) then [] else filter (λ c, c ≠ HYPHEN_MINUS) [ch].
Proof.
  case_decide as Hs; [|by rewrite char_image_passthrough].
  apply classify_special in Hs. unfold char_image.
  destruct (classify ch); try done; by case_tests.
Qed.

(** Apart from ASCII hyphens nothing is added and nothing but listed
    characters is lost: with the ASCII hyphens deleted, the output is the
    input with the listed characters and the ASCII hyphens deleted, in
    the same order. *)
Lemma normalize_text_preserves_rest s mode :
  filter (λ c, c ≠ HYPHEN_MINUS) (normalize_text s mode).1
  = filter (λ c, c ≠ HYPHEN_MINUS) (filter (λ c, c ∉ SPECIAL) s).
Proof.
  rewrite normalize_text_fst. induction s as [|ch s IH]; [done|].
  rewrite normalized_cons, filter_app, filter_char_image, IH.
  rewrite (filter_cons (λ c, c ∉ SPECIAL)).
  destruct (decide (ch ∈ SPECIAL)).
  - by rewrite (decide_False (P := ch ∉ SPECIAL)) by tauto.
  - rewrite (decide_True (P := ch ∉ SPECIAL)), !filter_cons by done.
    by case_decide.
Qed.

(** ** The theorems at concrete inputs *)

Lemma normalize_text_clean_witness :
  clean (py "plain text")
  ∧ normalize_text (py "plain text") (py "hyphen") = (py "plain text", ∅).
Proof.
  assert (Hc : clean (py "plain text")) by (by apply (bool_decide_unpack _); vm_compute).
  split; [exact Hc | exact (normalize_text_clean _ _ Hc)].
Defined.

Lemma normalize_text_dash_witness :
  0x2014%N ∈ TO_ASCII_HYPHEN
  ∧ normalize_text [0x2014%N] (py "remove") = (py "-", {[ 0x2014%N := 1%nat ]}).
Proof.
  assert (H : 0x2014%N ∈ TO_ASCII_HYPHEN) by (by apply (bool_decide_unpack _); vm_compute).
  split; [exact H | exact (normalize_text_dash _ _ H)].
Defined.

Lemma normalize_text_removed_witness :
  0xfeff%N ∈ REMOVE
  ∧ normalize_text [0xfeff%N] (py "hyphen") = ([], {[ 0xfeff%N := 1%nat ]}).
Proof.
  assert (H : 0xfeff%N ∈ REMOVE) by (by apply (bool_decide_unpack _); vm_compute).
  split; [exact H | exact (normalize_text_removed _ _ H)].
Defined.

Lemma normalize_text_passthrough_witness :
  (0x2d%N ∉ SPECIAL)
  ∧ normalize_text [0x2d%N] (py "hyphen") = ([0x2d%N], ∅).
Proof.
  assert (H : 0x2d%N ∉ SPECIAL) by (by apply (bool_decide_unpack _); vm_compute).
  split; [exact H | exact (normalize_text_passthrough _ _ H)].
Defined.

Lemma normalize_text_mode_default_witness :
  py "Hyphen" ≠ py "hyphen"
  ∧ normalize_text [0xad%N] (py "Hyphen") = normalize_text [0xad%N] (py "remove").
Proof.
  assert (H : py "Hyphen" ≠ py "hyphen") by (by apply (bool_decide_unpack _); vm_compute).
  split; [exact H | exact (normalize_text_mode_default _ _ H)].
Defined.
