(* ===== verification/Format.v ===== *)
(** * Formatting numbers and columns

    The pieces of Python's format mini-language the report of
    [tools/normalize_hyphens.py] uses (lines 127-128, 132, 136): an integer
    in decimal ([f"{n}"]), an integer in upper-case hexadecimal padded with
    zeros to four digits ([f"{n:04X}"]), a string left-justified in a column
    ([f"{s:<8}"]).  Digits are produced by repeated division, with fuel: the
    bit length of the number bounds its number of digits in any base from
    two up, so the fuel never runs out ([digits_enough_fuel]). *)

From S2P Require Import Prelude.

#[local] Set Warnings "-clear-no-such-hyp".

(** ** The code *)

(** The digit [d] of a base up to sixteen, upper case:
    ["0123456789ABCDEF"[d]]. *)
Definition digit_char (d : N) : codepoint :=
  if decide (d < 10)%N then (48 + d)%N else (55 + d)%N.

(** The digits of [n] in [base], most significant first, in front of
    [acc]. *)
Fixpoint digits_fuel (base : N) (fuel : nat) (n : N) (acc : pystr) : pystr :=
  match fuel with
  | O => acc
  | S fuel' =>
      let acc' := digit_char (n mod base) :: acc in
      if decide (n / base = 0)%N then acc' else digits_fuel base fuel' (n / base) acc'
  end.

Definition digits (base n : N) : pystr :=
  digits_fuel base (S (N.to_nat (N.log2 n))) n [].

(** [str(n)], [f"{n}"] for a non-negative integer. *)
Definition str_of_nat (n : nat) : pystr := digits 10 (N.of_nat n).

(** [s.rjust(width, "0")] for a string of digits. *)
Definition zero_pad (width : nat) (s : pystr) : pystr :=
  replicate (width - length s) 48%N ++ s.

(** [f"{n:04X}"]. *)
Definition format_04X (n : N) : pystr := zero_pad 4 (digits 16 n).

(** [f"{s:<width}"]: left-justified, filled with spaces. *)
Definition ljust (width : nat) (s : pystr) : pystr :=
  s ++ replicate (width - length s) 32%N.

(** ** Reading digits back (the specification of [digits]) *)

(** The value of a digit character, if it is one. *)
Definition digit_value (c : codepoint) : option N :=
  if decide (48 ≤ c ∧ c < 58)%N then Some (c - 48)%N
  else if decide (65 ≤ c ∧ c < 71)%N then Some (c - 55)%N
  else None.

(** The number a string of digits denotes in [base] ([int(s, base)] on
    upper-case digits); [None] for a character that is no digit of the
    base. *)
Definition parse_digits (base : N) (s : pystr) : option N :=
  foldl (λ acc c,
    v ← acc; d ← digit_value c;
    if decide (d < base)%N then Some (v * base + d)%N else None) (Some 0%N) s.

(** ** Examples *)

Example format_04X_soft_hyphen : format_04X 0xad = py "00AD".
Proof. by vm_compute. Qed.

Example format_04X_wide : format_04X 0x1F600 = py "1F600".
Proof. by vm_compute. Qed.

Example format_04X_zero : format_04X 0 = py "0000".
Proof. by vm_compute. Qed.

Example str_of_nat_120 : str_of_nat 120 = py "120".
Proof. by vm_compute. Qed.

Example str_of_nat_0 : str_of_nat 0 = py "0".
Proof. by vm_compute. Qed.

Example ljust_code : ljust 8 (py "U+00AD") = py "U+00AD  ".
Proof. by vm_compute. Qed.

Example ljust_long : ljust 3 (py "DASH") = py "DASH".
Proof. by vm_compute. Qed.

(** ** Digits *)

Lemma digit_value_char d : (d < 16)%N → digit_value (digit_char d) = Some d.
Proof.
  intros Hd. unfold digit_value, digit_char.
  repeat case_decide; try lia; f_equal; lia.
Qed.

Lemma digits_fuel_acc base fuel n acc :
  digits_fuel base fuel n acc = digits_fuel base fuel n [] ++ acc.
Proof.
  revert n acc. induction fuel as [|fuel IH]; intros n acc; simpl; [done|].
  case_decide; [done|].
  by rewrite (IH _ (_ :: acc)), (IH _ [_]), <-app_assoc.
Qed.

Lemma digits_fuel_S base fuel n :
  digits_fuel base (S fuel) n [] =
    (if decide (n / base = 0)%N then [] else digits_fuel base fuel (n / base) [])
    ++ [digit_char (n mod base)].
Proof. simpl. case_decide; [done|]. apply digits_fuel_acc. Qed.

Lemma parse_digits_snoc base s c :
  parse_digits base (s ++ [c]) =
    v ← parse_digits base s; d ← digit_value c;
    if decide (d < base)%N then Some (v * base + d)%N else None.
Proof. unfold parse_digits. by rewrite foldl_snoc. Qed.

Lemma parse_digits_zeros base k s :
  (0 < base)%N → parse_digits base (replicate k 48%N ++ s) = parse_digits base s.
Proof.
  intros Hb. unfold parse_digits. rewrite foldl_app.
  f_equal. induction k as [|k IH]; [done|].
  rewrite replicate_S_end, foldl_snoc, IH. simpl. by rewrite decide_True by lia.
Qed.

Section digits.
Context (base : N) (Hbase : (2 ≤ base ∧ base ≤ 16)%N).

(** With enough fuel the digits denote the number. *)
Lemma parse_digits_fuel fuel n :
  (n < base ^ N.of_nat fuel)%N → 0 < fuel →
  parse_digits base (digits_fuel base fuel n []) = Some n.
Proof.
  revert n. induction fuel as [|fuel IH]; intros n Hn Hf; [lia|].
  rewrite Nat2N.inj_succ, N.pow_succ_r' in Hn.
  assert (Hr : (n mod base < base)%N) by (apply N.mod_lt; lia).
  assert (Hdm : (n `div` base * base + n mod base)%N = n)
    by (rewrite (N.div_mod n base) at 3 by lia; lia).
  rewrite digits_fuel_S, parse_digits_snoc, digit_value_char
    by (eapply N.lt_le_trans; [exact Hr | lia]).
  case_decide as Hq.
  - simpl. rewrite decide_True by done. by rewrite <-Hdm at 2; rewrite Hq.
  - assert (Hdiv : (n `div` base < base ^ N.of_nat fuel)%N)
      by (by apply N.Div0.div_lt_upper_bound).
    rewrite IH; [|done|destruct fuel; [by apply N.lt_1_r in Hdiv | lia]].
    simpl. by rewrite decide_True, Hdm by done.
Qed.

(** The fuel [digits] starts with is enough. *)
Lemma digits_enough_fuel n : (n < base ^ N.of_nat (S (N.to_nat (N.log2 n))))%N.
Proof.
  rewrite Nat2N.inj_succ, N2Nat.id.
  apply N.lt_le_trans with (2 ^ N.succ (N.log2 n))%N.
  - destruct (decide (n = 0%N)) as [->|]; [done|]. apply N.log2_spec. lia.
  - apply N.pow_le_mono_l. lia.
Qed.

Lemma parse_digits_digits n : parse_digits base (digits base n) = Some n.
Proof. apply parse_digits_fuel; [apply digits_enough_fuel | lia]. Qed.

Lemma digits_inj : Inj (=) (=) (digits base).
Proof.
  intros n m Heq. apply (f_equal (parse_digits base)) in Heq.
  rewrite !parse_digits_digits in Heq. congruence.
Qed.

(** A number below [base ^ k] has at most [k] digits, and at least one. *)
Lemma digits_fuel_length fuel n k :
  (n < base ^ N.of_nat k)%N → 0 < k → 0 < fuel →
  1 ≤ length (digits_fuel base fuel n []) ≤ k.
Proof.
  revert n k. induction fuel as [|fuel IH]; intros n k Hn Hk Hf; [lia|].
  rewrite digits_fuel_S, length_app. simpl. case_decide as Hq; [simpl; lia|].
  destruct k as [|k]; [lia|].
  rewrite Nat2N.inj_succ, N.pow_succ_r' in Hn.
  assert (Hdiv : (n `div` base < base ^ N.of_nat k)%N)
    by (by apply N.Div0.div_lt_upper_bound).
  destruct k as [|k]; [by apply N.lt_1_r in Hdiv|].
  destruct fuel as [|fuel]; [simpl; lia|].
  pose proof (IH (n `div` base)%N (S k)). lia.
Qed.

Lemma digits_length n k :
  (n < base ^ N.of_nat k)%N → 0 < k → 1 ≤ length (digits base n) ≤ k.
Proof. intros. apply digits_fuel_length; [done | done | lia]. Qed.

(** ** The fuel is never used up *)

(** Once the fuel covers the number, one more unit changes nothing: the
    loop has left through its test [n / base = 0]. *)
Lemma digits_fuel_more fuel n acc :
  (n < base ^ N.of_nat fuel)%N → 0 < fuel →
  digits_fuel base (S fuel) n acc = digits_fuel base fuel n acc.
Proof.
  revert n acc. induction fuel as [|fuel IH]; intros n acc Hn Hf; [lia|].
  rewrite Nat2N.inj_succ, N.pow_succ_r' in Hn.
  cbn [digits_fuel]. case_decide as Hq; [done|].
  assert (Hdiv : (n `div` base < base ^ N.of_nat fuel)%N)
    by (by apply N.Div0.div_lt_upper_bound).
  apply IH; [done|]. destruct fuel; [by apply N.lt_1_r in Hdiv | lia].
Qed.

(** The repeated division of [n] by the base reaches 0 within the fuel
    [digits] provides, one more than the binary logarithm of [n]; with
    any larger fuel the loop returns the same digits. *)
Lemma digits_terminates n fuel :
  S (N.to_nat (N.log2 n)) ≤ fuel → digits_fuel base fuel n [] = digits base n.
Proof.
  intros Hf. replace fuel with ((fuel - S (N.to_nat (N.log2 n)))
                              + S (N.to_nat (N.log2 n))) by lia.
  induction (fuel - S (N.to_nat (N.log2 n))) as [|k IH]; [done|].
  rewrite <-IH. apply digits_fuel_more; [|lia].
  eapply N.lt_le_trans; [apply digits_enough_fuel|].
  apply N.pow_le_mono_r; lia.
Qed.

End digits.

(** ** Padding *)

Lemma zero_pad_length width s : length (zero_pad width s) = width `max` length s.
Proof. unfold zero_pad. rewrite length_app, length_replicate. lia. Qed.

Lemma ljust_length width s : length (ljust width s) = width `max` length s.
Proof. unfold ljust. rewrite length_app, length_replicate. lia. Qed.

Lemma ljust_take width s : take (length s) (ljust width s) = s.
Proof. unfold ljust. by rewrite take_app_length. Qed.

Lemma ljust_ge width s : width ≤ length s → ljust width s = s.
Proof.
  intros Hw. unfold ljust. replace (width - length s) with 0 by lia.
  apply app_nil_r.
Qed.

(** ** The two formats of the report *)

(** Reading the hexadecimal code of a character back gives the
    character: the code column of the report identifies the character. *)
Lemma format_04X_parse n : parse_digits 16 (format_04X n) = Some n.
Proof.
  unfold format_04X, zero_pad. rewrite parse_digits_zeros by done.
  by apply parse_digits_digits.
Qed.

Lemma format_04X_inj : Inj (=) (=) format_04X.
Proof.
  intros n m Heq. apply (f_equal (parse_digits 16)) in Heq.
  unfold format_04X, zero_pad in Heq.
  rewrite !parse_digits_zeros, !parse_digits_digits in Heq by done. congruence.
Qed.

(** The code of a character of the Basic Multilingual Plane has
    exactly four digits; a character beyond it has as many as it needs. *)
Lemma format_04X_length n :
  length (format_04X n) = if decide (n < 0x10000)%N then 4 else length (digits 16 n).
Proof.
  unfold format_04X. rewrite zero_pad_length. case_decide as Hn.
  - pose proof (digits_length 16 ltac:(lia) n 4 Hn). lia.
  - enough (4 < length (digits 16 n)) by lia.
    destruct (decide (4 < length (digits 16 n))) as [|Hl]; [done|]. exfalso.
    pose proof (parse_digits_digits 16 ltac:(lia) n) as Hp.
    pose proof (digits_length 16 ltac:(lia) n _ (digits_enough_fuel 16 ltac:(lia) n)).
    apply Hn. clear Hn. revert Hp.
    destruct (digits 16 n) as [|a [|b [|c [|d [|e l]]]]]; simpl in *; try lia;
      unfold parse_digits; simpl; unfold digit_value;
      repeat (case_decide; simpl; try done); intros [= <-]; lia.
Qed.

(** Reading the decimal form of a counter back gives the counter. *)
Lemma str_of_nat_parse n : parse_digits 10 (str_of_nat n) = Some (N.of_nat n).
Proof. by apply parse_digits_digits. Qed.

(** A counter has at least one digit. *)
Lemma str_of_nat_nonempty n : str_of_nat n ≠ [].
Proof.
  intros Hn. apply (f_equal length) in Hn.
  pose proof (digits_length 10 ltac:(lia) (N.of_nat n) _
                (digits_enough_fuel 10 ltac:(lia) (N.of_nat n)) ltac:(lia)).
  unfold str_of_nat in Hn. simpl in Hn. lia.
Qed.

Lemma str_of_nat_inj : Inj (=) (=) str_of_nat.
Proof.
  intros n m Heq. apply (f_equal (parse_digits 10)) in Heq.
  rewrite !str_of_nat_parse in Heq. apply Nat2N.inj. congruence.
Qed.
