(* ===== verification/Summary.v ===== *)
(** * The run summary

    The aggregator [main] threads through the per-file loop of
    [tools/normalize_hyphens.py] (the counter [total_changed] and the
    dictionary [total_hits], lines 103-104 and 111-115) and the report it
    prints at the end (lines 126-138): the rows sorted by descending count
    and ascending code point, their labels and their layout, with the
    reader of a row ([read_row]) as the specification of the layout. *)

From S2P Require Import Prelude Chars Normalize Format.

#[local] Set Warnings "-clear-no-such-hyp".

(** ** The aggregator (lines 103-104) *)

Record summary : Type := Summary {
  total_changed : nat;
  total_hits : gmap codepoint nat;
}.

(** ** Merging the hits of one file (lines 114-115) *)

(** [total_hits[ch] = total_hits.get(ch, 0) + n], for one item [(ch, n)]. *)
Definition add_hits (total_hits : gmap codepoint nat) (item : codepoint * nat)
  : gmap codepoint nat :=
  <[item.1 := dict_get total_hits item.1 0 + item.2]> total_hits.

(** [for ch, n in items: ...], over the items in the order given. *)
Definition merge_items (items : list (codepoint * nat))
  (total_hits : gmap codepoint nat) : gmap codepoint nat :=
  foldl add_hits total_hits items.

(** [for ch, n in counts.items(): ...]. *)
Definition merge_hits (total_hits counts : gmap codepoint nat)
  : gmap codepoint nat :=
  merge_items (map_to_list counts) total_hits.

(** The specification of the merge: pointwise sum. *)
Definition hits_sum (a b : gmap codepoint nat) : gmap codepoint nat :=
  union_with (λ x y, Some (x + y)) a b.

(** ** Sorting the rows (line 131) *)

(** The key [(-kv[1], kv[0])] of an item: the negated count, then the
    character. *)
Definition sort_key (kv : codepoint * nat) : Z * codepoint :=
  (- Z.of_nat kv.2, kv.1)%Z.

(** Python's order on such tuples: lexicographic. *)
Definition tuple_le (a b : Z * codepoint) : Prop :=
  (a.1 < b.1)%Z ∨ (a.1 = b.1 ∧ (a.2 ≤ b.2)%N).

Definition item_le (x y : codepoint * nat) : Prop :=
  tuple_le (sort_key x) (sort_key y).

#[export] Instance tuple_le_dec : RelDecision tuple_le.
Proof. intros a b. unfold tuple_le. apply _. Defined.

#[export] Instance item_le_dec : RelDecision item_le.
Proof. intros x y. unfold item_le. apply _. Defined.

(** [sorted(items, key=lambda kv: (-kv[1], kv[0]))]. *)
Definition sorted_by_key (items : list (codepoint * nat))
  : list (codepoint * nat) :=
  merge_sort item_le items.

(** The rows of the report: [sorted(total_hits.items(), key=...)]. *)
Definition report_rows (total_hits : gmap codepoint nat)
  : list (codepoint * nat) :=
  sorted_by_key (map_to_list total_hits).

(** ** The rows as text (lines 132-136) *)

(** [f"U+{ord(ch):04X}"]. *)
Definition code (ch : codepoint) : pystr := py "U+" ++ format_04X ch.

(** The label of line 135. *)
Definition label (ch : codepoint) : pystr :=
  if decide (ch = SOFT_HYPHEN) then py "SOFT_HYPHEN"
  else if decide (ch ∈ REMOVE) then py "REMOVED"
  else py "DASH/HYPHEN".

(** [f"    {code:<8} {label:<11} count={n}"]. *)
Definition row (kv : codepoint * nat) : pystr :=
  py "    " ++ ljust 8 (code kv.1) ++ py " " ++ ljust 11 (label kv.1)
  ++ py " count=" ++ str_of_nat kv.2.

(** ** Reading a row back (the specification of [row]) *)

(** A row read at its columns: four spaces and [U+], the code in four
    hexadecimal digits from column 6, the label in a column of eleven
    from column 13, [count=] and the count in decimal from column 31 to
    the end.  [None] for a line that is not laid out so. *)
Definition read_row (s : pystr) : option (codepoint * pystr * nat) :=
  if decide (take 6 s = py "    U+" ∧ take 3 (drop 10 s) = py "   "
             ∧ take 7 (drop 24 s) = py " count=" ∧ drop 31 s ≠ []) then
    ch ← parse_digits 16 (take 4 (drop 6 s));
    n ← parse_digits 10 (drop 31 s);
    Some (ch, take 11 (drop 13 s), N.to_nat n)
  else None.

(** Everything the report prints (lines 126-138), one string per call of
    [print]. *)
Definition report_lines (n_files : nat) (st : summary) : list pystr :=
  [ 10%N :: py "Summary:";
    py "  Files scanned:   " ++ str_of_nat n_files;
    py "  Files modified:  " ++ str_of_nat (total_changed st) ]
  ++ (if decide (total_hits st ≠ ∅) then
        py "  Replacements/removals:" :: (row <$> report_rows (total_hits st))
      else [py "  No normalization needed."]).

(** ** The merge is a pointwise sum *)

Lemma add_hits_lookup total_hits item ch :
  add_hits total_hits item !! ch =
    if decide (item.1 = ch) then Some (dict_get total_hits ch 0 + item.2)
    else total_hits !! ch.
Proof. unfold add_hits. rewrite lookup_insert. by case_tests. Qed.

Lemma merge_items_lookup items total_hits ch :
  NoDup items.*1 →
  merge_items items total_hits !! ch =
    match (list_to_map items : gmap codepoint nat) !! ch with
    | Some n => Some (dict_get total_hits ch 0 + n)
    | None => total_hits !! ch
    end.
Proof.
  unfold merge_items. revert total_hits.
  induction items as [|[c n] items IH]; intros total_hits Hnd; [done|].
  apply NoDup_cons in Hnd as [Hc Hnd]. simpl. rewrite IH by done.
  destruct (decide (c = ch)) as [->|Hne].
  - rewrite lookup_insert_eq, not_elem_of_list_to_map_1 by done.
    by rewrite add_hits_lookup, decide_True.
  - rewrite lookup_insert_ne by done. unfold dict_get.
    by rewrite add_hits_lookup, decide_False.
Qed.

Lemma hits_sum_lookup a b ch :
  hits_sum a b !! ch =
    match b !! ch with
    | Some n => Some (dict_get a ch 0 + n)
    | None => a !! ch
    end.
Proof.
  unfold hits_sum, dict_get. rewrite lookup_union_with.
  by destruct (a !! ch), (b !! ch).
Qed.

(** The items of a dictionary may be visited in any order. *)
Lemma merge_items_order items total_hits counts :
  items ≡ₚ map_to_list counts →
  merge_items items total_hits = hits_sum total_hits counts.
Proof.
  intros Hp.
  assert (Hc : counts = list_to_map items) by (by apply list_to_map_flip).
  apply map_eq. intros ch.
  rewrite merge_items_lookup, hits_sum_lookup, <-Hc; [done|].
  rewrite Hp. apply NoDup_fst_map_to_list.
Qed.

Lemma merge_hits_hits_sum total_hits counts :
  merge_hits total_hits counts = hits_sum total_hits counts.
Proof. by apply merge_items_order. Qed.

(** C23. Merging the hits of a file into the run-wide dictionary adds the
    counts pointwise, and so does the loop of lines 114-115 over the items
    in any other order. *)
Theorem merge_hits_sum total_hits counts :
  merge_hits total_hits counts = hits_sum total_hits counts
  ∧ ∀ items, items ≡ₚ map_to_list counts →
      merge_items items total_hits = hits_sum total_hits counts.
Proof.
  split; [apply merge_hits_hits_sum | intros items Hp; by apply merge_items_order].
Qed.

(** [hits_sum] is a commutative monoid: the run-wide dictionary does not
    depend on the order in which the files are processed. *)
Lemma hits_sum_empty_l c : hits_sum ∅ c = c.
Proof.
  apply map_eq. intros ch. rewrite hits_sum_lookup. unfold dict_get.
  rewrite lookup_empty. by destruct (c !! ch).
Qed.

Lemma hits_sum_empty_r c : hits_sum c ∅ = c.
Proof. apply map_eq. intros ch. by rewrite hits_sum_lookup, lookup_empty. Qed.

Lemma hits_sum_comm a b : hits_sum a b = hits_sum b a.
Proof.
  apply map_eq. intros ch. rewrite !hits_sum_lookup. unfold dict_get.
  destruct (a !! ch), (b !! ch); simpl; f_equal; lia.
Qed.

Lemma hits_sum_assoc a b c : hits_sum a (hits_sum b c) = hits_sum (hits_sum a b) c.
Proof.
  apply map_eq. intros ch. rewrite !hits_sum_lookup. unfold dict_get.
  rewrite !hits_sum_lookup. unfold dict_get.
  destruct (a !! ch), (b !! ch), (c !! ch); simpl; f_equal; lia.
Qed.

Lemma hits_sum_dom a b : dom (hits_sum a b) = dom a ∪ dom b.
Proof.
  apply set_eq. intros ch.
  rewrite elem_of_union, !elem_of_dom, hits_sum_lookup.
  destruct (a !! ch), (b !! ch); rewrite !is_Some_alt; tauto.
Qed.

Lemma hits_sum_empty a b : hits_sum a b = ∅ ↔ a = ∅ ∧ b = ∅.
Proof.
  rewrite <-!dom_empty_iff_L, hits_sum_dom. set_solver.
Qed.

Lemma normalize_text_app_hits s1 s2 mode :
  (normalize_text (s1 ++ s2) mode).2
  = hits_sum (normalize_text s1 mode).2 (normalize_text s2 mode).2.
Proof.
  apply map_eq. intros ch.
  rewrite hits_sum_lookup. unfold dict_get. rewrite !normalize_text_snd.
  unfold hit_count. rewrite occurrences_app.
  destruct (decide (ch ∈ SPECIAL)); [|by rewrite !decide_False by tauto].
  destruct (decide (ch ∈ s1)) as [H1|H1], (decide (ch ∈ s2)) as [H2|H2];
    repeat case_decide; rewrite ?elem_of_app in *; try tauto; simpl;
    rewrite ?(proj2 (occurrences_zero ch s1)), ?(proj2 (occurrences_zero ch s2))
      by done; f_equal; lia.
Qed.

(** Hits are additive over concatenation: the dictionary of a text
    [s1 ++ s2] is the merge of the dictionaries of [s1] and [s2], so the
    run-wide dictionary is the dictionary of the concatenated changed
    files. *)
Lemma normalize_text_app_counts s1 s2 mode :
  (normalize_text (s1 ++ s2) mode).2
  = merge_hits (normalize_text s1 mode).2 (normalize_text s2 mode).2.
Proof. by rewrite merge_hits_hits_sum, normalize_text_app_hits. Qed.

Lemma normalize_text_app_output s1 s2 mode :
  (normalize_text (s1 ++ s2) mode).1
  = (normalize_text s1 mode).1 ++ (normalize_text s2 mode).1.
Proof. rewrite !normalize_text_fst. apply normalized_app. Qed.

(** ** The order of the rows *)

#[export] Instance item_le_total : Total item_le.
Proof.
  intros [c1 n1] [c2 n2]. unfold item_le, tuple_le, sort_key. simpl. lia.
Qed.

#[export] Instance item_le_trans : Transitive item_le.
Proof.
  intros [c1 n1] [c2 n2] [c3 n3]. unfold item_le, tuple_le, sort_key. simpl. lia.
Qed.

#[export] Instance item_le_antisymm : AntiSymm (=) item_le.
Proof.
  intros [c1 n1] [c2 n2]. unfold item_le, tuple_le, sort_key. simpl.
  intros ? ?. f_equal; lia.
Qed.

(** What the order says: more hits first, smaller code point first among
    equal counts. *)
Lemma item_le_spec c1 n1 c2 n2 :
  item_le (c1, n1) (c2, n2) ↔ n2 < n1 ∨ (n1 = n2 ∧ (c1 ≤ c2)%N).
Proof. unfold item_le, tuple_le, sort_key. simpl. lia. Qed.

Lemma sorted_by_key_perm items : sorted_by_key items ≡ₚ items.
Proof. apply merge_sort_Permutation. Qed.

Lemma sorted_by_key_sorted items : StronglySorted item_le (sorted_by_key items).
Proof. apply StronglySorted_merge_sort; apply _. Qed.

(** The result of the sort is the only arrangement of the items that
    is in order: whatever sorting algorithm the runtime uses, and in
    whatever order the dictionary yields its items, the rows come out the
    same. *)
Lemma sorted_by_key_unique items l :
  l ≡ₚ items → Sorted item_le l → l = sorted_by_key items.
Proof.
  intros Hp Hs. apply (Sorted_unique item_le); [done | | ].
  - apply StronglySorted_Sorted, sorted_by_key_sorted.
  - by rewrite sorted_by_key_perm.
Qed.

Lemma sorted_by_key_order items items' :
  items ≡ₚ items' → sorted_by_key items = sorted_by_key items'.
Proof.
  intros Hp. apply (Sorted_unique item_le);
    [apply StronglySorted_Sorted, sorted_by_key_sorted.. |].
  by rewrite !sorted_by_key_perm.
Qed.

(** C24. The rows of the report are the entries of the dictionary, each
    once, ordered by descending count and, among equal counts, by
    ascending code point. *)
Theorem report_rows_spec total_hits :
  NoDup (report_rows total_hits)
  ∧ (∀ ch n, (ch, n) ∈ report_rows total_hits ↔ total_hits !! ch = Some n)
  ∧ (∀ i j ch1 n1 ch2 n2, i < j →
       report_rows total_hits !! i = Some (ch1, n1) →
       report_rows total_hits !! j = Some (ch2, n2) →
       n2 < n1 ∨ (n1 = n2 ∧ (ch1 < ch2)%N)).
Proof.
  unfold report_rows. split_and!.
  - rewrite sorted_by_key_perm. apply NoDup_map_to_list.
  - intros ch n. by rewrite sorted_by_key_perm, elem_of_map_to_list.
  - intros i j ch1 n1 ch2 n2 Hij Hi Hj.
    pose proof (sorted_by_key_sorted (map_to_list total_hits)) as Hs.
    pose proof (StronglySorted_lookup _ _ _ _ _ _ Hs Hij Hi Hj) as Hle.
    apply item_le_spec in Hle as [|[-> Hle]]; [by left|].
    destruct (decide (ch1 = ch2)) as [->|]; [|right; split; [done|lia]].
    assert (NoDup (sorted_by_key (map_to_list total_hits))) as Hnd
      by (rewrite sorted_by_key_perm; apply NoDup_map_to_list).
    pose proof (NoDup_lookup _ _ _ _ Hnd Hi Hj). lia.
Qed.

(** ** The labels *)

(** The label of a row names the category of its character, although
    the report tests the tables in another order than the loop does: the
    soft hyphen is ["SOFT_HYPHEN"], a removable character ["REMOVED"] and
    a dash-like character ["DASH/HYPHEN"]. *)
Lemma label_classify ch :
  label ch = match classify ch with
             | SoftHyphen => py "SOFT_HYPHEN"
             | RemovableInvisible => py "REMOVED"
             | DashLike | Passthrough => py "DASH/HYPHEN"
             end.
Proof.
  unfold label. destruct (classify ch) eqn:Hc.
  - apply classify_Passthrough in Hc. rewrite elem_of_SPECIAL in Hc.
    rewrite !decide_False; tauto.
  - apply classify_DashLike in Hc. pose proof TO_ASCII_HYPHEN_REMOVE_disjoint.
    pose proof SOFT_HYPHEN_not_dash. rewrite !decide_False; set_solver.
  - apply classify_RemovableInvisible in Hc. pose proof SOFT_HYPHEN_not_removed.
    rewrite decide_False, decide_True; set_solver.
  - apply classify_SoftHyphen in Hc. by rewrite decide_True.
Qed.

(** ** The layout of a row *)

Example row_soft_hyphen : row (0xad%N, 3) = py "    U+00AD   SOFT_HYPHEN count=3".
Proof. by vm_compute. Qed.

Example row_zero_width_space :
  row (0x200b%N, 12) = py "    U+200B   REMOVED     count=12".
Proof. by vm_compute. Qed.

Lemma label_length ch : length (label ch) ≤ 11.
Proof. unfold label. repeat case_decide; rewrite py_length; simpl; lia. Qed.

(** The row of a character of the Basic Multilingual Plane, column by
    column: the code is six characters wide, so its column of eight ends
    with two spaces. *)
Lemma row_columns ch n :
  (ch < 0x10000)%N →
  row (ch, n) = py "    U+" ++ format_04X ch ++ py "   " ++ ljust 11 (label ch)
                ++ py " count=" ++ str_of_nat n.
Proof.
  intros Hch. pose proof (format_04X_length ch) as Hl.
  rewrite decide_True in Hl by done.
  unfold row, code. cbn [fst snd]. unfold ljust at 1.
  rewrite length_app, Hl. by rewrite <-!app_assoc.
Qed.

(** C40. The rows of the report can be read back: the row of a character
    of the Basic Multilingual Plane (every listed character is one) holds
    at fixed columns the code point in four upper-case hexadecimal
    digits, the label in its column of eleven and, after [count=], the
    count in decimal with at least one digit, so a row tells which
    character was counted and how often. *)
Theorem read_row_row ch n :
  (ch < 0x10000)%N → read_row (row (ch, n)) = Some (ch, ljust 11 (label ch), n).
Proof.
  intros Hch. rewrite row_columns by done.
  pose proof (format_04X_length ch) as Hl. rewrite decide_True in Hl by done.
  pose proof (format_04X_parse ch) as Hp.
  pose proof (ljust_length 11 (label ch)) as Hw. pose proof (label_length ch).
  destruct (format_04X ch) as [|a [|b [|c [|d [|]]]]]; try done.
  set (lab := ljust 11 (label ch)) in *.
  assert (Hlab : length lab = 11) by lia.
  assert (E1 : ∀ t, drop 13 (py "    U+" ++ [a; b; c; d] ++ py "   " ++ t) = t)
    by done.
  assert (E2 : ∀ t, drop 24 (py "    U+" ++ [a; b; c; d] ++ py "   " ++ lab ++ t) = t).
  { intros t. change 24 with (13 + 11). rewrite <-drop_drop, E1.
    by rewrite drop_app_length'. }
  assert (E3 : ∀ t, drop 31 (py "    U+" ++ [a; b; c; d] ++ py "   " ++ lab
                               ++ py " count=" ++ t) = t).
  { intros t. change 31 with (24 + 7). by rewrite <-drop_drop, E2. }
  unfold read_row. rewrite E1, E2, E3, (take_app_length' lab) by done.
  rewrite decide_True by (split_and!; try done; apply str_of_nat_nonempty).
  change (take 4 (drop 6 _)) with [a; b; c; d]. rewrite Hp. simpl.
  rewrite str_of_nat_parse. simpl. by rewrite Nat2N.id.
Qed.

(** ** The theorems at concrete inputs *)

Lemma merge_hits_sum_witness :
  let counts : gmap codepoint nat := {[ 0xad%N := 1; 0x2013%N := 3 ]} in
  let items := [(0x2013%N, 3); (0xad%N, 1)] in
  items ≡ₚ map_to_list counts
  ∧ merge_items items {[ 0xad%N := 2 ]} = hits_sum {[ 0xad%N := 2 ]} counts.
Proof.
  intros counts items.
  assert (Hp : items ≡ₚ map_to_list counts)
    by (by apply (bool_decide_unpack _); vm_compute).
  split; [exact Hp | exact (proj2 (merge_hits_sum _ counts) items Hp)].
Defined.

Lemma read_row_row_witness :
  (0x2014 < 0x10000)%N
  ∧ read_row (row (0x2014%N, 12)) = Some (0x2014%N, ljust 11 (label 0x2014), 12).
Proof.
  assert (H1 : (0x2014 < 0x10000)%N) by lia.
  split; [exact H1 | exact (read_row_row 0x2014 12 H1)].
Defined.

Lemma sorted_by_key_unique_witness :
  let items := [(0x2013%N, 1); (0xad%N, 3); (0x2010%N, 1)] in
  let l := [(0xad%N, 3); (0x2010%N, 1); (0x2013%N, 1)] in
  l ≡ₚ items ∧ Sorted item_le l ∧ l = sorted_by_key items.
Proof.
  intros items l.
  assert (Hp : l ≡ₚ items) by (by apply (bool_decide_unpack _); vm_compute).
  assert (Hs : Sorted item_le l)
    by (repeat constructor; by apply (bool_decide_unpack _); vm_compute).
  split_and!; [exact Hp | exact Hs | exact (sorted_by_key_unique items l Hp Hs)].
Defined.
