(* ===== verification/FileSys.v ===== *)
(** * The file system and the standard output

    The part of the world [main] of [tools/normalize_hyphens.py] acts on,
    as the calls of the source see it: [Path.rglob] and [Path.is_file]
    (lines 81-82), [Path.read_text] (line 107), [Path.with_suffix] and
    [Path.suffix] (line 119), [Path.write_text] (line 120), [os.replace]
    (line 121) and [print].  A world is a finite map from paths to nodes
    (a regular file with its bytes, or a directory), the lines printed so
    far and a budget of bytes that may still be written, which makes a
    write fail half-way when it runs out.  A call either returns a value or
    raises; both leave a world behind ([io]).

    Text is read and written through a [Codec]; its laws ([CodecLaws]) are
    all the clients rely on. *)

From S2P Require Import Prelude.

#[local] Set Warnings "-clear-no-such-hyp".

(** ** Codecs *)

Abbreviation bytes := (list N) (only parsing).

(** The two directions of a text encoding with [errors="strict"]: [None]
    is the exception ([UnicodeEncodeError], [UnicodeDecodeError]). *)
Class Codec : Type := {
  encode : pystr → option bytes;
  decode : bytes → option pystr;
}.

(** What a client may assume of a codec: the two directions are inverse
    to each other, and exactly the texts of Unicode scalar values can be
    encoded. *)
Class CodecLaws (C : Codec) : Prop := {
  decode_encode s b : encode s = Some b → decode b = Some s;
  encode_decode b s : decode b = Some s → encode s = Some b;
  encode_is_Some s : is_Some (encode s) ↔ Forall is_scalar s;
}.

(** ** Paths (pathlib) *)

(** An absolute, resolved path: its components below the root. *)
Abbreviation path := (list (list N)) (only parsing).

(** [p.name]: the final component, empty for the root. *)
Definition name (p : path) : pystr := default [] (last p).

(** [p.parent]. *)
Definition parent (p : path) : path := take (length p - 1) p.

(** [str(p)] on POSIX. *)
Definition path_str (p : path) : pystr := py "/" ++ str_join (py "/") p.

(** [name.rfind(".")]: the index of the last full stop. *)
Fixpoint rfind_dot (s : pystr) : option nat :=
  match s with
  | [] => None
  | c :: s' =>
      match rfind_dot s' with
      | Some i => Some (S i)
      | None => if decide (c = 46%N) then Some 0 else None
      end
  end.

(** [p.suffix]: the part of the name from its last full stop on, unless
    the full stop is the first or the last character. *)
Definition suffix (p : path) : pystr :=
  match rfind_dot (name p) with
  | Some i => if decide (0 < i ∧ i < length (name p) - 1) then drop i (name p) else []
  | None => []
  end.

(** [p.with_suffix(suffix)]; [None] is [ValueError]. *)
Definition with_suffix (p : path) (suffix' : pystr) : option path :=
  if decide (47%N ∈ suffix') then None
  else if decide ((suffix' ≠ [] ∧ head suffix' ≠ Some 46%N) ∨ suffix' = [46%N]) then None
  else if decide (name p = []) then None
  else
    let old_suffix := suffix p in
    let name' :=
      if decide (old_suffix = []) then name p ++ suffix'
      else take (length (name p) - length old_suffix) (name p) ++ suffix' in
    Some (parent p ++ [name']).

(** ** Worlds *)

Inductive node : Type :=
  | File (data : bytes)
  | Dir.

#[export] Instance node_eq_dec : EqDecision node.
Proof. solve_decision. Defined.

Record world : Type := World {
  fs : gmap (list (list N)) node;
  stdout : list pystr;
  budget : option nat;
}.

(** The exceptions of the model; [Unmodelled] marks a call the model does
    not cover. *)
Inductive exn : Set :=
  | FileNotFoundError
  | IsADirectoryError
  | UnicodeDecodeError
  | UnicodeEncodeError
  | OSError
  | ValueError
  | Unmodelled.

#[export] Instance exn_eq_dec : EqDecision exn.
Proof. solve_decision. Defined.

Inductive result (A : Type) : Type :=
  | Ok (a : A)
  | Raise (e : exn).
Arguments Ok {A} a.
Arguments Raise {A} e.

(** A call: from a world to a result and the world it leaves. *)
Definition io (A : Type) : Type := world → result A * world.

#[export] Instance io_ret : MRet io := λ A a w, (Ok a, w).
#[export] Instance io_bind : MBind io := λ A B f m w,
  match m w with
  | (Ok a, w') => f a w'
  | (Raise e, w') => (Raise e, w')
  end.

Definition raise {A} (e : exn) : io A := λ w, (Raise e, w).

(** The loop [for x in l: body], with early exit on an exception. *)
Fixpoint for_each {A S} (l : list A) (body : A → S → io S) (s : S) : io S :=
  match l with
  | [] => mret s
  | x :: l' => s' ← body x s; for_each l' body s'
  end.

(** ** The calls *)

Definition set_fs (f : gmap (list (list N)) node → gmap (list (list N)) node)
  (w : world) : world :=
  {| fs := f (fs w); stdout := stdout w; budget := budget w |}.

(** [print(line)]. *)
Definition print (line : pystr) : io () := λ w,
  (Ok (), {| fs := fs w; stdout := stdout w ++ [line]; budget := budget w |}).

(** [p.is_file()]. *)
Definition is_file (p : path) : io bool := λ w,
  (Ok (match fs w !! p with Some (File _) => true | _ => false end), w).

(** [fnmatch.fnmatchcase(name, pat)] for a pattern without a bracket:
    [*] matches any run of characters, [?] any one character, every
    other character itself. *)
Fixpoint tails (s : pystr) : list pystr :=
  s :: match s with [] => [] | _ :: s' => tails s' end.

Fixpoint fnmatch (pat name : pystr) : bool :=
  match pat with
  | [] => bool_decide (name = [])
  | c :: pat' =>
      if decide (c = 42%N) then existsb (fnmatch pat') (tails name)
      else match name with
           | [] => false
           | d :: name' =>
               (bool_decide (c = 63%N) || bool_decide (c = d)) && fnmatch pat' name'
           end
  end.

(** The pattern holds two stars in a row. *)
Fixpoint double_star (s : pystr) : bool :=
  match s with
  | c :: s' =>
      (bool_decide (c = 42%N)
       && match s' with d :: _ => bool_decide (d = 42%N) | [] => false end)
      || double_star s'
  | [] => false
  end.

(** A pattern of one component the model covers: no bracket, no
    separator, no null character, and not one of [""], ["."], [".."] and
    ["**"], which [pathlib] treats on their own. *)
Definition glob_pattern (pattern : pystr) : Prop :=
  Forall (λ c, c ∉ [91%N; 47%N; 0%N]) pattern
  ∧ pattern ∉ [[]; py "."; py ".."; py "**"].

#[export] Instance glob_pattern_dec pattern : Decision (glob_pattern pattern).
Proof. unfold glob_pattern. apply _. Defined.

(** An extension for which [f"*{ext}"] is such a pattern and is accepted
    by [rglob]. *)
Definition glob_ext (ext : pystr) : Prop :=
  glob_pattern (py "*" ++ ext) ∧ double_star (py "*" ++ ext) = false.

#[export] Instance glob_ext_dec ext : Decision (glob_ext ext).
Proof. unfold glob_ext. apply _. Defined.

(** An extension that is matched as a suffix: it holds no glob
    metacharacter and no separator. *)
Definition plain_ext (ext : pystr) : Prop :=
  Forall (λ c, c ∉ [42%N; 63%N; 91%N; 47%N; 0%N]) ext.

#[export] Instance plain_ext_dec ext : Decision (plain_ext ext).
Proof. unfold plain_ext. apply _. Defined.

(** The paths [root.rglob(pattern)] yields for a pattern of one
    component: every path strictly below [root] whose name matches,
    files and directories alike, in the order the map enumerates them;
    nothing when [root] is no directory.  Two stars inside a component
    are refused with [ValueError]. *)
Definition rglob (root : path) (pattern : pystr) : io (list path) := λ w,
  if decide (glob_pattern pattern) then
    if double_star pattern then (Raise ValueError, w)
    else (Ok (match fs w !! root with
              | Some Dir =>
                  filter (λ p, root `prefix_of` p ∧ p ≠ root
                               ∧ fnmatch pattern (name p))
                         (map_to_list (fs w)).*1
              | _ => []
              end), w)
  else (Raise Unmodelled, w).

(** Universal newlines, as text mode applies them on reading: ["\r\n"]
    and a lone ["\r"] become ["\n"]. *)
Fixpoint universal_newlines (s : pystr) : pystr :=
  match s with
  | [] => []
  | c :: s' =>
      if decide (c = 13%N) then
        10%N :: match s' with
                | c' :: s'' =>
                    if decide (c' = 10%N) then universal_newlines s''
                    else universal_newlines s'
                | [] => []
                end
      else c :: universal_newlines s'
  end.

Section calls.
Context `{C : Codec}.

(** [p.read_text(encoding=..., errors="strict")]. *)
Definition read_text (p : path) : io pystr := λ w,
  match fs w !! p with
  | Some (File data) =>
      match decode data with
      | Some s => (Ok (universal_newlines s), w)
      | None => (Raise UnicodeDecodeError, w)
      end
  | Some Dir => (Raise IsADirectoryError, w)
  | None => (Raise FileNotFoundError, w)
  end.

(** [p.write_text(s, encoding=..., errors="strict")] on POSIX: the file
    is created or truncated, then the encoded text is written; when the
    budget runs out, only a prefix is. *)
Definition write_text (p : path) (s : pystr) : io () := λ w,
  match fs w !! p with
  | Some Dir => (Raise IsADirectoryError, w)
  | _ =>
      match encode s with
      | None => (Raise UnicodeEncodeError, set_fs <[p := File []]> w)
      | Some data =>
          match budget w with
          | Some b =>
              if decide (length data ≤ b) then
                (Ok (), {| fs := <[p := File data]> (fs w); stdout := stdout w;
                           budget := Some (b - length data) |})
              else
                (Raise OSError, {| fs := <[p := File (take b data)]> (fs w);
                                   stdout := stdout w; budget := Some 0 |})
          | None => (Ok (), set_fs <[p := File data]> w)
          end
      end
  end.

End calls.

(** [os.replace(src, dst)] for a regular file [src]: [dst] is replaced
    in one step.  Moving a directory is not modelled. *)
Definition replace (src dst : path) : io () := λ w,
  match fs w !! src with
  | None => (Raise FileNotFoundError, w)
  | Some Dir => (Raise Unmodelled, w)
  | Some (File data) =>
      match fs w !! dst with
      | Some Dir => (Raise IsADirectoryError, w)
      | _ => (Ok (), set_fs (λ m, <[dst := File data]> (delete src m)) w)
      end
  end.

(** ** Paths *)

(** The temporary sibling of a file: the same directory, the name with
    [".tmp"] appended. *)
Definition tmp_path (p : path) : path := parent p ++ [name p ++ py ".tmp"].

Lemma rfind_dot_Some s i :
  rfind_dot s = Some i → i < length s ∧ s !! i = Some 46%N.
Proof.
  revert i. induction s as [|c s IH]; intros i; simpl; [done|].
  destruct (rfind_dot s) as [j|].
  - intros [= <-]. destruct (IH j eq_refl). simpl. split; [lia | done].
  - case_decide; [|done]. intros [= <-]. simpl. split; [lia | by subst].
Qed.

(** The suffix is a final segment of the name. *)
Lemma suffix_name p :
  take (length (name p) - length (suffix p)) (name p) ++ suffix p = name p.
Proof.
  unfold suffix. destruct (rfind_dot (name p)) as [i|] eqn:Hi;
    [case_decide|]; rewrite ?Nat.sub_0_r, ?firstn_all, ?app_nil_r; try done.
  apply rfind_dot_Some in Hi as [Hi _].
  rewrite length_drop. replace (length (name p) - (length (name p) - i)) with i by lia.
  apply take_drop.
Qed.

Lemma suffix_head p : suffix p ≠ [] → head (suffix p) = Some 46%N.
Proof.
  unfold suffix. destruct (rfind_dot (name p)) as [i|] eqn:Hi; [|done].
  case_decide; [|done]. intros _. apply rfind_dot_Some in Hi as [_ Hi].
  by rewrite head_lookup, lookup_drop, Nat.add_0_r.
Qed.

Lemma suffix_subseteq p c : c ∈ suffix p → c ∈ name p.
Proof. intros Hc. rewrite <-(suffix_name p). set_solver. Qed.

Lemma with_suffix_tmp_ok p :
  name p ≠ [] → 47%N ∉ suffix p →
  with_suffix p (suffix p ++ py ".tmp") = Some (tmp_path p).
Proof.
  intros Hn Hsep. unfold with_suffix, tmp_path.
  rewrite decide_False; [|rewrite elem_of_app; intros [?|Hin];
    [done | by vm_compute in Hin; set_solver]].
  rewrite decide_False; [|intros [[_ Hh]|Heq]].
  - rewrite decide_False by done. do 2 f_equal. case_decide as Hs.
    + by rewrite Hs.
    + by rewrite app_assoc, suffix_name.
  - apply Hh. destruct (suffix p) eqn:Hs; [done|].
    rewrite <-Hs. simpl. rewrite <-(suffix_head p) by congruence. by rewrite Hs.
  - apply (f_equal length) in Heq. rewrite length_app in Heq. simpl in Heq. lia.
Qed.

Lemma name_snoc p n : name (p ++ [n]) = n.
Proof. unfold name. by rewrite last_snoc. Qed.

Lemma parent_snoc p n : parent (p ++ [n]) = p.
Proof.
  unfold parent. rewrite length_app. simpl.
  replace (length p + 1 - 1) with (length p) by lia. apply take_app_length.
Qed.

Lemma name_tmp_path p : name (tmp_path p) = name p ++ py ".tmp".
Proof. apply name_snoc. Qed.

Lemma parent_tmp_path p : parent (tmp_path p) = parent p.
Proof. apply parent_snoc. Qed.

Lemma parent_name p : p ≠ [] → parent p ++ [name p] = p.
Proof.
  intros Hp. destruct (decide (p = [])) as [|_]; [done|].
  induction p as [|c p IH] using rev_ind; [done|].
  by rewrite parent_snoc, name_snoc.
Qed.

Lemma tmp_path_ne p : tmp_path p ≠ p.
Proof.
  intros Heq. apply (f_equal name) in Heq. rewrite name_tmp_path in Heq.
  apply (f_equal length) in Heq. rewrite length_app in Heq. simpl in Heq. lia.
Qed.

Lemma tmp_path_inj p q : p ≠ [] → q ≠ [] → tmp_path p = tmp_path q → p = q.
Proof.
  intros Hp Hq Heq. rewrite <-(parent_name p), <-(parent_name q) by done.
  pose proof (f_equal parent Heq) as Hpar. rewrite !parent_tmp_path in Hpar.
  pose proof (f_equal name Heq) as Hname. rewrite !name_tmp_path in Hname.
  apply app_inv_tail in Hname. congruence.
Qed.

(** ** Calls in sequence *)

Lemma io_bind_unfold {A B} (m : io A) (f : A → io B) w :
  (m ≫= f) w =
    match m w with
    | (Ok a, w') => f a w'
    | (Raise e, w') => (Raise e, w')
    end.
Proof. done. Qed.

Lemma io_bind_Ok {A B} (m : io A) (f : A → io B) w a w' :
  m w = (Ok a, w') → (m ≫= f) w = f a w'.
Proof. intros Hm. by rewrite io_bind_unfold, Hm. Qed.

Lemma io_bind_Raise {A B} (m : io A) (f : A → io B) w e w' :
  m w = (Raise e, w') → (m ≫= f) w = (Raise e, w').
Proof. intros Hm. by rewrite io_bind_unfold, Hm. Qed.

Lemma io_bind_Ok_inv {A B} (m : io A) (f : A → io B) w b w' :
  (m ≫= f) w = (Ok b, w') → ∃ a w1, m w = (Ok a, w1) ∧ f a w1 = (Ok b, w').
Proof.
  rewrite io_bind_unfold. destruct (m w) as [[a|e] w1]; [|done]. by exists a, w1.
Qed.

Lemma for_each_nil {A S} (body : A → S → io S) s w :
  for_each [] body s w = (Ok s, w).
Proof. done. Qed.

Lemma for_each_cons {A S} x (l : list A) (body : A → S → io S) s :
  for_each (x :: l) body s = body x s ≫= for_each l body.
Proof. done. Qed.

Lemma for_each_Raise {A S} (l1 l2 : list A) x (body : A → S → io S)
    s w s1 w1 e w2 :
  for_each l1 body s w = (Ok s1, w1) → body x s1 w1 = (Raise e, w2) →
  for_each (l1 ++ x :: l2) body s w = (Raise e, w2).
Proof.
  revert s w. induction l1 as [|y l1 IH]; intros s w; simpl.
  - intros [= <- <-] Hx. by rewrite io_bind_unfold, Hx.
  - rewrite !io_bind_unfold. destruct (body y s w) as [[s'|e'] w']; [apply IH | done].
Qed.

Lemma for_each_Raise_inv {A S} (l : list A) (body : A → S → io S) s w e w' :
  for_each l body s w = (Raise e, w') →
  ∃ x s1 w1, x ∈ l ∧ body x s1 w1 = (Raise e, w').
Proof.
  revert s w. induction l as [|x l IH]; intros s w; [done|].
  rewrite for_each_cons, io_bind_unfold.
  destruct (body x s w) as [[s1|e1] w1] eqn:Hx.
  - intros (y & s2 & w2 & Hy & Hb)%IH. exists y, s2, w2. split; [set_solver | done].
  - intros [= <- <-]. exists x, s, w. split; [set_solver | done].
Qed.

Lemma for_each_app {A S} (l1 l2 : list A) (body : A → S → io S) s w :
  for_each (l1 ++ l2) body s w = (for_each l1 body s ≫= for_each l2 body) w.
Proof.
  revert s w. induction l1 as [|x l1 IH]; intros s w; simpl; [done|].
  rewrite !io_bind_unfold. destruct (body x s w) as [[s'|e] w']; [apply IH | done].
Qed.

(** ** Relations between the world before and after a call *)

Section respects.
Context (R : relation world) `{!PreOrder R}.

(** Whatever the call returns or raises, the world it leaves is related
    to the world it started in. *)
Definition respects {A} (m : io A) : Prop := ∀ w, R w (m w).2.

Lemma respects_ret {A} (a : A) : respects (mret a).
Proof. intros w. simpl. reflexivity. Qed.

Lemma respects_raise {A} e : respects (raise (A := A) e).
Proof. intros w. simpl. reflexivity. Qed.

Lemma respects_bind {A B} (m : io A) (f : A → io B) :
  respects m → (∀ a, respects (f a)) → respects (m ≫= f).
Proof.
  intros Hm Hf w. rewrite io_bind_unfold. specialize (Hm w).
  destruct (m w) as [[a|e] w']; simpl in *; [|done].
  etrans; [exact Hm | apply Hf].
Qed.

Lemma respects_for_each {A S} (l : list A) (body : A → S → io S) s :
  (∀ x s, x ∈ l → respects (body x s)) → respects (for_each l body s).
Proof.
  revert s. induction l as [|x l IH]; intros s Hb; [apply respects_ret|].
  rewrite for_each_cons. apply respects_bind; [apply Hb; set_solver|].
  intros s'. apply IH. intros y s'' Hy. apply Hb. set_solver.
Qed.

(** A call that leaves the world as it is respects every preorder. *)
Lemma respects_pure {A} (m : io A) : (∀ w, (m w).2 = w) → respects m.
Proof. intros Hm w. rewrite Hm. reflexivity. Qed.

End respects.

(** The files and the budget are the same. *)
Definition same_files (w w' : world) : Prop :=
  fs w' = fs w ∧ budget w' = budget w.

(** What was printed is still there. *)
Definition stdout_grows (w w' : world) : Prop := stdout w `prefix_of` stdout w'.

(** The paths of [P] hold what they held. *)
Definition frame (P : list (list N) → Prop) (w w' : world) : Prop :=
  ∀ p, P p → fs w' !! p = fs w !! p.

#[export] Instance same_files_preorder : PreOrder same_files.
Proof.
  split; [by intros w|]. intros w1 w2 w3 [? ?] [? ?]. split; congruence.
Qed.

#[export] Instance stdout_grows_preorder : PreOrder stdout_grows.
Proof. unfold stdout_grows. split; [by intros w | intros w1 w2 w3; apply transitivity]. Qed.

#[export] Instance frame_preorder P : PreOrder (frame P).
Proof.
  split; [by intros w p|]. intros w1 w2 w3 H12 H23 p Hp.
  by rewrite H23, H12.
Qed.

Lemma same_files_frame P w w' : same_files w w' → frame P w w'.
Proof. intros [Hfs _] p _. by rewrite Hfs. Qed.

(** ** What each call does to the world *)

(** The world after some lines have been printed. *)
Definition printed (lines : list pystr) (w : world) : world :=
  {| fs := fs w; stdout := stdout w ++ lines; budget := budget w |}.

Lemma print_eq line w : print line w = (Ok (), printed [line] w).
Proof. done. Qed.

Lemma print_bind {A} line (k : () → io A) w :
  (print line ≫= k) w = k () (printed [line] w).
Proof. done. Qed.

Lemma printed_nil w : printed [] w = w.
Proof. unfold printed. rewrite app_nil_r. by destruct w. Qed.

Lemma printed_printed l1 l2 w : printed l2 (printed l1 w) = printed (l1 ++ l2) w.
Proof. unfold printed. simpl. by rewrite <-app_assoc. Qed.

Lemma printed_files lines w : same_files w (printed lines w).
Proof. done. Qed.

Lemma printed_stdout lines w : stdout_grows w (printed lines w).
Proof. by apply prefix_app_r. Qed.

Lemma print_pure_files line : respects same_files (print line).
Proof. by intros w. Qed.

Lemma print_stdout_grows line : respects stdout_grows (print line).
Proof. intros w. apply printed_stdout. Qed.

Lemma is_file_pure p w : (is_file p w).2 = w.
Proof. done. Qed.

(** ** Patterns *)

Lemma elem_of_tails s t : t ∈ tails s ↔ t `suffix_of` s.
Proof.
  induction s as [|c s IH]; simpl.
  - rewrite list_elem_of_singleton. split; [by intros ->|]. by intros ->%suffix_nil_inv.
  - split.
    + intros [->|Ht]%elem_of_cons; [done|]. by apply suffix_cons_r, IH.
    + intros [[|d k] E]; simplify_eq/=; [by left|]. right. apply IH. by exists k.
Qed.

(** A pattern without [*] and [?] matches itself only. *)
Lemma fnmatch_literal pat n :
  Forall (λ c, c ≠ 42%N ∧ c ≠ 63%N) pat → fnmatch pat n = bool_decide (n = pat).
Proof.
  intros Hpat. revert n. induction Hpat as [|c pat [Hc1 Hc2] _ IH]; intros n;
    [by apply bool_decide_ext|].
  simpl. rewrite decide_False by done. destruct n as [|d n]; [done|].
  rewrite IH, (bool_decide_eq_false_2 (c = 63%N)) by done. simpl.
  apply eq_true_iff_eq. rewrite andb_true_iff, !bool_decide_eq_true. naive_solver.
Qed.

Lemma plain_ext_literal ext :
  plain_ext ext → Forall (λ c, c ≠ 42%N ∧ c ≠ 63%N) ext.
Proof. intros Hext. eapply Forall_impl; [done|]. intros c Hc. set_solver. Qed.

(** For an extension without metacharacters, [f"*{ext}"] matches the
    names that end with the extension. *)
Lemma fnmatch_plain ext n :
  plain_ext ext → fnmatch (py "*" ++ ext) n = bool_decide (ext `suffix_of` n).
Proof.
  intros Hext%plain_ext_literal. change (py "*" ++ ext) with (42%N :: ext). simpl.
  apply eq_true_iff_eq. rewrite existsb_exists, bool_decide_eq_true.
  setoid_rewrite <-list_elem_of_In. setoid_rewrite elem_of_tails.
  setoid_rewrite (fnmatch_literal ext _ Hext). setoid_rewrite bool_decide_eq_true.
  naive_solver.
Qed.

Lemma double_star_plain ext : plain_ext ext → double_star (py "*" ++ ext) = false.
Proof.
  intros Hext. change (py "*" ++ ext) with (42%N :: ext).
  assert (double_star ext = false) as Hds.
  { induction Hext as [|c ext Hc _ IH]; [done|]. simpl.
    rewrite IH, (bool_decide_eq_false_2 (c = 42%N)) by set_solver. done. }
  simpl. rewrite Hds. destruct Hext as [|c ext Hc _]; [done|].
  by rewrite (bool_decide_eq_false_2 (c = 42%N)) by set_solver.
Qed.

Lemma plain_ext_glob_ext ext : plain_ext ext → glob_ext ext.
Proof.
  intros Hext. split; [|by apply double_star_plain]. split.
  - change (py "*" ++ ext) with (42%N :: ext). constructor; [set_solver|].
    eapply Forall_impl; [done|]. intros c Hc. set_solver.
  - change (py "*" ++ ext) with (42%N :: ext).
    rewrite !elem_of_cons, elem_of_nil. intros [?|[?|[?|[Heq|[]]]]]; try done.
    injection Heq as ->. apply Forall_cons in Hext as [Hc _]. set_solver.
Qed.

Lemma rglob_pure root pattern w : (rglob root pattern w).2 = w.
Proof. unfold rglob. case_decide; [|done]. by destruct (double_star pattern). Qed.

Lemma replace_frame src dst :
  respects (frame (λ p, p ≠ src ∧ p ≠ dst)) (replace src dst).
Proof.
  intros w p [Hs Hd]. unfold replace.
  destruct (fs w !! src) as [[data|]|]; [|done..].
  destruct (fs w !! dst) as [[|]|]; simpl; try done;
    by rewrite lookup_insert_ne, lookup_delete_ne.
Qed.

Lemma replace_stdout src dst w : stdout (replace src dst w).2 = stdout w.
Proof.
  unfold replace. destruct (fs w !! src) as [[data|]|]; [|done..].
  by destruct (fs w !! dst) as [[|]|].
Qed.

Section calls_facts.
Context `{C : Codec}.

Lemma read_text_pure p w : (read_text p w).2 = w.
Proof.
  unfold read_text. destruct (fs w !! p) as [[data|]|]; [|done..].
  by destruct (decode data).
Qed.

Lemma write_text_frame p s : respects (frame (λ q, q ≠ p)) (write_text p s).
Proof.
  intros w q Hq. unfold write_text.
  destruct (fs w !! p) as [[|]|], (encode s), (budget w); simpl; try done;
    try case_decide; simpl; by rewrite ?lookup_insert_ne.
Qed.

Lemma write_text_stdout p s w : stdout (write_text p s w).2 = stdout w.
Proof.
  unfold write_text.
  destruct (fs w !! p) as [[|]|], (encode s), (budget w); simpl; try done;
    by case_decide.
Qed.

End calls_facts.

(** ** Temporary names *)

(** A path whose name ends in [".tmp"]. *)
Definition is_tmp (p : list (list N)) : Prop := py ".tmp" `suffix_of` name p.

#[export] Instance is_tmp_dec p : Decision (is_tmp p).
Proof. unfold is_tmp. apply _. Defined.

Lemma is_tmp_tmp_path p : is_tmp (tmp_path p).
Proof. unfold is_tmp. rewrite name_tmp_path. by apply suffix_app_r. Qed.

Lemma not_is_tmp_ne p q : ¬ is_tmp p → p ≠ tmp_path q.
Proof. intros Hp ->. apply Hp, is_tmp_tmp_path. Qed.

(** Whenever [with_suffix] accepts the temporary suffix, its result is
    [tmp_path]. *)
Lemma with_suffix_tmp_Some p t :
  with_suffix p (suffix p ++ py ".tmp") = Some t → t = tmp_path p.
Proof.
  unfold with_suffix, tmp_path. repeat case_decide; try done; intros [= <-];
    do 2 f_equal; [by replace (suffix p) with (@nil N) |].
  by rewrite app_assoc, suffix_name.
Qed.

(** The temporary file of the write-back ([f.with_suffix(f.suffix +
    ".tmp")]) is the sibling whose name is the file's name followed by
    [".tmp"], for every file name, with or without a suffix; the call
    raises [ValueError] exactly for the root, which has no name. *)
Lemma with_suffix_tmp p :
  47%N ∉ name p →
  with_suffix p (suffix p ++ py ".tmp")
  = if decide (name p = []) then None else Some (tmp_path p).
Proof.
  intros Hsep. case_decide as Hn.
  - unfold with_suffix. rewrite Hn. by repeat case_decide.
  - apply with_suffix_tmp_ok; [done|]. by intros ?%suffix_subseteq.
Qed.

(** ** Universal newlines *)

Lemma universal_newlines_no_cr s : 13%N ∉ universal_newlines s.
Proof.
  induction s as [|x|x y l IH1 IH2] using list_ind_2; simpl in *.
  - set_solver.
  - case_decide; set_solver.
  - repeat case_decide; set_solver.
Qed.

Lemma universal_newlines_id s : 13%N ∉ s → universal_newlines s = s.
Proof.
  induction s as [|c s IH]; simpl; [done|]. intros Hc.
  rewrite decide_False by set_solver. f_equal. apply IH. set_solver.
Qed.

Lemma universal_newlines_idemp s :
  universal_newlines (universal_newlines s) = universal_newlines s.
Proof. apply universal_newlines_id, universal_newlines_no_cr. Qed.

(** ** Weakening *)

Lemma respects_weaken {A} (R R' : relation world) (m : io A) :
  (∀ w w', R w w' → R' w w') → respects R m → respects R' m.
Proof. intros HR Hm w. apply HR, Hm. Qed.

Lemma frame_weaken (P Q : list (list N) → Prop) w w' :
  (∀ p, Q p → P p) → frame P w w' → frame Q w w'.
Proof. intros HPQ Hf p Hp. apply Hf, HPQ, Hp. Qed.

Lemma respects_frame_weaken {A} (P Q : list (list N) → Prop) (m : io A) :
  (∀ p, Q p → P p) → respects (frame P) m → respects (frame Q) m.
Proof. intros HPQ. apply respects_weaken. intros w w'. by apply frame_weaken. Qed.

(** ** Outcomes of the writing calls *)

Lemma replace_Ok src dst b w :
  fs w !! src = Some (File b) → fs w !! dst ≠ Some Dir →
  replace src dst w = (Ok (), set_fs (λ m, <[dst := File b]> (delete src m)) w).
Proof. unfold replace. intros -> Hd. by destruct (fs w !! dst) as [[|]|]. Qed.

Lemma replace_Raise src dst e w w' :
  replace src dst w = (Raise e, w') → w' = w.
Proof.
  unfold replace. destruct (fs w !! src) as [[b|]|]; [|congruence..].
  destruct (fs w !! dst) as [[|]|]; congruence.
Qed.

Lemma replace_Ok_inv src dst w w' :
  replace src dst w = (Ok (), w') →
  ∃ b, fs w !! src = Some (File b)
       ∧ w' = set_fs (λ m, <[dst := File b]> (delete src m)) w.
Proof.
  unfold replace. destruct (fs w !! src) as [[b|]|]; [|done..].
  destruct (fs w !! dst) as [[|]|]; [|done|]; intros [= <-]; by exists b.
Qed.

Lemma replace_dst_Dir src dst w :
  fs w !! dst = Some Dir → (replace src dst w).2 = w.
Proof. unfold replace. intros ->. by destruct (fs w !! src) as [[b|]|]. Qed.

Section outcomes.
Context `{C : Codec}.

Lemma write_text_Ok p s w w' :
  write_text p s w = (Ok (), w') →
  ∃ b, encode s = Some b ∧ fs w' = <[p := File b]> (fs w) ∧ stdout w' = stdout w.
Proof.
  unfold write_text.
  destruct (fs w !! p) as [[|]|], (encode s) as [b|], (budget w); try done;
    try case_decide; intros [= <-]; by exists b.
Qed.

Lemma write_text_unlimited p s b w :
  fs w !! p ≠ Some Dir → encode s = Some b → budget w = None →
  write_text p s w = (Ok (), set_fs <[p := File b]> w).
Proof. unfold write_text. intros Hp -> ->. by destruct (fs w !! p) as [[|]|]. Qed.

Lemma read_text_Ok p s w w' :
  read_text p w = (Ok s, w') →
  w' = w ∧ ∃ data t, fs w !! p = Some (File data) ∧ decode data = Some t
              ∧ s = universal_newlines t.
Proof.
  unfold read_text. destruct (fs w !! p) as [[data|]|]; [|done..].
  destruct (decode data) as [t|] eqn:Ht; [|done]. intros [= <- <-].
  split; [done|]. by exists data, t.
Qed.

Lemma read_text_File p data t w :
  fs w !! p = Some (File data) → decode data = Some t →
  read_text p w = (Ok (universal_newlines t), w).
Proof. unfold read_text. by intros -> ->. Qed.

Lemma read_text_undecodable p data w :
  fs w !! p = Some (File data) → decode data = None →
  read_text p w = (Raise UnicodeDecodeError, w).
Proof. unfold read_text. by intros -> ->. Qed.

End outcomes.

(** ** Automation for [respects] *)

(** Decomposes a goal [respects R m] along the binds, loops and tests of
    [m]; the calls that remain are left to the hints of [respects]. *)
Create HintDb respects discriminated.

Ltac solve_respects :=
  repeat first
    [ solve [eauto with respects typeclass_instances]
    | apply respects_ret; apply _
    | apply respects_raise; apply _
    | apply respects_bind; [apply _ | | intros ?]
    | apply respects_for_each; [apply _ | intros ? ? _]
    | case_decide ].

Lemma for_each_inv {A S} (I : S → Prop) (l : list A) (body : A → S → io S)
    s w s' w' :
  (∀ x s w s' w', x ∈ l → I s → body x s w = (Ok s', w') → I s') →
  I s → for_each l body s w = (Ok s', w') → I s'.
Proof.
  revert s w. induction l as [|x l IH]; intros s w Hb Hs.
  { rewrite for_each_nil. by intros [= <- <-]. }
  rewrite for_each_cons, io_bind_unfold.
  destruct (body x s w) as [[s1|e] w1] eqn:Hx; [|done].
  apply IH; [|eapply Hb; [|done..]]; set_solver.
Qed.

Section respects_calls.
Context `{C : Codec}.

Lemma read_text_respects R `{!PreOrder R} p : respects R (read_text p).
Proof. apply respects_pure; [done | apply read_text_pure]. Qed.

Lemma is_file_respects R `{!PreOrder R} p : respects R (is_file p).
Proof. by apply respects_pure. Qed.

Lemma rglob_respects R `{!PreOrder R} root pattern : respects R (rglob root pattern).
Proof. apply respects_pure; [done | apply rglob_pure]. Qed.

Lemma write_text_stdout_grows p s : respects stdout_grows (write_text p s).
Proof. intros w. unfold stdout_grows. by rewrite write_text_stdout. Qed.

Lemma replace_stdout_grows src dst : respects stdout_grows (replace src dst).
Proof. intros w. unfold stdout_grows. by rewrite replace_stdout. Qed.

End respects_calls.

#[export] Hint Resolve read_text_respects is_file_respects rglob_respects
  write_text_stdout_grows replace_stdout_grows print_pure_files
  print_stdout_grows : respects.

Lemma universal_newlines_elem_of s c :
  c ∈ universal_newlines s → c ∈ s ∨ c = 10%N.
Proof.
  induction s as [|x|x y l IH1 IH2] using list_ind_2; simpl in *.
  - set_solver.
  - case_decide; set_solver.
  - repeat case_decide; set_solver.
Qed.

Lemma universal_newlines_keeps s c :
  c ∈ s → c ≠ 13%N → c ∈ universal_newlines s.
Proof.
  induction s as [|x|x y l IH1 IH2] using list_ind_2; simpl in *.
  - set_solver.
  - case_decide; set_solver.
  - repeat case_decide; set_solver.
Qed.

Lemma universal_newlines_Forall (P : N → Prop) s :
  P 10%N → Forall P s → Forall P (universal_newlines s).
Proof.
  rewrite !Forall_forall. intros Hlf Hs c [?| ->]%universal_newlines_elem_of; auto.
Qed.

(** A lawful codec decodes to texts it can encode. *)
Lemma decode_scalar `{C : Codec} `{!CodecLaws C} b s :
  decode b = Some s → Forall is_scalar s.
Proof. intros Hb%encode_decode. apply encode_is_Some. by exists b. Qed.

(** ** The theorems at concrete inputs *)

Lemma with_suffix_tmp_witness :
  let p := [py "proj"; py "thesis.v2.tex"] in
  (47%N ∉ name p)
  ∧ with_suffix p (suffix p ++ py ".tmp") = Some [py "proj"; py "thesis.v2.tex.tmp"].
Proof.
  intros p.
  assert (H : 47%N ∉ name p) by (by apply (bool_decide_unpack _); vm_compute).
  split; [exact H | exact (with_suffix_tmp p H)].
Defined.

(** ** Worlds that are trees *)

(** Every node but the root lies in a directory. *)
Definition tree_like (w : world) : Prop :=
  ∀ p, is_Some (fs w !! p) → p ≠ [] → fs w !! parent p = Some Dir.

(** A call that keeps a tree a tree. *)
Definition keeps_tree (w w' : world) : Prop := tree_like w → tree_like w'.

#[export] Instance keeps_tree_preorder : PreOrder keeps_tree.
Proof.
  split; [intros w Hw; exact Hw | intros w1 w2 w3 H12 H23 Hw; exact (H23 (H12 Hw))].
Qed.

Lemma parent_ne p : p ≠ [] → parent p ≠ p.
Proof.
  intros Hp Heq%(f_equal length). unfold parent in Heq.
  rewrite length_take in Heq. destruct p; simpl in *; [done | lia].
Qed.

(** Storing a file where there was a file or nothing, in a directory. *)
Lemma tree_like_insert_file w p b :
  tree_like w → fs w !! p ≠ Some Dir → p ≠ [] → fs w !! parent p = Some Dir →
  tree_like (set_fs <[p := File b]> w).
Proof.
  intros Hw Hp Hne Hpar q. simpl. intros Hq Hqne.
  destruct (decide (q = p)) as [->|Hqp].
  - by rewrite lookup_insert_ne by (by apply not_eq_sym, parent_ne).
  - rewrite lookup_insert_ne in Hq by done.
    rewrite lookup_insert_ne; [by apply Hw|]. intros Heq.
    apply Hp. rewrite Heq. by apply Hw.
Qed.

(** Removing a file. *)
Lemma tree_like_delete_file w p b :
  tree_like w → fs w !! p = Some (File b) → tree_like (set_fs (delete p) w).
Proof.
  intros Hw Hp q. simpl. intros [n Hq] Hqne.
  apply lookup_delete_Some in Hq as [Hqp Hq].
  rewrite lookup_delete_ne; [apply Hw; eauto|].
  intros Heq. specialize (Hw q (mk_is_Some _ _ Hq) Hqne). congruence.
Qed.

Lemma print_keeps_tree line : respects keeps_tree (print line).
Proof. intros w Hw. exact Hw. Qed.

Lemma replace_tree_like src dst w :
  tree_like w → dst ≠ [] → fs w !! parent dst = Some Dir →
  tree_like (replace src dst w).2.
Proof.
  intros Hw Hne Hpar. unfold replace.
  destruct (fs w !! src) as [[b|]|] eqn:Hsrc; [|done..].
  destruct (decide (fs w !! dst = Some Dir)) as [Hd|Hd]; [by rewrite Hd|].
  assert (parent dst ≠ src) by congruence.
  replace (match fs w !! dst with Some Dir => _ | _ => _ end)
    with (Ok (), set_fs <[dst := File b]> (set_fs (delete src) w))
    by (by destruct (fs w !! dst) as [[|]|]).
  apply tree_like_insert_file; simpl; [by apply (tree_like_delete_file _ _ b) | | done |].
  - intros [_ ?]%lookup_delete_Some. done.
  - by rewrite lookup_delete_ne.
Qed.

Section tree_calls.
Context `{C : Codec}.

Lemma write_text_tree_like p s w :
  tree_like w → p ≠ [] → fs w !! parent p = Some Dir →
  tree_like (write_text p s w).2.
Proof.
  intros Hw Hne Hpar. unfold write_text.
  destruct (decide (fs w !! p = Some Dir)) as [Hd|Hd]; [by rewrite Hd|].
  assert (∀ b, tree_like (set_fs <[p := File b]> w)) as Hins
    by (intros b; by apply tree_like_insert_file).
  destruct (fs w !! p) as [[|]|], (encode s), (budget w); try done;
    try case_decide; simpl; try apply Hins; intros q; apply (Hins _ q).
Qed.

End tree_calls.

Lemma with_suffix_Some_ne p suffix' t : with_suffix p suffix' = Some t → p ≠ [].
Proof.
  unfold with_suffix. intros Hs ->. revert Hs.
  by rewrite (decide_True (P := name [] = [])); repeat case_decide.
Qed.

Lemma tmp_path_parent_ne p : parent p ≠ tmp_path p.
Proof.
  intros Heq%(f_equal length). unfold tmp_path in Heq.
  rewrite length_app in Heq. simpl in Heq. lia.
Qed.

Lemma tmp_path_not_nil p : tmp_path p ≠ [].
Proof. unfold tmp_path. by destruct (parent p). Qed.

Lemma tree_like_map_Forall w :
  tree_like w ↔ map_Forall (λ p _, p ≠ [] → fs w !! parent p = Some Dir) (fs w).
Proof.
  unfold tree_like. rewrite map_Forall_lookup. split.
  - intros Hw p n Hp. apply Hw. by rewrite Hp.
  - intros Hw p [n Hp]. by apply (Hw p n).
Qed.

#[export] Instance tree_like_dec w : Decision (tree_like w).
Proof.
  refine (cast_if (decide (map_Forall
    (λ p _, p ≠ [] → fs w !! parent p = Some Dir) (fs w))));
    by rewrite tree_like_map_Forall.
Defined.
