(* ===== verification/Utf8.v ===== *)
(** * UTF-8

    The codec [read_text] and [write_text] are called with
    ([encoding="utf-8", errors="strict"], lines 107 and 120 of
    [tools/normalize_hyphens.py]): one to four bytes per code point, no
    surrogates, no overlong forms, nothing above U+10FFFF.  The shifts and
    masks of the usual implementation are written as divisions and
    remainders by powers of two.  The theorems discharge [CodecLaws]. *)

From S2P Require Import Prelude FileSys.

#[local] Set Warnings "-clear-no-such-hyp".
Local Open Scope N_scope.

(** [lia] with the quotients and remainders by constants spelled out. *)
#[local] Ltac Zify.zify_post_hook ::= Z.to_euclidean_division_equations.

(** ** The codec *)

(** The bytes of one code point; [None] for a surrogate or a number that
    is no code point. *)
Definition encode_char (c : codepoint) : option bytes :=
  if decide (c < 0x80) then Some [c]
  else if decide (c < 0x800) then Some [0xC0 + c / 64; 0x80 + c mod 64]
  else if decide (c < 0x10000) then
    if decide (0xD800 ≤ c ∧ c < 0xE000) then None
    else Some [0xE0 + c / 4096; 0x80 + (c / 64) mod 64; 0x80 + c mod 64]
  else if decide (c < 0x110000) then
    Some [0xF0 + c / 262144; 0x80 + (c / 4096) mod 64;
          0x80 + (c / 64) mod 64; 0x80 + c mod 64]
  else None.

Fixpoint utf8_encode (s : pystr) : option bytes :=
  match s with
  | [] => Some []
  | c :: s' => b ← encode_char c; bs ← utf8_encode s'; Some (b ++ bs)
  end.

(** A continuation byte [10xxxxxx]. *)
Definition is_cont (b : N) : Prop := 0x80 ≤ b ∧ b < 0xC0.

#[export] Instance is_cont_dec b : Decision (is_cont b).
Proof. unfold is_cont. apply _. Defined.

Fixpoint utf8_decode (bs : bytes) : option pystr :=
  match bs with
  | [] => Some []
  | b0 :: r0 =>
      if decide (b0 < 0x80) then (b0 ::.) <$> utf8_decode r0
      else if decide (0xC2 ≤ b0 ∧ b0 < 0xE0) then
        match r0 with
        | b1 :: r1 =>
            if decide (is_cont b1) then
              (((b0 - 0xC0) * 64 + (b1 - 0x80)) ::.) <$> utf8_decode r1
            else None
        | _ => None
        end
      else if decide (0xE0 ≤ b0 ∧ b0 < 0xF0) then
        match r0 with
        | b1 :: b2 :: r2 =>
            let c := (b0 - 0xE0) * 4096 + (b1 - 0x80) * 64 + (b2 - 0x80) in
            if decide (is_cont b1 ∧ is_cont b2 ∧ 0x800 ≤ c
                       ∧ ¬ (0xD800 ≤ c ∧ c < 0xE000)) then
              (c ::.) <$> utf8_decode r2
            else None
        | _ => None
        end
      else if decide (0xF0 ≤ b0 ∧ b0 < 0xF5) then
        match r0 with
        | b1 :: b2 :: b3 :: r3 =>
            let c := (b0 - 0xF0) * 262144 + (b1 - 0x80) * 4096
                     + (b2 - 0x80) * 64 + (b3 - 0x80) in
            if decide (is_cont b1 ∧ is_cont b2 ∧ is_cont b3
                       ∧ 0x10000 ≤ c ∧ c < 0x110000) then
              (c ::.) <$> utf8_decode r3
            else None
        | _ => None
        end
      else None
  end.

#[export] Instance utf8 : Codec := {| encode := utf8_encode; decode := utf8_decode |}.

(** ** Examples *)

Example utf8_soft_hyphen : utf8_encode [0xad] = Some [0xC2; 0xAD].
Proof. by vm_compute. Qed.

Example utf8_en_dash : utf8_encode [0x2013] = Some [0xE2; 0x80; 0x93].
Proof. by vm_compute. Qed.

Example utf8_bom : utf8_decode [0xEF; 0xBB; 0xBF; 0x61] = Some [0xfeff; 0x61].
Proof. by vm_compute. Qed.

Example utf8_astral : utf8_encode [0x1F600] = Some [0xF0; 0x9F; 0x98; 0x80].
Proof. by vm_compute. Qed.

Example utf8_overlong : utf8_decode [0xC0; 0x80] = None.
Proof. by vm_compute. Qed.

Example utf8_surrogate : utf8_decode [0xED; 0xA0; 0x80] = None.
Proof. by vm_compute. Qed.

Example utf8_truncated : utf8_decode [0x61; 0xE2; 0x80] = None.
Proof. by vm_compute. Qed.

Example utf8_latin1_byte : utf8_decode [0x61; 0xAD; 0x62] = None.
Proof. by vm_compute. Qed.

Example utf8_encode_surrogate : utf8_encode [0x61; 0xD800] = None.
Proof. by vm_compute. Qed.

(** ** One code point *)

Lemma encode_char_is_Some c : is_Some (encode_char c) ↔ is_scalar c.
Proof.
  unfold encode_char, is_scalar.
  repeat case_decide; rewrite ?is_Some_alt; split; try done; lia.
Qed.

(** The four shapes the decoder accepts. *)
Lemma utf8_decode_1 b0 r :
  b0 < 0x80 → utf8_decode (b0 :: r) = (b0 ::.) <$> utf8_decode r.
Proof. intros. simpl. by destruct (decide (b0 < 0x80)). Qed.

Lemma utf8_decode_2 b0 b1 r :
  0xC2 ≤ b0 ∧ b0 < 0xE0 → is_cont b1 →
  utf8_decode (b0 :: b1 :: r)
  = (((b0 - 0xC0) * 64 + (b1 - 0x80)) ::.) <$> utf8_decode r.
Proof.
  intros ? ?. simpl. destruct (decide (b0 < 0x80)); [lia|].
  destruct (decide (0xC2 ≤ b0 ∧ b0 < 0xE0)); [|done].
  by destruct (decide (is_cont b1)).
Qed.

Lemma utf8_decode_3 b0 b1 b2 r :
  let c := (b0 - 0xE0) * 4096 + (b1 - 0x80) * 64 + (b2 - 0x80) in
  0xE0 ≤ b0 ∧ b0 < 0xF0 → is_cont b1 → is_cont b2 →
  0x800 ≤ c → ¬ (0xD800 ≤ c ∧ c < 0xE000) →
  utf8_decode (b0 :: b1 :: b2 :: r) = (c ::.) <$> utf8_decode r.
Proof.
  intros c ? ? ? ? ?. subst c. simpl. destruct (decide (b0 < 0x80)); [lia|].
  destruct (decide (0xC2 ≤ b0 ∧ b0 < 0xE0)); [lia|].
  destruct (decide (0xE0 ≤ b0 ∧ b0 < 0xF0)); [|done].
  by rewrite decide_True.
Qed.

Lemma utf8_decode_4 b0 b1 b2 b3 r :
  let c := (b0 - 0xF0) * 262144 + (b1 - 0x80) * 4096
           + (b2 - 0x80) * 64 + (b3 - 0x80) in
  0xF0 ≤ b0 ∧ b0 < 0xF5 → is_cont b1 → is_cont b2 → is_cont b3 →
  0x10000 ≤ c → c < 0x110000 →
  utf8_decode (b0 :: b1 :: b2 :: b3 :: r) = (c ::.) <$> utf8_decode r.
Proof.
  intros c ? ? ? ? ? ?. subst c. simpl. destruct (decide (b0 < 0x80)); [lia|].
  destruct (decide (0xC2 ≤ b0 ∧ b0 < 0xE0)); [lia|].
  destruct (decide (0xE0 ≤ b0 ∧ b0 < 0xF0)); [lia|].
  destruct (decide (0xF0 ≤ b0 ∧ b0 < 0xF5)); [|done].
  by rewrite decide_True.
Qed.

(** The decoder reads back what [encode_char] wrote and goes on with the
    rest. *)
Lemma utf8_decode_encode_char c b rest :
  encode_char c = Some b →
  utf8_decode (b ++ rest) = (c ::.) <$> utf8_decode rest.
Proof.
  unfold encode_char. repeat case_decide; intros [= <-]; cbn [app].
  - by apply utf8_decode_1.
  - rewrite utf8_decode_2 by (unfold is_cont; lia). do 2 f_equal. lia.
  - rewrite utf8_decode_3 by (unfold is_cont; lia). do 2 f_equal. lia.
  - rewrite utf8_decode_4 by (unfold is_cont; lia). do 2 f_equal. lia.
Qed.

(** The four shapes the decoder accepts are the ones the encoder writes. *)
Lemma encode_char_1 b0 : b0 < 0x80 → encode_char b0 = Some [b0].
Proof. intros. unfold encode_char. by rewrite decide_True. Qed.

Lemma encode_char_2 b0 b1 :
  0xC2 ≤ b0 ∧ b0 < 0xE0 → is_cont b1 →
  encode_char ((b0 - 0xC0) * 64 + (b1 - 0x80)) = Some [b0; b1].
Proof.
  unfold is_cont, encode_char. intros ? ?.
  rewrite decide_False, decide_True by lia. do 3 f_equal; lia.
Qed.

Lemma encode_char_3 b0 b1 b2 :
  let c := (b0 - 0xE0) * 4096 + (b1 - 0x80) * 64 + (b2 - 0x80) in
  0xE0 ≤ b0 ∧ b0 < 0xF0 → is_cont b1 → is_cont b2 →
  0x800 ≤ c → ¬ (0xD800 ≤ c ∧ c < 0xE000) →
  encode_char c = Some [b0; b1; b2].
Proof.
  intros c ? ? ? ? ?. subst c. unfold is_cont, encode_char in *.
  rewrite decide_False, decide_False, decide_True, decide_False by lia.
  do 4 f_equal; lia.
Qed.

Lemma encode_char_4 b0 b1 b2 b3 :
  let c := (b0 - 0xF0) * 262144 + (b1 - 0x80) * 4096
           + (b2 - 0x80) * 64 + (b3 - 0x80) in
  0xF0 ≤ b0 ∧ b0 < 0xF5 → is_cont b1 → is_cont b2 → is_cont b3 →
  0x10000 ≤ c → c < 0x110000 →
  encode_char c = Some [b0; b1; b2; b3].
Proof.
  intros c ? ? ? ? ? ?. subst c. unfold is_cont, encode_char in *.
  rewrite decide_False, decide_False, decide_False, decide_True by lia.
  do 5 f_equal; lia.
Qed.

(** ** Whole texts *)

Lemma utf8_encode_cons c s :
  utf8_encode (c :: s) = b ← encode_char c; bs ← utf8_encode s; Some (b ++ bs).
Proof. done. Qed.

Lemma utf8_encode_is_Some s : is_Some (utf8_encode s) ↔ Forall is_scalar s.
Proof.
  induction s as [|c s IH]; [by split; [constructor | eexists]|].
  rewrite utf8_encode_cons, Forall_cons, <-IH, <-encode_char_is_Some.
  rewrite !is_Some_alt. destruct (encode_char c), (utf8_encode s); naive_solver.
Qed.

(** Decoding the UTF-8 encoding of a text gives the text back. *)
Lemma utf8_decode_encode s b : utf8_encode s = Some b → utf8_decode b = Some s.
Proof.
  revert b. induction s as [|c s IH]; intros b; [by intros [= <-]|].
  rewrite utf8_encode_cons. intros (bc & Hc & (bs & Hs & [= <-])%bind_Some)%bind_Some.
  by rewrite (utf8_decode_encode_char c bc bs Hc), (IH bs Hs).
Qed.

(** The strict decoder accepts only what the encoder writes: a byte
    string that decodes is the encoding of its text. *)
Lemma utf8_encode_decode b s : utf8_decode b = Some s → utf8_encode s = Some b.
Proof.
  remember (length b) as n eqn:Hn. revert b s Hn.
  induction n as [n IH] using lt_wf_ind. intros [|b0 r0] s -> Hd.
  { by injection Hd as <-. }
  simpl in Hd. repeat case_decide; try done.
  - apply fmap_Some in Hd as (s' & Hs' & ->).
    rewrite utf8_encode_cons, encode_char_1 by done. simpl.
    by rewrite (IH (length r0) ltac:(simpl; lia) r0 s').
  - destruct r0 as [|b1 r1]; [done|]. case_decide; [|done].
    apply fmap_Some in Hd as (s' & Hs' & ->).
    rewrite utf8_encode_cons, encode_char_2 by done. simpl.
    by rewrite (IH (length r1) ltac:(simpl; lia) r1 s').
  - destruct r0 as [|b1 [|b2 r2]]; [done..|]. case_decide as Hc; [|done].
    destruct Hc as (? & ? & ? & ?).
    apply fmap_Some in Hd as (s' & Hs' & ->).
    rewrite utf8_encode_cons, encode_char_3 by done. simpl.
    by rewrite (IH (length r2) ltac:(simpl; lia) r2 s').
  - destruct r0 as [|b1 [|b2 [|b3 r3]]]; [done..|]. case_decide as Hc; [|done].
    destruct Hc as (? & ? & ? & ? & ?).
    apply fmap_Some in Hd as (s' & Hs' & ->).
    rewrite utf8_encode_cons, encode_char_4 by done. simpl.
    by rewrite (IH (length r3) ltac:(simpl; lia) r3 s').
Qed.

(** UTF-8 satisfies the laws the file system's clients rely on. *)
#[export] Instance utf8_laws : CodecLaws utf8.
Proof.
  split.
  - apply utf8_decode_encode.
  - apply utf8_encode_decode.
  - apply utf8_encode_is_Some.
Qed.

Lemma utf8_decode_scalar b s : utf8_decode b = Some s → Forall is_scalar s.
Proof. intros Hd%utf8_encode_decode. apply utf8_encode_is_Some. eauto. Qed.

(** Every byte the encoder writes is a byte. *)
Lemma utf8_encode_bytes s b : utf8_encode s = Some b → Forall (λ x, x < 256) b.
Proof.
  revert b. induction s as [|c s IH]; intros b; [intros [= <-]; constructor|].
  rewrite utf8_encode_cons. intros (bc & Hc & (bs & Hs & [= <-])%bind_Some)%bind_Some.
  apply Forall_app. split; [|by apply IH].
  revert Hc. unfold encode_char.
  repeat case_decide; intros [= <-]; repeat constructor; lia.
Qed.

(** ASCII text is encoded byte for byte. *)
Lemma utf8_encode_ascii s : Forall (λ c, c < 0x80) s → utf8_encode s = Some s.
Proof.
  induction 1 as [|c s Hc _ IH]; [done|].
  by rewrite utf8_encode_cons, encode_char_1, IH.
Qed.

(** ** The codec as the run uses it *)

(** C33. Round trip: every text of Unicode scalar values has an encoding,
    the encoding is a string of bytes, and decoding it gives the text
    back; what a run writes it reads back unchanged. *)
Theorem utf8_roundtrip s :
  Forall is_scalar s →
  ∃ b, utf8_encode s = Some b ∧ utf8_decode b = Some s ∧ Forall (λ x, x < 256) b.
Proof.
  intros [b Hb]%utf8_encode_is_Some. exists b. split_and!; [done|..].
  - by apply utf8_decode_encode.
  - by apply (utf8_encode_bytes s).
Qed.

(** Strictness: a byte string that decodes is the encoding of the text
    it decodes to, and that text holds Unicode scalar values only; overlong
    forms, surrogates, truncated sequences and values beyond U+10FFFF are
    rejected, so a file that is read and written back without a change of
    its text keeps its bytes. *)
Lemma utf8_strict b s :
  utf8_decode b = Some s → utf8_encode s = Some b ∧ Forall is_scalar s.
Proof.
  intros Hd. split; [by apply utf8_encode_decode | by apply (utf8_decode_scalar b)].
Qed.

(** ** The theorems at concrete inputs *)

Lemma utf8_roundtrip_witness :
  Forall is_scalar [0x61; 0xad; 0x2014; 0x1f600]
  ∧ ∃ b, utf8_encode [0x61; 0xad; 0x2014; 0x1f600] = Some b
         ∧ utf8_decode b = Some [0x61; 0xad; 0x2014; 0x1f600]
         ∧ Forall (λ x, x < 256) b.
Proof.
  assert (H : Forall is_scalar [0x61; 0xad; 0x2014; 0x1f600])
    by (by apply (bool_decide_unpack _); vm_compute).
  split; [exact H | exact (utf8_roundtrip _ H)].
Defined.

Lemma utf8_strict_witness :
  utf8_decode [0xc2; 0xad; 0x2d] = Some [0xad; 0x2d]
  ∧ utf8_encode [0xad; 0x2d] = Some [0xc2; 0xad; 0x2d] ∧ Forall is_scalar [0xad; 0x2d].
Proof.
  assert (H : utf8_decode [0xc2; 0xad; 0x2d] = Some [0xad; 0x2d])
    by (vm_compute; reflexivity).
  split; [exact H | exact (utf8_strict _ _ H)].
Defined.
