(* ===== verification/Main.v ===== *)
(** * [iter_files] and [main]

    The pipeline of [tools/normalize_hyphens.py] (lines 79-140): the
    enumeration of the files, the per-file step (read, normalize, compare,
    report, merge, write back through a temporary sibling and an atomic
    replace), the report and the exit status, as calls on the world of
    [FileSys].  The theorems give the result of the enumeration, the effect
    of the step on each kind of file, and what holds of every run however
    it ends: a dry run changes no file, a file is never left partly
    written, a tree stays a tree, the counters agree. *)

From S2P Require Import Prelude Chars Normalize Format Summary FileSys.

#[local] Set Warnings "-clear-no-such-hyp".

(** ** The code *)

(** The parsed command line (lines 88-94): [--root] resolved, [--ext],
    [--soft-hyphen], [--dry-run]. *)
Record args : Type := Args {
  root : path;
  ext : pystr;
  soft_hyphen : pystr;
  dry_run : bool;
}.

(** [iter_files(root, ext)] (lines 79-84). *)
Definition iter_files (root : path) (ext : pystr) : io (list path) :=
  ps ← rglob root (py "*" ++ ext);
  for_each ps
    (λ p files, b ← is_file p; mret (if b : bool then files ++ [p] else files)) [].

Section main.
Context `{C : Codec}.

(** The write-back of lines 117-121. *)
Definition write_back (f : path) (new : pystr) : io () :=
  match with_suffix f (suffix f ++ py ".tmp") with
  | None => raise ValueError
  | Some tmp => write_text tmp new;; replace tmp f
  end.

(** The body of [for f in files] (lines 107-124). *)
Definition process (a : args) (f : path) (st : summary) : io summary :=
  data ← read_text f;
  let '(new, counts) := normalize_text data (soft_hyphen a) in
  if decide (new ≠ data) then
    let total_changed' := total_changed st + 1 in
    print (py "[CHANGED] " ++ path_str f);;
    let total_hits' := merge_hits (total_hits st) counts in
    (if dry_run a then mret () else write_back f new);;
    mret {| total_changed := total_changed'; total_hits := total_hits' |}
  else mret st.

(** The report (lines 126-138). *)
Definition report (n_files : nat) (st : summary) : io () :=
  print (10%N :: py "Summary:");;
  print (py "  Files scanned:   " ++ str_of_nat n_files);;
  print (py "  Files modified:  " ++ str_of_nat (total_changed st));;
  if decide (total_hits st ≠ ∅) then
    print (py "  Replacements/removals:");;
    for_each (report_rows (total_hits st)) (λ kv _, print (row kv)) ()
  else print (py "  No normalization needed.").

(** [main()] after the command line is parsed (lines 96-140). *)
Definition main (a : args) : io nat :=
  files ← iter_files (root a) (ext a);
  if decide (files = []) then
    print (py "No *" ++ ext a ++ py " files found under " ++ path_str (root a));;
    mret 0
  else
    st ← for_each files (process a) {| total_changed := 0; total_hits := ∅ |};
    report (length files) st;;
    mret 0.

(** The exit status of the script (lines 143-144): what [main] returns, or
    1 for an uncaught exception. *)
Definition exit_status (r : result nat) : nat :=
  match r with Ok n => n | Raise _ => 1 end.

End main.

(** ** Enumeration *)

(** A path that holds a regular file. *)
Definition regular (w : world) (p : list (list N)) : Prop :=
  ∃ data, fs w !! p = Some (File data).

#[export] Instance regular_dec w p : Decision (regular w p).
Proof.
  unfold regular. destruct (fs w !! p) as [[data|]|];
    [left; by exists data | right; by intros [? ?]..].
Defined.

(** The files [iter_files] is to find: the regular files strictly below
    [root] whose name matches [f"*{ext}"]. *)
Definition wanted (root : list (list N)) (ext : pystr) (w : world)
  (p : list (list N)) : Prop :=
  regular w p ∧ root `prefix_of` p ∧ p ≠ root ∧ fnmatch (py "*" ++ ext) (name p).

#[export] Instance wanted_dec root ext w p : Decision (wanted root ext w p).
Proof. unfold wanted. apply _. Defined.

Lemma is_file_regular w p : is_file p w = (Ok (bool_decide (regular w p)), w).
Proof.
  unfold is_file. f_equal. f_equal. symmetry.
  destruct (fs w !! p) as [[data|]|] eqn:Hp.
  - apply bool_decide_eq_true. exists data. done.
  - apply bool_decide_eq_false. intros [? ?]. congruence.
  - apply bool_decide_eq_false. intros [? ?]. congruence.
Qed.

Lemma iter_files_loop ps acc w :
  for_each ps
    (λ p files, b ← is_file p; mret (if b : bool then files ++ [p] else files))
    acc w
  = (Ok (acc ++ filter (regular w) ps), w).
Proof.
  revert acc. induction ps as [|p ps IH]; intros acc.
  { by rewrite for_each_nil, filter_nil, app_nil_r. }
  rewrite for_each_cons, io_bind_unfold, io_bind_unfold, is_file_regular.
  simpl. rewrite IH, filter_cons. case_bool_decide as Hp.
  - rewrite decide_True by done. by rewrite <-app_assoc.
  - by rewrite decide_False by done.
Qed.

Lemma rglob_star root ext w :
  glob_ext ext →
  rglob root (py "*" ++ ext) w =
    (Ok (match fs w !! root with
         | Some Dir =>
             filter (λ p, root `prefix_of` p ∧ p ≠ root
                          ∧ fnmatch (py "*" ++ ext) (name p))
                    (map_to_list (fs w)).*1
         | _ => []
         end), w).
Proof. intros [Hpat Hds]. unfold rglob. by rewrite decide_True, Hds. Qed.

(** Two stars in a row are refused, whatever the root. *)
Lemma rglob_double_star root pattern w :
  glob_pattern pattern → double_star pattern = true →
  rglob root pattern w = (Raise ValueError, w).
Proof. intros Hpat Hds. unfold rglob. by rewrite decide_True, Hds. Qed.


Lemma iter_files_pure root ext w : (iter_files root ext w).2 = w.
Proof.
  unfold iter_files. rewrite io_bind_unfold.
  pose proof (rglob_pure root (py "*" ++ ext) w) as Hw.
  destruct (rglob _ _ w) as [[ps|e] w']; simpl in Hw; subst w'; [|done].
  by rewrite iter_files_loop.
Qed.

(** Under a directory [root], [iter_files] returns the regular files
    strictly below [root] whose name matches, each once. *)
Lemma iter_files_Dir root ext w :
  glob_ext ext → fs w !! root = Some Dir →
  ∃ files, iter_files root ext w = (Ok files, w) ∧ NoDup files ∧
    ∀ p, p ∈ files ↔ wanted root ext w p.
Proof.
  intros Hext Hroot. eexists. unfold iter_files.
  rewrite io_bind_unfold, rglob_star, Hroot, iter_files_loop by done. simpl.
  split; [done|]. split.
  - do 2 apply NoDup_filter. apply NoDup_fst_map_to_list.
  - intros p. rewrite !list_elem_of_filter. unfold wanted, regular.
    rewrite list_elem_of_fmap. split; [naive_solver|].
    intros ([data Hp] & ? & ? & ?). repeat split; eauto.
    exists (p, File data). split; [done|]. by apply elem_of_map_to_list.
Qed.

(** A root that is missing, or is no directory, yields no file: the
    enumeration raises nothing. *)
Lemma iter_files_no_dir root ext w :
  glob_ext ext → fs w !! root ≠ Some Dir → iter_files root ext w = (Ok [], w).
Proof.
  intros Hext Hroot. unfold iter_files.
  rewrite io_bind_unfold, rglob_star by done.
  by destruct (fs w !! root) as [[|]|].
Qed.

(** C22. Enumeration: for an extension [rglob] accepts, [iter_files]
    raises nothing and leaves the world as it is; it returns, each once,
    the regular files strictly below [root] whose name matches
    [f"*{ext}"] when [root] is a directory, and nothing otherwise. *)
Theorem iter_files_spec root ext w :
  glob_ext ext →
  ∃ files, iter_files root ext w = (Ok files, w) ∧ NoDup files ∧
    ∀ p, p ∈ files ↔ fs w !! root = Some Dir ∧ wanted root ext w p.
Proof.
  intros Hext. destruct (decide (fs w !! root = Some Dir)) as [Hroot|Hroot].
  - destruct (iter_files_Dir root ext w Hext Hroot) as (files & ? & ? & Hfiles).
    exists files. split_and!; [done..|]. intros p. rewrite Hfiles. tauto.
  - exists []. rewrite iter_files_no_dir by done.
    split_and!; [done | constructor | set_solver].
Qed.

(** C39. The extension as a suffix: for an extension without glob
    metacharacters (no star, question mark, bracket, slash or NUL)
    [iter_files] raises nothing, leaves the world as it is and returns,
    each once, exactly the regular files strictly below the directory
    [root] whose name ends with the extension; nothing when [root] is no
    directory. *)
Theorem iter_files_plain root ext w :
  plain_ext ext →
  ∃ files, iter_files root ext w = (Ok files, w) ∧ NoDup files ∧
    ∀ p, p ∈ files ↔
      fs w !! root = Some Dir ∧ (∃ data, fs w !! p = Some (File data))
      ∧ root `prefix_of` p ∧ p ≠ root ∧ ext `suffix_of` name p.
Proof.
  intros Hext. pose proof (plain_ext_glob_ext ext Hext) as Hglob.
  destruct (decide (fs w !! root = Some Dir)) as [Hroot|Hroot].
  - destruct (iter_files_Dir root ext w Hglob Hroot) as (files & ? & ? & Hfiles).
    exists files. split_and!; [done..|]. intros p.
    rewrite Hfiles. unfold wanted, regular.
    rewrite fnmatch_plain, bool_decide_spec by done. tauto.
  - exists []. rewrite iter_files_no_dir by done.
    split_and!; [done | constructor | set_solver].
Qed.

(** A directory is never processed, whatever its name. *)
Lemma iter_files_regular root ext w files p :
  iter_files root ext w = (Ok files, w) → p ∈ files → regular w p.
Proof.
  unfold iter_files. rewrite io_bind_unfold.
  pose proof (rglob_pure root (py "*" ++ ext) w) as Hw.
  destruct (rglob _ _ w) as [[ps|e] w']; simpl in Hw; subst w'; [|done].
  rewrite iter_files_loop. intros [= <-]. simpl.
  by intros [? _]%list_elem_of_filter.
Qed.

(** ** The per-file step *)

(** What one file adds to the counters: nothing when its text is clean,
    one modified file and its hits otherwise. *)
Definition account (mode data : pystr) (st : summary) : summary :=
  if decide (clean data) then st
  else {| total_changed := total_changed st + 1;
          total_hits := hits_sum (total_hits st) (normalize_text data mode).2 |}.

Section pipeline.
Context `{C : Codec}.
Implicit Types (a : args) (f : list (list N)) (st : summary) (w : world).

Lemma write_back_frame f new :
  respects (frame (λ q, q ≠ f ∧ q ≠ tmp_path f)) (write_back f new).
Proof.
  unfold write_back. destruct (with_suffix f _) as [tmp|] eqn:Htmp;
    [|apply respects_raise, _].
  apply with_suffix_tmp_Some in Htmp as ->. apply respects_bind; [apply _|..].
  - eapply respects_frame_weaken, write_text_frame. naive_solver.
  - intros _. eapply respects_frame_weaken, replace_frame. naive_solver.
Qed.

Lemma write_back_stdout f new w : stdout (write_back f new w).2 = stdout w.
Proof.
  unfold write_back. destruct (with_suffix f _) as [tmp|]; [|done].
  rewrite io_bind_unfold. pose proof (write_text_stdout tmp new w) as Hw.
  destruct (write_text tmp new w) as [[[]|e] w1]; simpl in *; [|done].
  by rewrite replace_stdout.
Qed.

(** The file itself is either as it was or holds the complete encoding of
    the new text: the write-back never leaves it partly written. *)
Lemma write_back_target f new w :
  fs (write_back f new w).2 !! f = fs w !! f
  ∨ ∃ b, encode new = Some b ∧ fs (write_back f new w).2 !! f = Some (File b).
Proof.
  unfold write_back. destruct (with_suffix f _) as [tmp|] eqn:Htmp; [|by left].
  apply with_suffix_tmp_Some in Htmp as ->. rewrite io_bind_unfold.
  pose proof (tmp_path_ne f) as Hne.
  destruct (write_text (tmp_path f) new w) as [[[]|e] w1] eqn:Hw.
  - apply write_text_Ok in Hw as (b & Hb & Hfs & _).
    assert (fs w1 !! f = fs w !! f) as Hf by (by rewrite Hfs, lookup_insert_ne).
    destruct (decide (fs w1 !! f = Some Dir)) as [Hd|Hd].
    + left. by rewrite replace_dst_Dir.
    + right. exists b. split; [done|].
      rewrite (replace_Ok _ _ b); [|by rewrite Hfs, lookup_insert_eq | done].
      apply lookup_insert_eq.
  - left. simpl. pose proof (write_text_frame (tmp_path f) new w f) as Hfr.
    rewrite Hw in Hfr. by apply Hfr.
Qed.

(** The write-back succeeds when the name is a file name, the temporary
    sibling is no directory and the text can be encoded and stored. *)
Lemma write_back_Ok f new b w :
  name f ≠ [] → 47%N ∉ name f → regular w f → fs w !! tmp_path f ≠ Some Dir →
  encode new = Some b → budget w = None →
  write_back f new w
  = (Ok (), set_fs (λ m, <[f := File b]> (delete (tmp_path f) m)) w).
Proof.
  intros Hn Hsep [data Hf] Htmp Hb Hbud. unfold write_back.
  rewrite with_suffix_tmp_ok by (done || by intros ?%suffix_subseteq).
  rewrite io_bind_unfold.
  rewrite (write_text_unlimited _ _ b) by done.
  rewrite (replace_Ok _ _ b); simpl.
  - unfold set_fs. simpl. by rewrite delete_insert_eq.
  - apply lookup_insert_eq.
  - rewrite lookup_insert_ne by apply tmp_path_ne. by rewrite Hf.
Qed.

(** The per-file step, once the file has been read. *)
Lemma process_unfold a f st w data :
  read_text f w = (Ok data, w) →
  process a f st w =
    if decide (clean data) then (Ok st, w)
    else (print (py "[CHANGED] " ++ path_str f);;
          (if dry_run a then mret ()
           else write_back f (normalized (soft_hyphen a) data));;
          mret (account (soft_hyphen a) data st)) w.
Proof.
  intros Hr. unfold process. rewrite (io_bind_Ok _ _ _ _ _ Hr).
  destruct (normalize_text data (soft_hyphen a)) as [new counts] eqn:Hn.
  assert (new = normalized (soft_hyphen a) data) as ->
    by (by rewrite <-normalize_text_fst, Hn).
  unfold account. rewrite Hn. cbv beta iota zeta.
  rewrite merge_hits_hits_sum. pose proof (normalized_fixpoint (soft_hyphen a) data).
  destruct (decide (clean data)), (decide (_ ≠ data)); naive_solver.
Qed.

Lemma process_skip a f st w data :
  read_text f w = (Ok data, w) → clean data → process a f st w = (Ok st, w).
Proof.
  intros Hr Hc. rewrite (process_unfold _ _ _ _ data) by done.
  by rewrite decide_True.
Qed.

Lemma process_Raise a f st w e :
  read_text f w = (Raise e, w) → process a f st w = (Raise e, w).
Proof. intros Hr. unfold process. by rewrite (io_bind_Raise _ _ _ _ _ Hr). Qed.

End pipeline.

(** ** The report *)

Lemma for_each_print (rows : list (codepoint * nat)) w :
  for_each rows (λ kv _, print (row kv)) () w = (Ok (), printed (row <$> rows) w).
Proof.
  revert w. induction rows as [|kv rows IH]; intros w.
  { by rewrite for_each_nil, fmap_nil, printed_nil. }
  by rewrite for_each_cons, print_bind, IH, printed_printed.
Qed.

(** What [report] prints is [report_lines], one line per call of [print];
    the files are not touched. *)
Lemma report_eq n_files st w :
  report n_files st w = (Ok (), printed (report_lines n_files st) w).
Proof.
  unfold report, report_lines. rewrite !print_bind, !printed_printed.
  case_decide.
  - by rewrite print_bind, for_each_print, !printed_printed.
  - by rewrite print_eq, printed_printed.
Qed.

Lemma report_files n_files st : respects same_files (report n_files st).
Proof. intros w. by rewrite report_eq. Qed.

Lemma report_stdout n_files st : respects stdout_grows (report n_files st).
Proof. intros w. rewrite report_eq. apply printed_stdout. Qed.

(** ** Runs *)

Section run.
Context `{C : Codec}.
Implicit Types (a : args) (f : list (list N)) (st : summary) (w : world).

Lemma iter_files_respects R `{!PreOrder R} root ext :
  respects R (iter_files root ext).
Proof. apply respects_pure; [done | apply iter_files_pure]. Qed.

(** *** Dry run *)

Lemma process_dry_run a f st :
  dry_run a = true → respects same_files (process a f st).
Proof.
  intros Hd. unfold process. apply respects_bind; [apply _ | solve_respects |].
  intros data. destruct (normalize_text _ _) as [new counts].
  cbv zeta. rewrite Hd. solve_respects.
Qed.

Lemma main_respects R `{!PreOrder R} a :
  (∀ line, respects R (print line)) → (∀ f st, respects R (process a f st)) →
  respects R (main a).
Proof.
  intros Hprint Hprocess. unfold main, report.
  pose proof (iter_files_respects R (root a) (ext a)). solve_respects.
Qed.

(** C8. [--dry-run]: whatever the files hold and however the run ends, no
    file is created, changed or removed, and nothing is written. *)
Theorem main_dry_run a w :
  dry_run a = true → fs (main a w).2 = fs w ∧ budget (main a w).2 = budget w.
Proof.
  intros Hd. apply (main_respects same_files);
    [apply print_pure_files | intros; by apply process_dry_run].
Qed.

(** *** The output only grows *)

Lemma write_back_stdout_grows f new : respects stdout_grows (write_back f new).
Proof. intros w. unfold stdout_grows. by rewrite write_back_stdout. Qed.

Lemma process_stdout_grows a f st : respects stdout_grows (process a f st).
Proof.
  pose proof write_back_stdout_grows. unfold process.
  apply respects_bind; [apply _ | solve_respects |].
  intros data. destruct (normalize_text _ _) as [new counts].
  cbv zeta. destruct (dry_run a); solve_respects.
Qed.

Lemma main_stdout_grows a : respects stdout_grows (main a).
Proof.
  apply main_respects; [apply _ | apply print_stdout_grows |].
  apply process_stdout_grows.
Qed.

End run.

(** ** Atomic write-back *)

Lemma normalized_no_cr mode s : 13%N ∉ s → 13%N ∉ normalized mode s.
Proof. by intros Hs [?|[? _]]%elem_of_normalized. Qed.

Lemma normalized_universal_newlines mode s :
  universal_newlines (normalized mode (universal_newlines s))
  = normalized mode (universal_newlines s).
Proof. apply universal_newlines_id, normalized_no_cr, universal_newlines_no_cr. Qed.

Section atomic.
Context `{C : Codec}.
Implicit Types (a : args) (f p : list (list N)) (st : summary) (w : world).

(** The text a run stores in a file that holds [data]: the bytes decoded,
    newlines made universal, the text normalized and encoded again. *)
Definition rewrite_of (mode : pystr) (data b : bytes) : Prop :=
  ∃ s, decode data = Some s
       ∧ encode (normalized mode (universal_newlines s)) = Some b.

(** Every path that bears no temporary name is as it was, or is a file that
    has been rewritten as a whole. *)
Definition rewritten (mode : pystr) (w w' : world) : Prop :=
  ∀ p, ¬ is_tmp p →
    fs w' !! p = fs w !! p
    ∨ ∃ data b, fs w !! p = Some (File data) ∧ rewrite_of mode data b
                ∧ fs w' !! p = Some (File b).

Lemma frame_rewritten mode f w w' :
  frame (λ q, q ≠ f ∧ q ≠ tmp_path f) w w' →
  (fs w' !! f = fs w !! f
   ∨ ∃ data b, fs w !! f = Some (File data) ∧ rewrite_of mode data b
               ∧ fs w' !! f = Some (File b)) →
  rewritten mode w w'.
Proof.
  intros Hfr Hf p Hp. destruct (decide (p = f)) as [->|Hpf]; [done|].
  left. apply Hfr. split; [done | by apply not_is_tmp_ne].
Qed.

Lemma process_rewritten a f st w :
  rewritten (soft_hyphen a) w (process a f st w).2.
Proof.
  destruct (read_text f w) as [[data|e] w1] eqn:Hr;
    pose proof (read_text_pure f w) as Hw; rewrite Hr in Hw; simpl in Hw; subst w1;
    [|rewrite (process_Raise _ _ _ _ e) by done; by left].
  rewrite (process_unfold _ _ _ _ data) by done. case_decide; [by left|].
  rewrite print_bind. destruct (dry_run a); [by left|].
  rewrite io_bind_unfold.
  set (new := normalized _ data). set (w1 := printed _ w).
  assert (rewritten (soft_hyphen a) w (write_back f new w1).2) as Hwb.
  { apply (frame_rewritten _ f); [exact (write_back_frame f new w1)|].
    destruct (write_back_target f new w1) as [?|(b & Hb & Hf)]; [by left|].
    apply read_text_Ok in Hr as (_ & d & t & Hd & Ht & ->).
    right. exists d, b. split_and!; [done | by exists t | done]. }
  by destruct (write_back f new w1) as [[[]|e] w2].
Qed.

End atomic.

Section atomic_run.
Context `{C : Codec} `{!CodecLaws C}.
Implicit Types (a : args) (f p : list (list N)) (st : summary) (w : world).

(** Rewriting a rewritten file stores the same bytes again. *)
Lemma rewrite_of_idemp mode data b b' :
  rewrite_of mode data b → rewrite_of mode b b' → b' = b.
Proof.
  intros (s & Hs & Hb) (s' & Hs' & Hb').
  pose proof (decode_encode _ _ Hb) as Hdec. rewrite Hdec in Hs'.
  injection Hs' as <-.
  rewrite normalized_universal_newlines in Hb'.
  rewrite (normalized_id mode (normalized _ _)) in Hb' by apply normalized_clean.
  congruence.
Qed.

(** The text of a file that can be read can be written back: in a run
    [write_text] never raises [UnicodeEncodeError]. *)
Lemma rewrite_of_total mode data s :
  decode data = Some s → ∃ b, rewrite_of mode data b.
Proof.
  intros Hs. destruct (proj2 (encode_is_Some (normalized mode (universal_newlines s))))
    as [b Hb]; [|exists b; by exists s].
  apply normalized_scalar, universal_newlines_Forall; [by left|].
  by apply (decode_scalar data).
Qed.

#[export] Instance rewritten_preorder mode : PreOrder (rewritten mode).
Proof.
  split; [by left|]. intros w1 w2 w3 H12 H23 p Hp.
  destruct (H12 p Hp) as [E12|(d & b & Hd & Hrw & Hb)],
    (H23 p Hp) as [E23|(d' & b' & Hd' & Hrw' & Hb')].
  - left. congruence.
  - right. exists d', b'. by rewrite <-E12.
  - right. exists d, b. by rewrite E23.
  - right. exists d, b. rewrite Hb in Hd'. injection Hd' as <-.
    by rewrite (rewrite_of_idemp mode d b b') in Hb'.
Qed.

(** C4. Atomic write-back: however a run ends (normally, or with an
    exception of a read, of the write of a temporary file or of the
    replace, the write stopping after any number of bytes) every path
    that bears no temporary name is as it was before the run, or is a
    file that holds the complete encoding of its normalized text. *)
Theorem main_atomic a w p :
  ¬ is_tmp p →
  fs (main a w).2 !! p = fs w !! p
  ∨ ∃ data b, fs w !! p = Some (File data)
              ∧ rewrite_of (soft_hyphen a) data b
              ∧ fs (main a w).2 !! p = Some (File b).
Proof.
  revert p. apply (main_respects (rewritten (soft_hyphen a))).
  - intros line w' p _. by left.
  - intros f st w'. apply process_rewritten.
Qed.

End atomic_run.

(** ** The counters *)

(** The two counters agree: no hit is recorded unless a file was modified,
    and a modified file records a hit. *)
Definition summary_inv (st : summary) : Prop :=
  total_hits st = ∅ ↔ total_changed st = 0.

Lemma summary_inv_init : summary_inv {| total_changed := 0; total_hits := ∅ |}.
Proof. done. Qed.

Lemma account_clean mode data st : clean data → account mode data st = st.
Proof. intros Hc. unfold account. by rewrite decide_True. Qed.

Lemma account_changed mode data st :
  total_changed (account mode data st)
  = total_changed st + (if decide (clean data) then 0 else 1).
Proof. unfold account. case_decide; simpl; lia. Qed.

Lemma account_inv mode data st : summary_inv st → summary_inv (account mode data st).
Proof.
  unfold account, summary_inv. case_decide as Hc; [done|]. intros _.
  cbn [total_hits total_changed].
  rewrite hits_sum_empty, normalize_text_counts_empty. split; [tauto | lia].
Qed.

Section counters.
Context `{C : Codec}.
Implicit Types (a : args) (f : list (list N)) (st : summary) (w : world).

(** A step that returns has read the file and accounted for its text. *)
Lemma process_account a f st w st' w' :
  process a f st w = (Ok st', w') →
  ∃ data, read_text f w = (Ok data, w) ∧ st' = account (soft_hyphen a) data st.
Proof.
  destruct (read_text f w) as [[data|e] w1] eqn:Hr;
    pose proof (read_text_pure f w) as Hw; rewrite Hr in Hw; simpl in Hw; subst w1;
    [|by rewrite (process_Raise _ _ _ _ e)].
  rewrite (process_unfold _ _ _ _ data) by done. intros Hp. exists data.
  split; [done|]. case_decide as Hc.
  - rewrite account_clean by done. congruence.
  - rewrite print_bind in Hp.
    apply io_bind_Ok_inv in Hp as ([] & w2 & _ & Hp). by injection Hp.
Qed.

Lemma process_inv a f st w st' w' :
  summary_inv st → process a f st w = (Ok st', w') → summary_inv st'.
Proof. intros Hst (data & _ & ->)%process_account. by apply account_inv. Qed.

(** C21. After the loop over the files, the dictionary of hits is empty
    exactly when no file was modified, and no more files were modified
    than were scanned: the report shows a table exactly when it shows a
    non-zero number of modified files. *)
Theorem loop_counters a files w st w' :
  for_each files (process a) {| total_changed := 0; total_hits := ∅ |} w
    = (Ok st, w') →
  (total_hits st = ∅ ↔ total_changed st = 0) ∧ total_changed st ≤ length files.
Proof.
  intros Hrun. split.
  - revert Hrun. apply (for_each_inv summary_inv); [|done].
    intros f st1 w1 st2 w2 _. apply process_inv.
  - change (total_changed st ≤
            total_changed {| total_changed := 0; total_hits := ∅ |} + length files).
    revert Hrun. generalize {| total_changed := 0; total_hits := ∅ |}. revert w.
    induction files as [|f files IH]; intros w st0.
    { rewrite for_each_nil. intros [= <- <-]. simpl. lia. }
    rewrite for_each_cons, io_bind_unfold.
    destruct (process a f st0 w) as [[st1|e] w1] eqn:Hp; [|done].
    intros ?%IH. apply process_account in Hp as (data & _ & ->).
    rewrite account_changed in *. simpl. case_decide; lia.
Qed.

End counters.

(** ** Outcomes of a run *)

Lemma clean_universal_newlines s : clean s → clean (universal_newlines s).
Proof.
  unfold clean. rewrite !Forall_forall.
  intros Hs c [?| ->]%universal_newlines_elem_of; [auto|].
  by apply ascii_not_SPECIAL.
Qed.

Section outcomes.
Context `{C : Codec}.
Implicit Types (a : args) (f : list (list N)) (st : summary) (w : world).

(** A write-back that returns has stored the whole encoded text in the
    file and has left no temporary file behind. *)
Lemma write_back_Ok_inv f new w w' :
  write_back f new w = (Ok (), w') →
  ∃ b, encode new = Some b
       ∧ fs w' = <[f := File b]> (delete (tmp_path f) (fs w))
       ∧ stdout w' = stdout w.
Proof.
  unfold write_back. destruct (with_suffix f _) as [tmp|] eqn:Htmp; [|done].
  apply with_suffix_tmp_Some in Htmp as ->.
  intros ([] & w1 & (b & Hb & Hfs & Hout)%write_text_Ok
          & (b' & Hsrc & ->)%replace_Ok_inv)%io_bind_Ok_inv.
  rewrite Hfs, lookup_insert_eq in Hsrc. injection Hsrc as <-.
  exists b. simpl. by rewrite Hfs, delete_insert_eq.
Qed.

(** C11. No-op stability: a file whose text holds no listed character is
    processed without any effect; nothing is printed, nothing is written
    and the counters keep their values. *)
Theorem process_clean a f st w data s :
  fs w !! f = Some (File data) → decode data = Some s → clean s →
  process a f st w = (Ok st, w).
Proof.
  intros Hf Hd Hc. apply (process_skip _ _ _ _ (universal_newlines s)).
  - by apply (read_text_File f data).
  - by apply clean_universal_newlines.
Qed.

(** Decode error: a file that is not valid in the encoding makes the
    step raise [UnicodeDecodeError] before anything is printed or
    written. *)
Lemma process_undecodable a f st w data :
  fs w !! f = Some (File data) → decode data = None →
  process a f st w = (Raise UnicodeDecodeError, w).
Proof. intros Hf Hd. by apply process_Raise, (read_text_undecodable f data). Qed.

Lemma main_unfold a w files :
  iter_files (root a) (ext a) w = (Ok files, w) →
  main a w =
    if decide (files = []) then
      (Ok 0, printed [py "No *" ++ ext a ++ py " files found under "
                      ++ path_str (root a)] w)
    else
      (st ← for_each files (process a) {| total_changed := 0; total_hits := ∅ |};
       report (length files) st;; mret 0) w.
Proof.
  intros Hfiles. unfold main. rewrite (io_bind_Ok _ _ _ _ _ Hfiles).
  by case_decide.
Qed.

(** C30. No partial success: when the step of some file raises, the run
    ends with that exception; the files after it are not read, no report
    is printed and the exit status is 1. *)
Theorem main_aborts a w files1 f files2 st1 w1 e w2 :
  iter_files (root a) (ext a) w = (Ok (files1 ++ f :: files2), w) →
  for_each files1 (process a) {| total_changed := 0; total_hits := ∅ |} w
    = (Ok st1, w1) →
  process a f st1 w1 = (Raise e, w2) →
  main a w = (Raise e, w2) ∧ exit_status (main a w).1 = 1.
Proof.
  intros Hfiles Hloop Hf. rewrite (main_unfold _ _ _ Hfiles).
  rewrite decide_False by (by destruct files1).
  by rewrite (io_bind_Raise _ _ _ e w2) by (by eapply for_each_Raise).
Qed.

(** C32. When no file is found the run prints one line saying so, no
    summary, touches nothing and returns 0. *)
Theorem main_no_files a w :
  iter_files (root a) (ext a) w = (Ok [], w) →
  main a w = (Ok 0, printed [py "No *" ++ ext a ++ py " files found under "
                             ++ path_str (root a)] w).
Proof. intros Hfiles. by rewrite (main_unfold _ _ [] Hfiles). Qed.

(** C31. A root that does not exist is no error: the run prints that no
    file was found, touches nothing and returns 0. *)
Theorem main_missing_root a w :
  glob_ext (ext a) → fs w !! root a = None →
  main a w = (Ok 0, printed [py "No *" ++ ext a ++ py " files found under "
                             ++ path_str (root a)] w).
Proof.
  intros Hext Hroot. rewrite (main_unfold _ _ []); [done|].
  apply iter_files_no_dir; [done | by rewrite Hroot].
Qed.

(** [main] returns nothing but 0: the exit status is 0 when it returns
    and 1 when it raises. *)
Lemma main_returns_0 a w n w' : main a w = (Ok n, w') → n = 0.
Proof.
  unfold main. intros (files & w1 & _ & Hm)%io_bind_Ok_inv. revert Hm.
  case_decide.
  - rewrite print_bind. by intros [= <- _].
  - intros (st & w2 & _ & (? & ? & _ & Hr)%io_bind_Ok_inv)%io_bind_Ok_inv.
    by injection Hr as <- _.
Qed.

End outcomes.

(** ** Modified files *)

Lemma clean_universal_newlines_iff s : clean (universal_newlines s) ↔ clean s.
Proof.
  split; [|apply clean_universal_newlines].
  unfold clean. rewrite !Forall_forall. intros Hs c Hc Hsp.
  apply (Hs c); [|done]. apply universal_newlines_keeps; [done|].
  intros ->. by apply (ascii_not_SPECIAL 13%N).
Qed.

Section modified.
Context `{C : Codec}.
Implicit Types (a : args) (f : list (list N)) (st : summary) (w : world).

(** C10. A file with a listed character, outside a dry run: the change is
    announced, the file then holds the encoding of the normalized text, no
    temporary file is left, and the counters account for the file. *)
Theorem process_changed a f st w data s b :
  dry_run a = false → name f ≠ [] → 47%N ∉ name f →
  fs w !! f = Some (File data) → decode data = Some s → ¬ clean s →
  fs w !! tmp_path f ≠ Some Dir → budget w = None →
  encode (normalized (soft_hyphen a) (universal_newlines s)) = Some b →
  process a f st w
  = (Ok (account (soft_hyphen a) (universal_newlines s) st),
     set_fs (λ m, <[f := File b]> (delete (tmp_path f) m))
            (printed [py "[CHANGED] " ++ path_str f] w)).
Proof.
  intros Hdry Hn Hsep Hf Hd Hc Htmp Hbud Hb.
  rewrite (process_unfold _ _ _ _ (universal_newlines s))
    by (by apply (read_text_File f data)).
  rewrite decide_False by (by rewrite clean_universal_newlines_iff).
  rewrite print_bind, Hdry, io_bind_unfold.
  by rewrite (write_back_Ok _ _ b) by (done || by exists data).
Qed.

(** A dry run of the same file: the change is announced and counted,
    and the world is otherwise as it was. *)
Lemma process_changed_dry_run a f st w data s :
  dry_run a = true →
  fs w !! f = Some (File data) → decode data = Some s → ¬ clean s →
  process a f st w
  = (Ok (account (soft_hyphen a) (universal_newlines s) st),
     printed [py "[CHANGED] " ++ path_str f] w).
Proof.
  intros Hdry Hf Hd Hc.
  rewrite (process_unfold _ _ _ _ (universal_newlines s))
    by (by apply (read_text_File f data)).
  rewrite decide_False by (by rewrite clean_universal_newlines_iff).
  by rewrite print_bind, Hdry.
Qed.

End modified.

Section stable.
Context `{C : Codec} `{!CodecLaws C}.
Implicit Types (a : args) (f : list (list N)) (st : summary) (w : world).

(** C12. A file that has been processed is stable: processing it again,
    in the world the first step left, prints nothing, writes nothing and
    counts nothing. *)
Theorem process_stable a f st w st' w' st2 :
  dry_run a = false → process a f st w = (Ok st', w') →
  process a f st2 w' = (Ok st2, w').
Proof.
  intros Hdry Hp. pose proof Hp as (data & Hr & _)%process_account.
  rewrite (process_unfold _ _ _ _ data) in Hp by done. revert Hp.
  case_decide as Hc.
  { intros [= <- <-]. by apply (process_skip _ _ _ _ data). }
  rewrite print_bind, Hdry.
  intros ([] & w2 & (b & Hb & Hfs & _)%write_back_Ok_inv & [= <- <-])%io_bind_Ok_inv.
  apply read_text_Ok in Hr as (_ & d & t & _ & _ & ->).
  apply decode_encode in Hb.
  apply (process_skip _ _ _ _ (normalized (soft_hyphen a) (universal_newlines t)));
    [|apply normalized_clean].
  rewrite <-normalized_universal_newlines at 1.
  apply (read_text_File f b); [by rewrite Hfs, lookup_insert_eq | done].
Qed.

End stable.

(** ** The file tree stays a tree *)

Section tree.
Context `{C : Codec}.
Implicit Types (a : args) (f : list (list N)) (st : summary) (w : world).

Lemma write_back_tree_like f new w :
  tree_like w → regular w f → tree_like (write_back f new w).2.
Proof.
  intros Hw [data Hf]. unfold write_back.
  destruct (with_suffix f _) as [tmp|] eqn:Htmp; [|done].
  pose proof (with_suffix_Some_ne _ _ _ Htmp) as Hne.
  apply with_suffix_tmp_Some in Htmp as ->.
  assert (fs w !! parent f = Some Dir) as Hpar by (apply Hw; [by rewrite Hf | done]).
  rewrite io_bind_unfold.
  pose proof (write_text_tree_like (tmp_path f) new w Hw (tmp_path_not_nil f)) as H1.
  rewrite parent_tmp_path in H1. specialize (H1 Hpar).
  pose proof (write_text_frame (tmp_path f) new w (parent f) (tmp_path_parent_ne f)) as Hfr.
  destruct (write_text (tmp_path f) new w) as [[[]|e] w1]; simpl in *; [|done].
  apply replace_tree_like; [done..|]. by rewrite Hfr.
Qed.

Lemma process_keeps_tree a f st : respects keeps_tree (process a f st).
Proof.
  intros w Hw.
  destruct (read_text f w) as [[data|e] w1] eqn:Hr;
    pose proof (read_text_pure f w) as Hw1; rewrite Hr in Hw1; simpl in Hw1; subst w1;
    [|by rewrite (process_Raise _ _ _ _ e)].
  rewrite (process_unfold _ _ _ _ data) by done. case_decide; [done|].
  rewrite print_bind. destruct (dry_run a); [done|]. rewrite io_bind_unfold.
  apply read_text_Ok in Hr as (_ & d & t & Hd & _).
  pose proof (write_back_tree_like f (normalized (soft_hyphen a) data)
                (printed [py "[CHANGED] " ++ path_str f] w) Hw) as Hwb.
  destruct (write_back f _ _) as [[[]|e] w2]; apply Hwb; by exists d.
Qed.

(** C29. The file tree stays a tree: if every node of the world lies in a
    directory before a run, the same holds after it, however the run
    ends; the temporary file is created beside its file and nothing is
    stored below a file. *)
Theorem main_keeps_tree a w : tree_like w → tree_like (main a w).2.
Proof.
  apply (main_respects keeps_tree);
    [apply print_keeps_tree | apply process_keeps_tree].
Qed.

End tree.
