(* ===== verification/Cli.v ===== *)
(** * The command line

    The first lines of [main] in [tools/normalize_hyphens.py] (lines
    88-96): the four options given to [argparse], [parse_args] on the
    arguments of the process, and [Path(args.root).resolve()].
    [parse_args] is the behaviour of Python 3.11's [argparse] for a
    parser with these options and no positional argument: an argument is
    classified ([parse_optional]) as a value, as an option (its name as
    written, or abbreviated to a prefix no other option shares, with or
    without [=value]) or as unknown; the arguments are then consumed from
    left to right ([consume]).  The arguments [argparse] treats specially
    and the model does not cover (the separator [--], single-dash
    arguments other than [-h]) make the result [NotModelled].
    [main_argv] is the whole of [main], from the arguments to the exit
    status. *)

From S2P Require Import Prelude Chars Normalize Format Summary FileSys Main.

#[local] Set Warnings "-clear-no-such-hyp".

(** ** The parser of lines 88-93 *)

(** The options: the four of lines 89-93 and the [-h]/[--help] every
    parser has. *)
Inductive opt : Set := OptHelp | OptRoot | OptExt | OptSoftHyphen | OptDryRun.

#[export] Instance opt_eq_dec : EqDecision opt.
Proof. solve_decision. Defined.

Definition option_string (o : opt) : pystr :=
  match o with
  | OptHelp => py "--help"
  | OptRoot => py "--root"
  | OptExt => py "--ext"
  | OptSoftHyphen => py "--soft-hyphen"
  | OptDryRun => py "--dry-run"
  end.

Definition long_options : list opt :=
  [OptHelp; OptRoot; OptExt; OptSoftHyphen; OptDryRun].

(** [choices=["hyphen", "remove"]] (line 91). *)
Definition choices : list pystr := [py "hyphen"; py "remove"].

(** The namespace [parse_args] returns. *)
Record namespace : Type := Namespace {
  ns_root : pystr;
  ns_ext : pystr;
  ns_soft_hyphen : pystr;
  ns_dry_run : bool;
}.

(** The defaults of lines 89-93. *)
Definition defaults : namespace :=
  {| ns_root := py "."; ns_ext := py ".tex"; ns_soft_hyphen := py "hyphen";
     ns_dry_run := false |}.

(** ** Classification of an argument *)

Inductive token : Type :=
  | Arg (s : pystr)
  | Opt (o : opt) (explicit : option pystr)
  | Unknown (s : pystr)
  | Unmodelled_arg.

#[export] Instance token_eq_dec : EqDecision token.
Proof. solve_decision. Defined.

(** [s.split("=", 1)]. *)
Fixpoint split_eq (s : pystr) : pystr * option pystr :=
  match s with
  | [] => ([], None)
  | c :: s' =>
      if decide (c = 61%N) then ([], Some s')
      else (c :: (split_eq s').1, (split_eq s').2)
  end.

(** The long options a prefix abbreviates. *)
Definition abbreviations (prefix : pystr) : list opt :=
  filter (λ o, prefix `prefix_of` option_string o) long_options.

(** What an argument is: a value when it does not start with a dash or
    is a dash alone; [-h]; a long option, exact or abbreviated, with its
    explicit value if it has one; a value again when it matches no option
    and holds a space; unknown otherwise. *)
Definition parse_optional (s : pystr) : token :=
  match s with
  | c :: c' :: _ =>
      if decide (c ≠ 45%N) then Arg s
      else if decide (c' ≠ 45%N) then
        if decide (s = py "-h") then Opt OptHelp None else Unmodelled_arg
      else if decide ((split_eq s).1 = py "--") then Unmodelled_arg
      else match abbreviations (split_eq s).1 with
           | [o] => Opt o (split_eq s).2
           | [] => if decide (32%N ∈ s) then Arg s else Unknown s
           | _ => Unmodelled_arg
           end
  | _ => Arg s
  end.

(** ** Consuming the arguments *)

Inductive parsed : Type :=
  | Parsed (ns : namespace)
  | Exit (status : nat)
  | NotModelled.

(** The state of the loop over the arguments: the namespace so far,
    whether an argument was left over, and the option that waits for its
    value. *)
Record pstate : Type := PState {
  ps_ns : namespace;
  ps_extras : bool;
  ps_pending : option opt;
}.

(** The action of an option on its value; [None] is an error
    ([invalid choice]). *)
Definition store (o : opt) (v : pystr) (n : namespace) : option namespace :=
  match o with
  | OptRoot =>
      Some {| ns_root := v; ns_ext := ns_ext n; ns_soft_hyphen := ns_soft_hyphen n;
              ns_dry_run := ns_dry_run n |}
  | OptExt =>
      Some {| ns_root := ns_root n; ns_ext := v; ns_soft_hyphen := ns_soft_hyphen n;
              ns_dry_run := ns_dry_run n |}
  | OptSoftHyphen =>
      if decide (v ∈ choices) then
        Some {| ns_root := ns_root n; ns_ext := ns_ext n; ns_soft_hyphen := v;
                ns_dry_run := ns_dry_run n |}
      else None
  | OptDryRun | OptHelp => None
  end.

Definition store_value (o : opt) (v : pystr) (st : pstate) : pstate + parsed :=
  match store o v (ps_ns st) with
  | Some n => inl {| ps_ns := n; ps_extras := ps_extras st; ps_pending := None |}
  | None => inr (Exit 2)
  end.

(** One argument: the new state, or the end of the parse ([--help], or
    an error, with exit status 2). *)
Definition parse_step (st : pstate) (tok : token) : pstate + parsed :=
  match ps_pending st with
  | Some o =>
      match tok with
      | Arg v => store_value o v st
      | _ => inr (Exit 2)
      end
  | None =>
      match tok with
      | Arg _ | Unknown _ =>
          inl {| ps_ns := ps_ns st; ps_extras := true; ps_pending := None |}
      | Unmodelled_arg => inr NotModelled
      | Opt OptHelp None => inr (Exit 0)
      | Opt OptDryRun None =>
          inl {| ps_ns := {| ns_root := ns_root (ps_ns st);
                             ns_ext := ns_ext (ps_ns st);
                             ns_soft_hyphen := ns_soft_hyphen (ps_ns st);
                             ns_dry_run := true |};
                 ps_extras := ps_extras st; ps_pending := None |}
      | Opt (OptHelp | OptDryRun) (Some _) => inr (Exit 2)
      | Opt o (Some v) => store_value o v st
      | Opt o None =>
          inl {| ps_ns := ps_ns st; ps_extras := ps_extras st; ps_pending := Some o |}
      end
  end.

Fixpoint consume (toks : list token) (st : pstate) : parsed :=
  match toks with
  | [] =>
      if decide (ps_pending st = None ∧ ps_extras st = false) then Parsed (ps_ns st)
      else Exit 2
  | tok :: toks' =>
      match parse_step st tok with
      | inl st' => consume toks' st'
      | inr r => r
      end
  end.

(** [ap.parse_args()] on the arguments [argv] (line 94). *)
Definition parse_args (argv : list pystr) : parsed :=
  if decide (Unmodelled_arg ∈ parse_optional <$> argv) then NotModelled
  else consume (parse_optional <$> argv)
         {| ps_ns := defaults; ps_extras := false; ps_pending := None |}.

(** A command line that denotes a namespace: every option with its
    value after [=], the flag when it is set. *)
Definition render (n : namespace) : list pystr :=
  [ py "--root=" ++ ns_root n; py "--ext=" ++ ns_ext n;
    py "--soft-hyphen=" ++ ns_soft_hyphen n ]
  ++ if ns_dry_run n then [py "--dry-run"] else [].

(** A component of a resolved path: a name that is not empty, not [.],
    not [..] and holds no separator. *)
Definition component (c : pystr) : Prop :=
  c ≠ [] ∧ c ≠ py "." ∧ c ≠ py ".." ∧ 47%N ∉ c.

#[export] Instance component_dec c : Decision (component c).
Proof. unfold component. apply _. Defined.

(** ** [Path(args.root).resolve()] (line 96) *)

(** [s.split("/")]. *)
Fixpoint split_slash (s : pystr) : list pystr :=
  match s with
  | [] => [[]]
  | c :: s' =>
      if decide (c = 47%N) then [] :: split_slash s'
      else match split_slash s' with
           | h :: t => (c :: h) :: t
           | [] => [[c]]
           end
  end.

(** One component: nothing for an empty one or [.], one level up for
    [..], one level down otherwise. *)
Definition resolve_step (p : list (list N)) (comp : pystr) : list (list N) :=
  if decide (comp = [] ∨ comp = py ".") then p
  else if decide (comp = py "..") then parent p
  else p ++ [comp].

(** The resolved path of [s] in the directory [cwd], without symbolic
    links; [None] for the strings the model does not cover (a root of
    exactly two slashes, a null character). *)
Definition resolve (cwd : list (list N)) (s : pystr) : option (list (list N)) :=
  if decide (0%N ∈ s ∨ (py "//" `prefix_of` s ∧ ¬ py "///" `prefix_of` s)) then None
  else Some (foldl resolve_step (if decide (py "/" `prefix_of` s) then [] else cwd)
                   (split_slash s)).

(** ** [main] from the arguments *)

Section main_argv.
Context `{C : Codec}.
Context (cwd : list (list N)) (help : pystr).

(** [main()] (lines 87-140), given the arguments of the process, the
    working directory and the help text [argparse] formats for the
    terminal.  [SystemExit(n)] raised by [argparse] is the status [n]:
    the entry point makes the same of both. *)
Definition main_argv (argv : list pystr) : io nat :=
  match parse_args argv with
  | Parsed n =>
      match resolve cwd (ns_root n) with
      | Some r =>
          main {| root := r; ext := ns_ext n; soft_hyphen := ns_soft_hyphen n;
                  dry_run := ns_dry_run n |}
      | None => raise Unmodelled
      end
  | Exit 0 => print help;; mret 0
  | Exit status => mret status
  | NotModelled => raise Unmodelled
  end.

End main_argv.

(** ** The namespace of a parse *)

(** A step ends the parse with an exit status, never with a namespace. *)
Lemma parse_step_stop st tok r :
  parse_step st tok = inr r → r = Exit 0 ∨ r = Exit 2 ∨ r = NotModelled.
Proof.
  unfold parse_step, store_value. repeat case_match; intros; simplify_eq; auto.
Qed.

(** A property of the namespace that every step keeps holds of the
    result. *)
Lemma consume_inv (I : namespace → Prop) toks st n :
  (∀ st tok st', I (ps_ns st) → parse_step st tok = inl st' → I (ps_ns st')) →
  I (ps_ns st) → consume toks st = Parsed n → I n.
Proof.
  intros Hstep. revert st. induction toks as [|tok toks IH]; intros st Hst; simpl.
  - case_decide; [|by intros ?]. by intros [= <-].
  - destruct (parse_step st tok) as [st'|r] eqn:Htok; [eauto|].
    by destruct (parse_step_stop _ _ _ Htok) as [->|[->| ->]].
Qed.

Lemma parse_step_inv (I : namespace → Prop) st tok st' :
  (∀ o v n n', I n → store o v n = Some n' → I n') →
  (∀ n, I n → I {| ns_root := ns_root n; ns_ext := ns_ext n;
                   ns_soft_hyphen := ns_soft_hyphen n; ns_dry_run := true |}) →
  I (ps_ns st) → parse_step st tok = inl st' → I (ps_ns st').
Proof.
  intros Hstore Hdry Hst. unfold parse_step, store_value.
  destruct (ps_pending st) as [o|], tok as [v|[] [v|]|v|];
    repeat case_match; intros; simplify_eq; simpl; eauto.
Qed.

(** C26. The choices of [--soft-hyphen] are enforced: whatever the
    arguments, the mode of a namespace [parse_args] returns is ["hyphen"]
    or ["remove"], so [normalize_text] is never called from the command
    line with another mode. *)
Theorem parse_args_choices argv n :
  parse_args argv = Parsed n → ns_soft_hyphen n ∈ choices.
Proof.
  unfold parse_args. case_decide; [done|].
  apply (consume_inv (λ n, ns_soft_hyphen n ∈ choices)); [|by left].
  intros st tok st'. apply (parse_step_inv (λ n, ns_soft_hyphen n ∈ choices)); [|done].
  intros [] v m m' Hm; simpl; try case_decide; intros; by simplify_eq/=.
Qed.

(** Once [--dry-run] was seen the flag stays set. *)
Lemma consume_dry_run toks st n :
  Opt OptDryRun None ∈ toks → consume toks st = Parsed n → ns_dry_run n = true.
Proof.
  revert st. induction toks as [|tok toks IH]; intros st; [by intros ?%elem_of_nil|].
  intros [<-|Hin]%elem_of_cons; simpl.
  - unfold parse_step. destruct (ps_pending st); [done|].
    apply (consume_inv (λ n, ns_dry_run n = true)); [|done].
    intros st1 tok st2. apply (parse_step_inv (λ n, ns_dry_run n = true)); [|done].
    intros [] v m m' Hm; simpl; try case_decide; intros; by simplify_eq/=.
  - destruct (parse_step st tok) as [st'|r] eqn:Htok; [by apply IH|].
    by destruct (parse_step_stop _ _ _ Htok) as [->|[->| ->]].
Qed.

Lemma parse_args_dry_run argv n :
  py "--dry-run" ∈ argv → parse_args argv = Parsed n → ns_dry_run n = true.
Proof.
  intros Hin. unfold parse_args. case_decide; [done|]. apply consume_dry_run.
  apply list_elem_of_fmap. by exists (py "--dry-run").
Qed.

(** The exit statuses of [argparse]: 0 after [--help], 2 after an
    error. *)
Lemma consume_Exit toks st status :
  consume toks st = Exit status → status = 0 ∨ status = 2.
Proof.
  revert st. induction toks as [|tok toks IH]; intros st; simpl.
  - case_decide; [done|]. intros [= <-]. by right.
  - destruct (parse_step st tok) as [st'|r] eqn:Htok; [by apply IH|].
    destruct (parse_step_stop _ _ _ Htok) as [->|[->| ->]]; intros; simplify_eq; auto.
Qed.

Lemma parse_args_Exit argv status :
  parse_args argv = Exit status → status = 0 ∨ status = 2.
Proof. unfold parse_args. case_decide; [done|]. apply consume_Exit. Qed.

(** ** Round trip *)

Lemma parse_optional_render n :
  parse_optional <$> render n
  = [ Opt OptRoot (Some (ns_root n)); Opt OptExt (Some (ns_ext n));
      Opt OptSoftHyphen (Some (ns_soft_hyphen n)) ]
    ++ if ns_dry_run n then [Opt OptDryRun None] else [].
Proof. unfold render. by destruct (ns_dry_run n). Qed.

Lemma store_value_choice v st :
  v ∈ choices →
  store_value OptSoftHyphen v st
  = inl {| ps_ns := {| ns_root := ns_root (ps_ns st); ns_ext := ns_ext (ps_ns st);
                       ns_soft_hyphen := v; ns_dry_run := ns_dry_run (ps_ns st) |};
           ps_extras := ps_extras st; ps_pending := None |}.
Proof. intros Hv. unfold store_value, store. by rewrite decide_True. Qed.

(** C28. Round trip of the command line: the arguments that spell a
    namespace out, each option with its value after [=] and the flag when
    it is set, parse to that namespace, whatever the root and the
    extension are (a leading dash included), provided the mode is one of
    the choices. *)
Theorem parse_args_render n :
  ns_soft_hyphen n ∈ choices → parse_args (render n) = Parsed n.
Proof.
  intros Hmode. unfold parse_args. rewrite parse_optional_render.
  rewrite decide_False by (destruct (ns_dry_run n); set_solver).
  destruct n as [r e m []];
    cbn [consume parse_step store_value store ps_pending ps_ns ps_extras app
         ns_root ns_ext ns_soft_hyphen ns_dry_run] in *;
    by rewrite store_value_choice.
Qed.

(** ** The resolved root *)

Lemma split_slash_cons s : ∃ h t, split_slash s = h :: t.
Proof. destruct s as [|c s]; simpl; repeat case_match; eauto. Qed.

Lemma split_slash_no_slash s : Forall (λ c, 47%N ∉ c) (split_slash s).
Proof.
  induction s as [|c s IH]; simpl; [repeat constructor; set_solver|].
  case_decide; [constructor; [set_solver|done]|].
  destruct (split_slash s) as [|h t]; [repeat constructor; set_solver|].
  apply Forall_cons in IH as [Hh Ht]. constructor; [set_solver|done].
Qed.

Lemma resolve_step_component p c :
  Forall component p → 47%N ∉ c → Forall component (resolve_step p c).
Proof.
  intros Hp Hc. unfold resolve_step. repeat case_decide; [done | by apply Forall_take|].
  apply Forall_app. split; [done|]. repeat constructor; tauto.
Qed.

Lemma foldl_resolve_step p l :
  Forall component p → Forall (λ c, 47%N ∉ c) l →
  Forall component (foldl resolve_step p l).
Proof.
  intros Hp Hl. revert p Hp. induction Hl as [|c l Hc _ IH]; intros p Hp; [done|].
  simpl. by apply IH, resolve_step_component.
Qed.

(** The root [main] works with is a path of the model: when the working
    directory is a list of components, so is the resolved root. *)
Lemma resolve_components cwd s p :
  Forall component cwd → resolve cwd s = Some p → Forall component p.
Proof.
  unfold resolve. case_decide; [done|]. intros Hcwd [= <-].
  apply foldl_resolve_step; [by case_decide | apply split_slash_no_slash].
Qed.

(** ** The run from the command line *)

Section run.
Context `{C : Codec}.
Context (cwd : list (list N)) (help : pystr).

(** C27. [--dry-run] on the command line: when the arguments hold
    [--dry-run], no file is created, changed or removed and nothing is
    written, whatever the other arguments are and however the run ends
    (normally, with an exception, or in [argparse] with a usage
    error). *)
Theorem main_argv_dry_run argv w :
  py "--dry-run" ∈ argv →
  fs (main_argv cwd help argv w).2 = fs w
  ∧ budget (main_argv cwd help argv w).2 = budget w.
Proof.
  intros Hdry. unfold main_argv.
  destruct (parse_args argv) as [n|[|status]|] eqn:Hparse; [|done..].
  destruct (resolve cwd (ns_root n)) as [r|]; [|done].
  apply (main_respects same_files);
    [apply print_pure_files | intros; apply process_dry_run].
  simpl. by eapply parse_args_dry_run.
Qed.

(** The exit status of the script: 2 exactly for a usage error, 0 or 1
    otherwise. *)
Lemma main_argv_status argv w :
  exit_status (main_argv cwd help argv w).1 ∈ [0; 1; 2]
  ∧ (exit_status (main_argv cwd help argv w).1 = 2 ↔ parse_args argv = Exit 2).
Proof.
  unfold main_argv. destruct (parse_args argv) as [n|status|] eqn:Hparse.
  - destruct (resolve cwd (ns_root n)) as [r|]; [|split; [set_solver|done]].
    destruct (main _ w) as [[k|e] w'] eqn:Hm; [|split; [set_solver|done]].
    apply main_returns_0 in Hm as ->. split; [set_solver|done].
  - destruct (parse_args_Exit _ _ Hparse) as [-> | ->]; (split; [set_solver|done]).
  - split; [set_solver|done].
Qed.

End run.
