(* ===== verification/Run.v ===== *)
(** * A run as a function of the file tree

    The specification of a whole run of [tools/normalize_hyphens.py] that
    meets no error: what the loop of [main] (lines 106-124) makes of the
    counters and of the world, file by file, written as a pure function
    ([step_spec], [loop_spec]), and the theorem that [main] computes it
    when the texts can be read and the temporary names are free
    ([main_refines]). *)

From S2P Require Import Prelude Chars Normalize Format Summary FileSys Main.

#[local] Set Warnings "-clear-no-such-hyp".

Section run_spec.
Context `{C : Codec}.
Implicit Types (a : args) (f g : list (list N)) (s : pystr) (st : summary)
  (w : world).

(** ** The specification *)

(** The text of a file, as [read_text] returns it. *)
Definition text_of (w : world) (f : list (list N)) : option pystr :=
  match fs w !! f with
  | Some (File data) => universal_newlines <$> decode data
  | _ => None
  end.

(** The world after the normalized text of [f] has been stored, unless
    the run is a dry run. *)
Definition stored (a : args) (f : list (list N)) (s : pystr) (w : world) : world :=
  if dry_run a then w
  else set_fs (λ m, <[f := File (default [] (encode (normalized (soft_hyphen a) s)))]>
                      (delete (tmp_path f) m)) w.

(** What the step of a file with text [s] makes of the counters and of
    the world. *)
Definition step_spec (a : args) (f : list (list N)) (s : pystr) (st : summary)
  (w : world) : summary * world :=
  if decide (clean s) then (st, w)
  else (account (soft_hyphen a) s st,
        stored a f s (printed [py "[CHANGED] " ++ path_str f] w)).

(** The steps of the files, in order. *)
Fixpoint loop_spec (a : args) (files : list (list (list N))) (texts : list pystr)
  (st : summary) (w : world) : summary * world :=
  match files, texts with
  | f :: files', s :: texts' =>
      loop_spec a files' texts' (step_spec a f s st w).1 (step_spec a f s st w).2
  | _, _ => (st, w)
  end.

(** The write-back of [f] cannot fail: the run is a dry run, or [f] has a
    name, no directory bears its temporary name and there is room. *)
Definition writable (a : args) (w : world) (f : list (list N)) : Prop :=
  dry_run a = true
  ∨ (name f ≠ [] ∧ (47%N ∉ name f) ∧ fs w !! tmp_path f ≠ Some Dir
     ∧ budget w = None).

(** The files can be processed one after the other: each has a text, none
    occurs twice, none bears the temporary name of another, and each can
    be written back. *)
Definition ready (a : args) (w : world) (files : list (list (list N)))
  (texts : list pystr) : Prop :=
  Forall2 (λ f s, text_of w f = Some s) files texts
  ∧ NoDup files
  ∧ (∀ f g, f ∈ files → g ∈ files → f ≠ tmp_path g)
  ∧ Forall (writable a w) files.

#[export] Instance writable_dec a w f : Decision (writable a w f).
Proof. unfold writable. apply _. Defined.

Lemma ready_Forall a w files texts :
  ready a w files texts ↔
    Forall2 (λ f s, text_of w f = Some s) files texts
    ∧ NoDup files
    ∧ Forall (λ f, Forall (λ g, f ≠ tmp_path g) files) files
    ∧ Forall (writable a w) files.
Proof.
  unfold ready. split; intros (H1 & H2 & H3 & H4); split_and!; try done.
  - apply Forall_forall. intros f Hf. apply Forall_forall. intros g Hg. by apply H3.
  - intros f g Hf Hg. rewrite Forall_forall in H3. specialize (H3 f Hf).
    rewrite Forall_forall in H3. by apply H3.
Qed.

#[export] Instance ready_dec a w files texts : Decision (ready a w files texts).
Proof.
  refine (cast_if (decide
    (Forall2 (λ f s, text_of w f = Some s) files texts
     ∧ NoDup files
     ∧ Forall (λ f, Forall (λ g, f ≠ tmp_path g) files) files
     ∧ Forall (writable a w) files)));
    by rewrite ready_Forall.
Defined.

(** ** The step *)

Lemma read_text_text_of f w s : text_of w f = Some s → read_text f w = (Ok s, w).
Proof.
  unfold text_of, read_text. destruct (fs w !! f) as [[data|]|]; [|done..].
  destruct (decode data); [|done]. by intros [= <-].
Qed.

Lemma text_of_regular f w s : text_of w f = Some s → regular w f.
Proof.
  unfold text_of, regular. destruct (fs w !! f) as [[data|]|]; [|done..]. eauto.
Qed.

Lemma text_of_ext w w' f : fs w' !! f = fs w !! f → text_of w' f = text_of w f.
Proof. unfold text_of. by intros ->. Qed.

End run_spec.

Section refinement.
Context `{C : Codec} `{!CodecLaws C}.
Implicit Types (a : args) (f g : list (list N)) (s : pystr) (st : summary)
  (w : world).

(** A text that was read can be written back, normalized. *)
Lemma text_of_encodable mode w f s :
  text_of w f = Some s → is_Some (encode (normalized mode s)).
Proof.
  unfold text_of. destruct (fs w !! f) as [[data|]|]; [|done..].
  destruct (decode data) as [t|] eqn:Ht; [|done]. intros [= <-].
  destruct (rewrite_of_total mode data t Ht) as (b & t' & Ht' & Hb).
  exists b. congruence.
Qed.

Lemma process_step a f s st w :
  text_of w f = Some s → writable a w f →
  process a f st w = (Ok (step_spec a f s st w).1, (step_spec a f s st w).2).
Proof.
  intros Hs Hwr.
  rewrite (process_unfold _ _ _ _ s) by (by apply read_text_text_of).
  unfold step_spec, stored. case_decide; [done|]. rewrite print_bind.
  destruct (dry_run a) eqn:Hdry; [done|].
  destruct Hwr as [?|(Hn & Hsep & Htmp & Hbud)]; [congruence|].
  destruct (text_of_encodable (soft_hyphen a) w f s Hs) as [b Hb].
  apply text_of_regular in Hs.
  by rewrite io_bind_unfold, (write_back_Ok _ _ b), Hb.
Qed.

(** ** What a step leaves untouched *)

Lemma step_spec_lookup_ne a f s st w g :
  (dry_run a = false → g ≠ f ∧ g ≠ tmp_path f) →
  fs (step_spec a f s st w).2 !! g = fs w !! g.
Proof.
  intros Hg. unfold step_spec, stored. case_decide; [done|].
  destruct (dry_run a); [done|]. destruct (Hg eq_refl). simpl.
  by rewrite lookup_insert_ne, lookup_delete_ne.
Qed.

Lemma writable_not_nil a w f : dry_run a = false → writable a w f → f ≠ [].
Proof. intros Hdry [?|[Hn _]]; [congruence|]. by intros ->. Qed.

Lemma step_spec_budget a f s st w : budget (step_spec a f s st w).2 = budget w.
Proof. unfold step_spec, stored. case_decide; [done|]. by destruct (dry_run a). Qed.

Lemma writable_ext a w w' f :
  fs w' !! tmp_path f = fs w !! tmp_path f → budget w' = budget w →
  writable a w f → writable a w' f.
Proof. unfold writable. intros -> ->. done. Qed.

Lemma ready_step a f files s texts st w :
  ready a w (f :: files) (s :: texts) →
  ready a (step_spec a f s st w).2 files texts.
Proof.
  intros (Htexts & [Hf Hnd]%NoDup_cons & Htmp & Hwr). split_and!; [| done | |].
  - apply Forall2_cons in Htexts as [_ Htexts].
    apply Forall2_same_length_lookup in Htexts as [Hlen Htexts].
    apply Forall2_same_length_lookup. split; [done|]. intros i g t Hg Ht.
    rewrite <-(Htexts i g t Hg Ht). apply list_elem_of_lookup_2 in Hg.
    apply text_of_ext, step_spec_lookup_ne. intros _.
    split; [set_solver | apply Htmp; set_solver].
  - intros g1 g2 ? ?. apply Htmp; set_solver.
  - apply Forall_cons in Hwr as [Hwf Hwr]. rewrite Forall_forall in *.
    intros g Hg. eapply writable_ext, Hwr, Hg; [|apply step_spec_budget].
    apply step_spec_lookup_ne. intros Hdry. split.
    + intros Heq. apply (Htmp f g); set_solver.
    + assert (g ≠ []) by (eapply writable_not_nil; [done | by apply Hwr]).
      assert (f ≠ []) by (by eapply writable_not_nil).
      intros Heq%tmp_path_inj; [set_solver | done..].
Qed.

(** ** The loop and the run *)

Lemma loop_refines a files texts st w :
  ready a w files texts →
  for_each files (process a) st w
  = (Ok (loop_spec a files texts st w).1, (loop_spec a files texts st w).2).
Proof.
  revert texts st w. induction files as [|f files IH]; intros texts st w Hr.
  { rewrite for_each_nil. by destruct texts. }
  destruct texts as [|s texts]; [by destruct Hr as [?%Forall2_length _]|].
  pose proof Hr as (Htexts & _ & _ & Hwr).
  apply Forall2_cons in Htexts as [Hs _]. apply Forall_cons in Hwr as [Hw _].
  rewrite for_each_cons, (io_bind_Ok _ _ _ _ _ (process_step a f s st w Hs Hw)).
  simpl. apply IH. by apply (ready_step a f files s texts st w).
Qed.

(** C5. A run that meets no error computes its specification: when the
    files found have texts, bear no temporary name of one another and can
    be written back, [main] returns 0 and leaves the world [loop_spec]
    describes (every file with a listed character rewritten, unless the
    run is a dry run, and announced, the others untouched) followed by the
    report for the counters [loop_spec] describes. *)
Theorem main_refines a w files texts :
  iter_files (root a) (ext a) w = (Ok files, w) → files ≠ [] →
  ready a w files texts →
  let r := loop_spec a files texts {| total_changed := 0; total_hits := ∅ |} w in
  main a w = (Ok 0, printed (report_lines (length files) r.1) r.2).
Proof.
  intros Hfiles Hne Hr r. rewrite (main_unfold _ _ _ Hfiles).
  rewrite decide_False by done.
  rewrite (io_bind_Ok _ _ _ _ _ (loop_refines a files texts _ w Hr)).
  by rewrite io_bind_unfold, report_eq.
Qed.

End refinement.

(** ** The counters of a run *)

(** The counters after the files with the given texts. *)
Definition counters (mode : pystr) (texts : list pystr) (st : summary) : summary :=
  foldl (λ st s, account mode s st) st texts.

Lemma loop_spec_counters `{C : Codec} a files texts st w :
  length files = length texts →
  (loop_spec a files texts st w).1 = counters (soft_hyphen a) texts st.
Proof.
  revert texts st w. induction files as [|f files IH]; intros [|s texts] st w Hlen;
    simplify_eq/=; [done|].
  rewrite IH by done. unfold step_spec, account. by case_decide.
Qed.

Lemma account_hits mode s st :
  total_hits (account mode s st) = hits_sum (total_hits st) (normalize_text s mode).2.
Proof.
  unfold account. case_decide as Hc; [|done].
  apply (normalize_text_counts_empty s mode) in Hc. by rewrite Hc, hits_sum_empty_r.
Qed.

(** The counters a run reports: the number of modified files is the
    number of texts with a listed character, and the dictionary of hits
    is the dictionary [normalize_text] returns for all the texts
    concatenated, whatever the order of the files. *)
Lemma counters_spec mode texts :
  counters mode texts {| total_changed := 0; total_hits := ∅ |}
  = {| total_changed := length (filter (λ s, ¬ clean s) texts);
       total_hits := (normalize_text (concat texts) mode).2 |}.
Proof.
  cut (∀ st, counters mode texts st
             = {| total_changed := total_changed st
                                   + length (filter (λ s, ¬ clean s) texts);
                  total_hits := hits_sum (total_hits st)
                                  (normalize_text (concat texts) mode).2 |}).
  { intros ->. simpl. by rewrite hits_sum_empty_l. }
  induction texts as [|s texts IH]; intros st.
  { replace (normalize_text (concat []) mode).2 with (∅ : gmap N nat) by done.
    rewrite hits_sum_empty_r. destruct st. simpl. f_equal. lia. }
  unfold counters in *. cbn [foldl]. rewrite IH, account_hits, account_changed.
  rewrite concat_cons, normalize_text_app_hits, hits_sum_assoc, filter_cons.
  f_equal. destruct (decide (clean s)); [rewrite decide_False by tauto|
    rewrite decide_True by done]; simpl; lia.
Qed.

(** ** What a run prints *)

(** The lines that announce the modified files. *)
Fixpoint announced (files : list (list (list N))) (texts : list pystr)
  : list pystr :=
  match files, texts with
  | f :: files', s :: texts' =>
      (if decide (clean s) then [] else [py "[CHANGED] " ++ path_str f])
      ++ announced files' texts'
  | _, _ => []
  end.

Lemma step_spec_stdout `{C : Codec} a f s st w :
  stdout (step_spec a f s st w).2
  = stdout w ++ if decide (clean s) then [] else [py "[CHANGED] " ++ path_str f].
Proof.
  unfold step_spec, stored.
  case_decide; [by rewrite app_nil_r|]. by destruct (dry_run a).
Qed.

Lemma loop_spec_stdout `{C : Codec} a files texts st w :
  stdout (loop_spec a files texts st w).2 = stdout w ++ announced files texts.
Proof.
  revert texts st w. induction files as [|f files IH]; intros [|s texts] st w;
    rewrite ?app_nil_r; try done.
  cbn [loop_spec announced]. by rewrite IH, step_spec_stdout, <-app_assoc.
Qed.

Section output.
Context `{C : Codec} `{!CodecLaws C}.

(** C25. What a run that meets no error prints and returns: a line for
    every file whose text holds a listed character, in the order of the
    files, then the summary with the number of files found, the number of
    those with a listed character and the table of hits
    [normalize_text] would return for all the texts concatenated; the
    status is 0. *)
Theorem main_output a w files texts :
  iter_files (root a) (ext a) w = (Ok files, w) → files ≠ [] →
  ready a w files texts →
  (main a w).1 = Ok 0
  ∧ stdout (main a w).2
    = stdout w ++ announced files texts
      ++ report_lines (length files)
           {| total_changed := length (filter (λ s, ¬ clean s) texts);
              total_hits := (normalize_text (concat texts) (soft_hyphen a)).2 |}.
Proof.
  intros Hfiles Hne Hr. pose proof Hr as [Hlen%Forall2_length _].
  rewrite (main_unfold _ _ _ Hfiles), decide_False by done.
  rewrite (io_bind_Ok _ _ _ _ _ (loop_refines a files texts _ w Hr)).
  rewrite io_bind_unfold, report_eq. split; [done|]. simpl.
  by rewrite loop_spec_stdout, loop_spec_counters, counters_spec, app_assoc.
Qed.

End output.
