(* ===== verification/Errors.v ===== *)
(** * The errors of a run

    Which exception the write-back and the per-file step of
    [tools/normalize_hyphens.py] (lines 107-121) raise, under which
    condition of the world, and what they leave behind.  The outcomes of
    [write_back] are given as a relation with one rule per outcome
    ([wb_outcome]), which the function is shown to compute; the theorems
    on [process] and [main] follow from it. *)

From S2P Require Import Prelude Chars Normalize Format Summary FileSys Main Run.

#[local] Set Warnings "-clear-no-such-hyp".

(** ** Room on the disk *)

(** There is room for [k] more bytes. *)
Definition room (k : nat) (w : world) : Prop :=
  match budget w with Some n => k ≤ n | None => True end.

#[export] Instance room_dec k w : Decision (room k w).
Proof. unfold room. destruct (budget w); apply _. Defined.

(** The world after [k] bytes have been written. *)
Definition spend (k : nat) (w : world) : world :=
  {| fs := fs w; stdout := stdout w; budget := (λ n, n - k) <$> budget w |}.

(** A path [with_suffix] accepts: it has a name, and its suffix holds no
    separator. *)
Definition named (f : list (list N)) : Prop := name f ≠ [] ∧ 47%N ∉ suffix f.

#[export] Instance named_dec f : Decision (named f).
Proof. unfold named. apply _. Defined.

Section outcomes.
Context `{C : Codec}.
Implicit Types (f : list (list N)) (new : pystr) (w : world).

(** ** The outcomes of the write-back *)

(** One rule per way lines 119-121 can end. *)
Inductive wb_outcome (f : list (list N)) (new : pystr) (w : world)
  : result () → world → Prop :=
  | wb_no_name :
      ¬ named f →
      wb_outcome f new w (Raise ValueError) w
  | wb_tmp_is_dir :
      named f → fs w !! tmp_path f = Some Dir →
      wb_outcome f new w (Raise IsADirectoryError) w
  | wb_not_encodable :
      named f → fs w !! tmp_path f ≠ Some Dir → encode new = None →
      wb_outcome f new w (Raise UnicodeEncodeError)
        (set_fs <[tmp_path f := File []]> w)
  | wb_disk_full b n :
      named f → fs w !! tmp_path f ≠ Some Dir → encode new = Some b →
      budget w = Some n → n < length b →
      wb_outcome f new w (Raise OSError)
        {| fs := <[tmp_path f := File (take n b)]> (fs w); stdout := stdout w;
           budget := Some 0 |}
  | wb_target_is_dir b :
      named f → fs w !! tmp_path f ≠ Some Dir → encode new = Some b →
      room (length b) w → fs w !! f = Some Dir →
      wb_outcome f new w (Raise IsADirectoryError)
        (set_fs <[tmp_path f := File b]> (spend (length b) w))
  | wb_done b :
      named f → fs w !! tmp_path f ≠ Some Dir → encode new = Some b →
      room (length b) w → fs w !! f ≠ Some Dir →
      wb_outcome f new w (Ok ())
        (set_fs (λ m, <[f := File b]> (delete (tmp_path f) m))
                (spend (length b) w)).

(** ** The calls, by outcome *)

Lemma with_suffix_tmp_named f :
  with_suffix f (suffix f ++ py ".tmp")
  = if decide (named f) then Some (tmp_path f) else None.
Proof.
  case_decide as Hn; [destruct Hn; by apply with_suffix_tmp_ok|].
  unfold with_suffix. destruct (decide (47%N ∈ suffix f)) as [Hs|Hs].
  - by rewrite decide_True by set_solver.
  - assert (name f = []) by (apply dec_stable; intros ?; by apply Hn).
    by repeat case_decide.
Qed.

Lemma write_text_room p s b w :
  fs w !! p ≠ Some Dir → encode s = Some b → room (length b) w →
  write_text p s w = (Ok (), set_fs <[p := File b]> (spend (length b) w)).
Proof.
  unfold write_text, room, spend, set_fs. intros Hp -> Hroom.
  destruct (fs w !! p) as [[|]|], (budget w) as [n|]; simpl in *;
    rewrite ?decide_True by done; done.
Qed.

Lemma write_text_no_room p s b n w :
  fs w !! p ≠ Some Dir → encode s = Some b → budget w = Some n → n < length b →
  write_text p s w
  = (Raise OSError, {| fs := <[p := File (take n b)]> (fs w); stdout := stdout w;
                       budget := Some 0 |}).
Proof.
  unfold write_text. intros Hp -> -> Hn.
  destruct (fs w !! p) as [[|]|]; rewrite ?decide_False by lia; done.
Qed.

Lemma write_text_not_encodable p s w :
  fs w !! p ≠ Some Dir → encode s = None →
  write_text p s w = (Raise UnicodeEncodeError, set_fs <[p := File []]> w).
Proof. unfold write_text. intros Hp ->. by destruct (fs w !! p) as [[|]|]. Qed.

Lemma write_text_Dir p s w :
  fs w !! p = Some Dir → write_text p s w = (Raise IsADirectoryError, w).
Proof. unfold write_text. by intros ->. Qed.

Lemma replace_Dir src dst b w :
  fs w !! src = Some (File b) → fs w !! dst = Some Dir →
  replace src dst w = (Raise IsADirectoryError, w).
Proof. unfold replace. by intros -> ->. Qed.

(** ** The function computes the relation *)

Lemma wb_outcome_write_back f new w r w' :
  wb_outcome f new w r w' → write_back f new w = (r, w').
Proof.
  pose proof (tmp_path_ne f) as Hne.
  intros Ho. unfold write_back. rewrite with_suffix_tmp_named.
  destruct Ho; rewrite ?decide_True, ?decide_False by done; try done;
    rewrite io_bind_unfold.
  - by rewrite write_text_Dir.
  - by rewrite write_text_not_encodable.
  - by rewrite (write_text_no_room _ _ b n).
  - rewrite (write_text_room _ _ b), (replace_Dir _ _ b); simpl;
      by rewrite ?lookup_insert_eq, ?lookup_insert_ne.
  - rewrite (write_text_room _ _ b), (replace_Ok _ _ b) by
      (simpl; by rewrite ?lookup_insert_eq, ?lookup_insert_ne).
    unfold set_fs. simpl. by rewrite delete_insert_eq.
Qed.

Lemma write_back_wb_outcome f new w :
  wb_outcome f new w (write_back f new w).1 (write_back f new w).2.
Proof.
  assert (∀ r w', wb_outcome f new w r w' →
            wb_outcome f new w (write_back f new w).1 (write_back f new w).2) as Hvia
    by (intros r w' Ho; by rewrite (wb_outcome_write_back _ _ _ _ _ Ho)).
  destruct (decide (named f)) as [Hn|Hn]; [|by eapply Hvia, wb_no_name].
  destruct (decide (fs w !! tmp_path f = Some Dir)) as [Ht|Ht];
    [by eapply Hvia, wb_tmp_is_dir|].
  destruct (encode new) as [b|] eqn:Hb; [|by eapply Hvia, wb_not_encodable].
  destruct (decide (room (length b) w)) as [Hr|Hr].
  - destruct (decide (fs w !! f = Some Dir));
      [by eapply Hvia, wb_target_is_dir | by eapply Hvia, wb_done].
  - unfold room in Hr. destruct (budget w) as [k|] eqn:Hk; [|done].
    eapply Hvia, (wb_disk_full _ _ _ b k); [done..|lia].
Qed.

Lemma write_back_outcomes_aux f new w r w' :
  write_back f new w = (r, w') → wb_outcome f new w r w'.
Proof.
  intros Hwb. pose proof (write_back_wb_outcome f new w) as Ho.
  by rewrite Hwb in Ho.
Qed.

(** C14. The outcomes of the write-back: [write_back] ends in exactly one
    of six ways, each determined by the world: [ValueError] for a path
    without a name, [IsADirectoryError] for a directory under the temporary
    name or under the name of the file, [UnicodeEncodeError] for a text
    that cannot be encoded, [OSError] with a truncated temporary file when
    there is no room, and otherwise the file replaced and the temporary
    name free. *)
Theorem write_back_outcomes f new w r w' :
  write_back f new w = (r, w') ↔ wb_outcome f new w r w'.
Proof.
  split; [apply write_back_outcomes_aux | apply wb_outcome_write_back].
Qed.

End outcomes.

(** ** The errors of the per-file step *)

Section step_errors.
Context `{C : Codec}.
Implicit Types (a : args) (f : list (list N)) (st : summary) (w : world).

(** One rule per way the step of a file can raise: the read fails, or the
    write-back of a modified file does. *)
Inductive process_error (a : args) (f : list (list N)) (w : world)
  : exn → world → Prop :=
  | pe_missing :
      fs w !! f = None →
      process_error a f w FileNotFoundError w
  | pe_directory :
      fs w !! f = Some Dir →
      process_error a f w IsADirectoryError w
  | pe_undecodable data :
      fs w !! f = Some (File data) → decode data = None →
      process_error a f w UnicodeDecodeError w
  | pe_write_back s e w' :
      text_of w f = Some s → ¬ clean s → dry_run a = false →
      wb_outcome f (normalized (soft_hyphen a) s)
                 (printed [py "[CHANGED] " ++ path_str f] w) (Raise e) w' →
      process_error a f w e w'.

Lemma read_text_None f w : fs w !! f = None → read_text f w = (Raise FileNotFoundError, w).
Proof. unfold read_text. by intros ->. Qed.

Lemma read_text_Dir f w : fs w !! f = Some Dir → read_text f w = (Raise IsADirectoryError, w).
Proof. unfold read_text. by intros ->. Qed.

Lemma text_of_None f w :
  text_of w f = None →
  fs w !! f = None ∨ fs w !! f = Some Dir
  ∨ ∃ data, fs w !! f = Some (File data) ∧ decode data = None.
Proof.
  unfold text_of. destruct (fs w !! f) as [[data|]|]; [|by auto..].
  destruct (decide (decode data = None)) as [?|?]; [by eauto|].
  by destruct (decode data).
Qed.

Lemma process_error_process a f st w e w' :
  process_error a f w e w' → process a f st w = (Raise e, w').
Proof.
  intros [Hf|Hf|data Hf Hd|s e' w1 Hs Hc Hdry Hwb].
  - by apply process_Raise, read_text_None.
  - by apply process_Raise, read_text_Dir.
  - by apply process_Raise, (read_text_undecodable f data).
  - rewrite (process_unfold _ _ _ _ s) by (by apply read_text_text_of).
    rewrite decide_False by done. rewrite print_bind, Hdry.
    by rewrite (io_bind_Raise _ _ _ e' w1) by (by apply wb_outcome_write_back).
Qed.

Lemma process_Raise_error a f st w e w' :
  process a f st w = (Raise e, w') → process_error a f w e w'.
Proof.
  intros Hp. destruct (text_of w f) as [s|] eqn:Hs.
  - rewrite (process_unfold _ _ _ _ s) in Hp by (by apply read_text_text_of).
    revert Hp. case_decide as Hc; [done|]. rewrite print_bind.
    destruct (dry_run a) eqn:Hdry; [done|]. rewrite io_bind_unfold.
    destruct (write_back f _ _) as [[[]|e1] w1] eqn:Hwb; [done|].
    intros [= <- <-]. apply (pe_write_back _ _ _ s); [done..|].
    by apply write_back_outcomes_aux.
  - assert (∀ e0, process_error a f w e0 w → process_error a f w e w') as Hvia.
    { intros e0 He0. pose proof (process_error_process a f st w _ _ He0).
      congruence. }
    destruct (text_of_None f w Hs) as [?|[?|(data & ? & ?)]].
    + by eapply Hvia, pe_missing.
    + by eapply Hvia, pe_directory.
    + by eapply Hvia, pe_undecodable.
Qed.

(** The errors of the step of a file: [process] raises exactly when
    the file is missing, is a directory or cannot be decoded (and then
    nothing is printed or written), or when the write-back of a modified
    file raises, outside a dry run. *)
Lemma process_Raise_iff a f st w e w' :
  process a f st w = (Raise e, w') ↔ process_error a f w e w'.
Proof. split; [apply process_Raise_error | apply process_error_process]. Qed.

End step_errors.

(** ** The errors of a run *)

(** The exceptions a run can end with. *)
Definition run_errors : list exn :=
  [FileNotFoundError; IsADirectoryError; UnicodeDecodeError; ValueError; OSError].

Section run_errors.
Context `{C : Codec} `{!CodecLaws C}.
Implicit Types (a : args) (f : list (list N)) (st : summary) (w : world).

(** When [process] raises, the exception is one of [run_errors] (never
    [UnicodeEncodeError]: a text that was decoded can be encoded), and the
    files are as they were, except that after [OSError] the temporary file
    holds the bytes that fitted; the file itself is intact in every
    case. *)
Lemma process_Raise_cases a f st w e w' :
  process a f st w = (Raise e, w') →
  e ∈ run_errors
  ∧ (fs w' = fs w
     ∨ (e = OSError ∧ ∃ b n, budget w = Some n ∧ n < length b
          ∧ fs w' = <[tmp_path f := File (take n b)]> (fs w))).
Proof.
  unfold run_errors.
  intros [Hf|Hf|data Hf Hd|s e' w1 Hs Hc Hdry Hwb]%process_Raise_error;
    [split; [set_solver | by left]..|].
  inversion Hwb as [| |Hn Ht Hb|b n Hn Ht Hb Hbud Hlen|b Hn Ht Hb Hr Hdir|];
    simplify_eq/=; try (split; [set_solver | by left]).
  - destruct (text_of_encodable (soft_hyphen a) w f s Hs) as [b Hb']. congruence.
  - split; [set_solver|]. right. split; [done|]. by exists b, n.
  - apply text_of_regular in Hs as [data Hdata]. congruence.
Qed.

Lemma iter_files_Ok root ext w :
  glob_ext ext → ∃ files, iter_files root ext w = (Ok files, w).
Proof.
  intros Hext. unfold iter_files.
  rewrite io_bind_unfold, rglob_star, iter_files_loop by done. eauto.
Qed.

(** C13. Error taxonomy of a run: when [main] raises, the exit status is
    1, the exception is one of [run_errors] and was raised by the step of
    one of the files found, which left every file as it found it, except
    that after [OSError] the temporary file of that step holds the bytes
    that fitted. *)
Theorem main_errors a w e w' :
  glob_ext (ext a) → main a w = (Raise e, w') →
  e ∈ run_errors ∧ exit_status (main a w).1 = 1
  ∧ ∃ files f st1 w1,
      iter_files (root a) (ext a) w = (Ok files, w) ∧ f ∈ files
      ∧ process a f st1 w1 = (Raise e, w')
      ∧ (fs w' = fs w1
         ∨ (e = OSError ∧ ∃ b n, budget w1 = Some n ∧ n < length b
              ∧ fs w' = <[tmp_path f := File (take n b)]> (fs w1))).
Proof.
  intros Hext Hm. destruct (iter_files_Ok (root a) (ext a) w Hext) as [files Hfiles].
  pose proof Hm as Hm'. rewrite (main_unfold _ _ _ Hfiles) in Hm'. revert Hm'.
  case_decide; [done|]. rewrite io_bind_unfold.
  destruct (for_each files _ _ w) as [[st1|e1] w1] eqn:Hloop;
    [by rewrite io_bind_unfold, report_eq|]. intros [= <- <-].
  apply for_each_Raise_inv in Hloop as (f & st2 & w2 & Hf & Hp).
  destruct (process_Raise_cases _ _ _ _ _ _ Hp) as [He Hfs].
  split_and!; [done | by rewrite Hm | by exists files, f, st2, w2].
Qed.

End run_errors.
