(* ===== verification/Crash.v ===== *)
(** * The write-back, step by step

    The write-back of [tools/normalize_hyphens.py] (lines 119-121) as the
    sequence of steps the file system sees: the temporary name is
    computed, the temporary file is created empty, the text is encoded,
    its bytes reach the disk one after the other, the file is closed and
    moved onto the original.  The steps are a relation on a program
    point and a world ([wb_step]) and a function ([wb_next]) that
    computes it; an interruption is a run that stops at any state.  The
    theorems: whatever the state a run is stopped in, the original is
    intact or completely rewritten ([wb_crash_safe]); every run halts
    ([wb_terminates]); a write-back that can succeed does, from whatever
    state ([wb_completes]); the complete runs are the results of
    [write_back] ([wb_refines]). *)

From S2P Require Import Prelude Chars Normalize Format Summary FileSys Main Run.
From S2P Require Import Errors.

#[local] Set Warnings "-clear-no-such-hyp".

(** ** The steps *)

(** The program points of lines 119-121: before line 119; before the
    temporary file is opened; after it was created empty; with [k] bytes
    of the encoded text written; before line 121; after the last line, or
    after an exception. *)
Inductive pc : Type :=
  | Start
  | Opening (tmp : list (list N))
  | Encoding (tmp : list (list N))
  | Writing (tmp : list (list N)) (data : list N) (k : nat)
  | Replacing (tmp : list (list N))
  | Halt (r : result ()).

#[export] Instance result_eq_dec {A} `{EqDecision A} : EqDecision (result A).
Proof. solve_decision. Defined.

#[export] Instance pc_eq_dec : EqDecision pc.
Proof. solve_decision. Defined.

Section steps.
Context `{C : Codec}.
Context (f : list (list N)) (new : pystr).
Implicit Types (tmp p : list (list N)) (data : list N) (k : nat) (w : world)
  (s : pc * world).

(** One rule per step and per way a step fails. *)
Inductive wb_step : pc * world → pc * world → Prop :=
  | step_suffix tmp w :
      with_suffix f (suffix f ++ py ".tmp") = Some tmp →
      wb_step (Start, w) (Opening tmp, w)
  | step_no_name w :
      with_suffix f (suffix f ++ py ".tmp") = None →
      wb_step (Start, w) (Halt (Raise ValueError), w)
  | step_open tmp w :
      fs w !! tmp ≠ Some Dir →
      wb_step (Opening tmp, w) (Encoding tmp, set_fs <[tmp := File []]> w)
  | step_open_dir tmp w :
      fs w !! tmp = Some Dir →
      wb_step (Opening tmp, w) (Halt (Raise IsADirectoryError), w)
  | step_encode tmp data w :
      encode new = Some data →
      wb_step (Encoding tmp, w) (Writing tmp data 0, w)
  | step_not_encodable tmp w :
      encode new = None →
      wb_step (Encoding tmp, w) (Halt (Raise UnicodeEncodeError), w)
  | step_write tmp data k w :
      k < length data → room 1 w →
      wb_step (Writing tmp data k, w)
        (Writing tmp data (S k),
         set_fs <[tmp := File (take (S k) data)]> (spend 1 w))
  | step_disk_full tmp data k w :
      k < length data → ¬ room 1 w →
      wb_step (Writing tmp data k, w) (Halt (Raise OSError), w)
  | step_close tmp data k w :
      length data ≤ k →
      wb_step (Writing tmp data k, w) (Replacing tmp, w)
  | step_replace tmp w :
      wb_step (Replacing tmp, w) (Halt (replace tmp f w).1, (replace tmp f w).2).

(** The step as a function: [None] when there is none. *)
Definition wb_next (s : pc * world) : option (pc * world) :=
  let w := s.2 in
  match s.1 with
  | Start =>
      Some (match with_suffix f (suffix f ++ py ".tmp") with
            | Some tmp => Opening tmp
            | None => Halt (Raise ValueError)
            end, w)
  | Opening tmp =>
      Some (if decide (fs w !! tmp = Some Dir)
            then (Halt (Raise IsADirectoryError), w)
            else (Encoding tmp, set_fs <[tmp := File []]> w))
  | Encoding tmp =>
      Some (match encode new with
            | Some data => Writing tmp data 0
            | None => Halt (Raise UnicodeEncodeError)
            end, w)
  | Writing tmp data k =>
      Some (if decide (k < length data) then
              if decide (room 1 w) then
                (Writing tmp data (S k),
                 set_fs <[tmp := File (take (S k) data)]> (spend 1 w))
              else (Halt (Raise OSError), w)
            else (Replacing tmp, w))
  | Replacing tmp => Some (Halt (replace tmp f w).1, (replace tmp f w).2)
  | Halt _ => None
  end.

(** The run of at most [fuel] steps. *)
Fixpoint wb_run (fuel : nat) (s : pc * world) : pc * world :=
  match fuel with
  | 0 => s
  | S fuel' => match wb_next s with Some s' => wb_run fuel' s' | None => s end
  end.

(** The number of steps left, at most. *)
Definition wb_measure (s : pc * world) : nat :=
  match s.1 with
  | Start => length (default [] (encode new)) + 5
  | Opening _ => length (default [] (encode new)) + 4
  | Encoding _ => length (default [] (encode new)) + 3
  | Writing _ data k => (length data - k) + 2
  | Replacing _ => 1
  | Halt _ => 0
  end.

(** What holds of every state of a run from [w0]: the program point names
    the temporary sibling of [f], what is on disk under that name is what
    the program point says, and every other path is as it was, but for
    [f] itself once the write-back has returned. *)
Definition wb_inv (w0 : world) (s : pc * world) : Prop :=
  let w := s.2 in
  match s.1 with
  | Start => fs w = fs w0
  | Opening tmp => tmp = tmp_path f ∧ fs w = fs w0
  | Encoding tmp =>
      tmp = tmp_path f ∧ frame (λ p, p ≠ tmp_path f) w0 w
      ∧ fs w !! tmp = Some (File [])
  | Writing tmp data k =>
      tmp = tmp_path f ∧ frame (λ p, p ≠ tmp_path f) w0 w
      ∧ encode new = Some data ∧ fs w !! tmp = Some (File (take k data))
  | Replacing tmp =>
      tmp = tmp_path f ∧ frame (λ p, p ≠ tmp_path f) w0 w
      ∧ ∃ data, encode new = Some data ∧ fs w !! tmp = Some (File data)
  | Halt (Raise _) => frame (λ p, p ≠ tmp_path f) w0 w
  | Halt (Ok _) =>
      frame (λ p, p ≠ tmp_path f ∧ p ≠ f) w0 w
      ∧ fs w !! tmp_path f = None
      ∧ ∃ data, encode new = Some data ∧ fs w !! f = Some (File data)
  end.

(** The state the writes end in, [k] bytes being written already: the
    file is complete, or the disk was full before. *)
Definition written tmp data k w : pc * world :=
  if decide (room (length data - k) w) then
    (Replacing tmp, set_fs <[tmp := File data]> (spend (length data - k) w))
  else
    (Halt (Raise OSError),
     {| fs := <[tmp := File (take (k + default 0 (budget w)) data)]> (fs w);
        stdout := stdout w; budget := Some 0 |}).

(** ** The relation and the function *)

Lemma wb_step_next s s' : wb_step s s' ↔ wb_next s = Some s'.
Proof.
  split.
  - destruct 1; unfold wb_next; cbn [fst snd]; repeat f_equal;
      repeat case_decide; simplify_option_eq; try done; lia.
  - destruct s as [[] w]; unfold wb_next; cbn [fst snd]; intros [= <-];
      repeat case_decide; try case_match; try by constructor.
    constructor. lia.
Qed.

Lemma wb_step_deterministic : deterministic wb_step.
Proof. intros s s1 s2. rewrite !wb_step_next. congruence. Qed.

Lemma wb_step_Halt r w : nf wb_step (Halt r, w).
Proof. intros [s' Hs]. by apply wb_step_next in Hs. Qed.

(** ** Termination and progress *)

Lemma wb_step_measure s s' : wb_step s s' → wb_measure s' < wb_measure s.
Proof.
  destruct 1; unfold wb_measure; cbn [fst snd]; simplify_option_eq; lia.
Qed.

Lemma wb_progress s : (∃ r, s.1 = Halt r) ∨ red wb_step s.
Proof.
  destruct s as [c w]. destruct (wb_next (c, w)) as [s'|] eqn:Hs.
  - right. exists s'. by apply wb_step_next.
  - left. destruct c; try done. by eexists.
Qed.

(** C17. Termination of the write-back: no run of its steps is infinite,
    from whatever state. *)
Theorem wb_terminates s : sn wb_step s.
Proof.
  induction (well_founded_ltof _ wb_measure s) as [s _ IH].
  constructor. intros s' Hs. apply IH. by apply wb_step_measure.
Qed.

(** A run of [wb_measure] steps ends in a final state. *)
Lemma wb_run_Halt fuel s :
  wb_measure s ≤ fuel → ∃ r w', wb_run fuel s = (Halt r, w').
Proof.
  revert s. induction fuel as [|fuel IH]; intros s Hs.
  - destruct s as [[] w]; unfold wb_measure in Hs; cbn [fst] in Hs; try lia.
    by eexists _, _.
  - cbn [wb_run]. destruct (wb_next s) as [s'|] eqn:Hnext.
    + apply IH. apply wb_step_next, wb_step_measure in Hnext. lia.
    + destruct s as [[] w]; try done. by eexists _, _.
Qed.

(** The run of the function is a run of the relation. *)
Lemma wb_run_rtc fuel s : rtc wb_step s (wb_run fuel s).
Proof.
  revert s. induction fuel as [|fuel IH]; intros s; [done|]. cbn [wb_run].
  destruct (wb_next s) as [s'|] eqn:Hnext; [|done].
  eapply rtc_l; [by apply wb_step_next|apply IH].
Qed.

(** ** The invariant *)

Lemma wb_inv_Start w : wb_inv w (Start, w).
Proof. done. Qed.

Lemma frame_set_fs_insert P w0 w p x :
  ¬ P p → frame P w0 w → frame P w0 (set_fs <[p := x]> w).
Proof.
  intros Hp Hfr q Hq. simpl. rewrite lookup_insert_ne by (by intros ->).
  by apply Hfr.
Qed.

Lemma frame_eq P w0 w : fs w = fs w0 → frame P w0 w.
Proof. intros Hw q _. by rewrite Hw. Qed.

Lemma wb_inv_replace w0 w data :
  frame (λ p, p ≠ tmp_path f) w0 w → encode new = Some data →
  fs w !! tmp_path f = Some (File data) →
  wb_inv w0 (Halt (replace (tmp_path f) f w).1, (replace (tmp_path f) f w).2).
Proof.
  intros Hfr Hdata Htmp. unfold replace, wb_inv. rewrite Htmp.
  assert (f ≠ tmp_path f) by (symmetry; apply tmp_path_ne).
  destruct (fs w !! f) as [[|]|] eqn:Hf; cbn [fst snd]; try done;
    (split_and!;
      [ intros p [? ?]; simpl; rewrite lookup_insert_ne, lookup_delete_ne by done;
        by apply Hfr
      | simpl; rewrite lookup_insert_ne by done; apply lookup_delete_eq
      | exists data; split; [done|]; simpl; apply lookup_insert_eq ]).
Qed.

Lemma wb_inv_step w0 s s' : wb_inv w0 s → wb_step s s' → wb_inv w0 s'.
Proof.
  intros Hinv Hstep.
  destruct Hstep as [tmp w Hs|w Hs|tmp w Hd|tmp w Hd|tmp data w He|tmp w He
                    |tmp data k w Hk Hr|tmp data k w Hk Hr|tmp data k w Hk|tmp w];
    unfold wb_inv in *; cbn [fst snd] in *.
  - split; [by eapply with_suffix_tmp_Some|done].
  - by apply frame_eq.
  - destruct Hinv as [-> Hw]. split_and!; [done | | apply lookup_insert_eq].
    apply frame_set_fs_insert; [tauto | by apply frame_eq].
  - destruct Hinv as [-> Hw]. by apply frame_eq.
  - destruct Hinv as (-> & Hfr & Htmp). done.
  - by destruct Hinv as (-> & Hfr & Htmp).
  - destruct Hinv as (-> & Hfr & Hdata & Htmp).
    split_and!; [done | | done | apply lookup_insert_eq].
    apply frame_set_fs_insert; [tauto|]. intros q Hq. by apply Hfr.
  - by destruct Hinv as (-> & Hfr & Hdata & Htmp).
  - destruct Hinv as (-> & Hfr & Hdata & Htmp). split_and!; [done..|].
    exists data. by rewrite take_ge in Htmp.
  - destruct Hinv as (-> & Hfr & data & Hdata & Htmp).
    by apply (wb_inv_replace w0 w data).
Qed.

Lemma wb_inv_rtc w0 s : rtc wb_step (Start, w0) s → wb_inv w0 s.
Proof.
  revert s. apply rtc_ind_r; [done|]. intros s1 s2 _ Hstep Hinv.
  by eapply wb_inv_step.
Qed.

(** Before the write-back has returned nothing but the temporary file
    has changed. *)
Lemma wb_inv_frame w0 c w :
  wb_inv w0 (c, w) → c ≠ Halt (Ok ()) → frame (λ p, p ≠ tmp_path f) w0 w.
Proof.
  unfold wb_inv. cbn [fst snd]. destruct c as [| | | | |[[]|e]]; intros Hinv Hc;
    destruct_and?; by auto using frame_eq.
Qed.

(** C6. Crash safety of the write-back: in whatever state a run of the
    write-back of [f] is stopped, every path but the temporary sibling of
    [f] is as it was, or is [f] itself holding the complete encoding of
    the new text, which it does as soon as the write-back has returned
    and not before. *)
Theorem wb_crash_safe w0 c w p :
  rtc wb_step (Start, w0) (c, w) → p ≠ tmp_path f →
  (c ≠ Halt (Ok ()) ∧ fs w !! p = fs w0 !! p)
  ∨ (c = Halt (Ok ()) ∧
     if decide (p = f) then ∃ data, encode new = Some data ∧ fs w !! f = Some (File data)
     else fs w !! p = fs w0 !! p).
Proof.
  intros Hinv%wb_inv_rtc Hp. unfold wb_inv in Hinv. cbn [fst snd] in Hinv.
  destruct c as [| | | | |[[]|e]]; [left; split; [done|]..|right|left];
    destruct_and?; try (by auto using frame_eq); try congruence.
  split; [done|]. case_decide as Hpf; [done|]. auto.
Qed.

(** ** The complete runs *)

Lemma written_close tmp data k w :
  length data ≤ k → fs w !! tmp = Some (File (take k data)) →
  written tmp data k w = (Replacing tmp, w).
Proof.
  intros Hk Htmp. rewrite take_ge in Htmp by done. unfold written, room, spend, set_fs.
  replace (length data - k) with 0 by lia. destruct w as [m out [n|]]; simpl in *;
    rewrite ?decide_True by lia; rewrite insert_id, ?Nat.sub_0_r by done; done.
Qed.

Lemma written_disk_full tmp data k w :
  k < length data → ¬ room 1 w → fs w !! tmp = Some (File (take k data)) →
  written tmp data k w = (Halt (Raise OSError), w).
Proof.
  intros Hk Hr Htmp. unfold written, room in *.
  destruct w as [m out [n|]]; simpl in *; [|done].
  assert (n = 0) as -> by lia. rewrite decide_False by lia.
  by rewrite Nat.add_0_r, insert_id.
Qed.

Lemma written_write tmp data k w :
  k < length data → room 1 w →
  written tmp data (S k) (set_fs <[tmp := File (take (S k) data)]> (spend 1 w))
  = written tmp data k w.
Proof.
  intros Hk Hr. unfold written, room, spend, set_fs in *.
  destruct w as [m out [n|]]; simpl in *; repeat case_decide; try lia;
    rewrite insert_insert_eq; repeat (done || lia || f_equal).
Qed.

(** The writes, from [k] bytes on. *)
Lemma wb_steps_write tmp data k w :
  fs w !! tmp = Some (File (take k data)) →
  rtc wb_step (Writing tmp data k, w) (written tmp data k w).
Proof.
  remember (length data - k) as d eqn:Hd. revert k w Hd.
  induction d as [|d IH]; intros k w Hd Htmp.
  { rewrite written_close by (done || lia). apply rtc_once. constructor. lia. }
  destruct (decide (room 1 w)) as [Hr|Hr].
  - rewrite <-written_write by (done || lia).
    eapply rtc_l; [constructor; [lia|done]|]. apply IH; [lia|]. simpl.
    apply lookup_insert_eq.
  - rewrite written_disk_full by (done || lia). apply rtc_once. constructor; [lia|done].
Qed.

(** The writes make what [write_text] makes. *)
Lemma written_write_text tmp data w :
  fs w !! tmp ≠ Some Dir → encode new = Some data →
  written tmp data 0 (set_fs <[tmp := File []]> w)
  = match write_text tmp new w with
    | (Ok _, w') => (Replacing tmp, w')
    | (Raise e, w') => (Halt (Raise e), w')
    end.
Proof.
  intros Htmp Hdata. unfold written. rewrite Nat.sub_0_r. case_decide as Hr.
  - rewrite (write_text_room tmp new data w) by done.
    unfold set_fs, spend. simpl. by rewrite insert_insert_eq.
  - unfold room in Hr. simpl in Hr. destruct (budget w) as [n|] eqn:Hn; [|done].
    rewrite (write_text_no_room tmp new data n w) by (done || lia).
    simpl. by rewrite Hn, insert_insert_eq.
Qed.

(** The steps reach the result of [write_back]. *)
Lemma wb_steps_write_back w :
  rtc wb_step (Start, w) (Halt (write_back f new w).1, (write_back f new w).2).
Proof.
  unfold write_back. destruct (with_suffix f _) as [tmp|] eqn:Hs;
    [|apply rtc_once; by constructor].
  eapply rtc_l; [by constructor|]. rewrite io_bind_unfold.
  destruct (decide (fs w !! tmp = Some Dir)) as [Hd|Hd].
  { rewrite write_text_Dir by done. apply rtc_once. by constructor. }
  eapply rtc_l; [by constructor|]. destruct (encode new) as [data|] eqn:Hdata.
  - eapply rtc_l; [by constructor|]. etrans.
    { apply wb_steps_write. simpl. apply lookup_insert_eq. }
    rewrite written_write_text by done.
    destruct (write_text tmp new w) as [[[]|e] w1]; [|done].
    apply rtc_once. constructor.
  - rewrite write_text_not_encodable by done. apply rtc_once. by constructor.
Qed.

(** C15. The steps implement [write_back]: the runs of the steps that end
    are the calls of [write_back], with the same result and the same
    world. *)
Theorem wb_refines w r w' :
  rtc wb_step (Start, w) (Halt r, w') ↔ write_back f new w = (r, w').
Proof.
  split.
  - intros Hrun. pose proof (wb_steps_write_back w) as Hwb.
    pose proof (confluent_rtc_nf _ _ _ (deterministic_confluent wb_step_deterministic)
                  Hrun (wb_step_Halt _ _) Hwb (wb_step_Halt _ _)) as [= -> ->].
    by destruct (write_back f new w).
  - intros Hwb. pose proof (wb_steps_write_back w) as Hrun. by rewrite Hwb in Hrun.
Qed.

(** C18. The write-back completes: when [f] has a name, no directory bears
    its temporary name or its own, the new text can be encoded and there
    is room for it, then from whatever state a run has reached, the
    steps lead to the state in which the write-back has returned, [f]
    holds the new text and the temporary file is gone. *)
Theorem wb_completes w b s :
  named f → fs w !! tmp_path f ≠ Some Dir → encode new = Some b →
  room (length b) w → fs w !! f ≠ Some Dir →
  rtc wb_step (Start, w) s →
  rtc wb_step s
    (Halt (Ok ()),
     set_fs (λ m, <[f := File b]> (delete (tmp_path f) m)) (spend (length b) w)).
Proof.
  intros Hn Htmp Hb Hr Hf Hs. pose proof (wb_steps_write_back w) as Hrun.
  rewrite (wb_outcome_write_back f new w _ _ (wb_done f new w b Hn Htmp Hb Hr Hf))
    in Hrun.
  cbn [fst snd] in Hrun.
  destruct (deterministic_confluent wb_step_deterministic _ _ _ Hs Hrun)
    as (z & Hz1 & Hz2).
  by apply rtc_nf in Hz2 as <-; [|apply wb_step_Halt].
Qed.

End steps.
