(* ===== verification/Interrupt.v ===== *)
(** * The run, step by step

    [main] of [tools/normalize_hyphens.py] (lines 97-140) as the
    sequence of steps the file system sees: the enumeration, then for
    each file the read, the announcement and the steps of the write-back
    ([wb_step] of [Crash]), then the report.  An interruption of the
    process is a run of the steps that stops in any state.  The theorems:
    in whatever state the run is stopped, every path without a temporary
    name is as it was before the run or holds the complete encoding of
    its normalized text ([main_crash_safe]); the runs of the steps that
    end are the calls of [main] ([main_steps_refine]). *)

From S2P Require Import Prelude Chars Normalize Format Summary FileSys Main Run.
From S2P Require Import Errors Crash.

#[local] Set Warnings "-clear-no-such-hyp".

(** ** The steps *)

(** The program points of [main]: before line 97; at the head of the
    loop, with the files left and the counters; inside the write-back of
    a file, at a program point of [Crash]; before the report; after
    [main] has returned or raised.  [n] is [len(files)]. *)
Inductive run_pc : Type :=
  | Scanning
  | Looping (n : nat) (files : list (list (list N))) (st : summary)
  | WritingBack (f : list (list N)) (new : pystr) (c : pc)
      (n : nat) (files : list (list (list N))) (st : summary)
  | Reporting (n : nat) (st : summary)
  | Finished (r : result nat).

Section run_steps.
Context `{C : Codec}.
Context (a : args).
Implicit Types (f p : list (list N)) (files : list (list (list N)))
  (st : summary) (w : world) (c : pc).

Inductive main_step : run_pc * world → run_pc * world → Prop :=
  | step_scan files w w' :
      iter_files (root a) (ext a) w = (Ok files, w') → files ≠ [] →
      main_step (Scanning, w)
        (Looping (length files) files {| total_changed := 0; total_hits := ∅ |}, w')
  | step_scan_none w w' :
      iter_files (root a) (ext a) w = (Ok [], w') →
      main_step (Scanning, w)
        (Finished (Ok 0),
         printed [py "No *" ++ ext a ++ py " files found under " ++ path_str (root a)] w')
  | step_scan_raise e w w' :
      iter_files (root a) (ext a) w = (Raise e, w') →
      main_step (Scanning, w) (Finished (Raise e), w')
  | step_read_raise n f files st e w w' :
      read_text f w = (Raise e, w') →
      main_step (Looping n (f :: files) st, w) (Finished (Raise e), w')
  | step_clean n f files st data w w' :
      read_text f w = (Ok data, w') → clean data →
      main_step (Looping n (f :: files) st, w) (Looping n files st, w')
  | step_announce_dry n f files st data w w' :
      read_text f w = (Ok data, w') → ¬ clean data → dry_run a = true →
      main_step (Looping n (f :: files) st, w)
        (Looping n files (account (soft_hyphen a) data st),
         printed [py "[CHANGED] " ++ path_str f] w')
  | step_announce n f files st data w w' :
      read_text f w = (Ok data, w') → ¬ clean data → dry_run a = false →
      main_step (Looping n (f :: files) st, w)
        (WritingBack f (normalized (soft_hyphen a) data) Start n files
           (account (soft_hyphen a) data st),
         printed [py "[CHANGED] " ++ path_str f] w')
  | step_write_back f new c c' n files st w w' :
      wb_step f new (c, w) (c', w') →
      main_step (WritingBack f new c n files st, w) (WritingBack f new c' n files st, w')
  | step_written f new n files st w :
      main_step (WritingBack f new (Halt (Ok ())) n files st, w) (Looping n files st, w)
  | step_write_raise f new e n files st w :
      main_step (WritingBack f new (Halt (Raise e)) n files st, w) (Finished (Raise e), w)
  | step_loop_end n st w :
      main_step (Looping n [] st, w) (Reporting n st, w)
  | step_report n st w :
      main_step (Reporting n st, w) (Finished (Ok 0), printed (report_lines n st) w).

(** What holds of every state of a run from [w0]: outside a write-back
    the world is [w0] with some files rewritten; inside the write-back of
    [f], that held when the write-back began, [f] held a text of which
    [new] is the normalized form, and the invariant of the write-back
    holds since. *)
Definition main_inv (w0 : world) (s : run_pc * world) : Prop :=
  match s.1 with
  | WritingBack f new c _ _ _ =>
      ∃ w1 data t,
        rewritten (soft_hyphen a) w0 w1 ∧ fs w1 !! f = Some (File data)
        ∧ decode data = Some t
        ∧ new = normalized (soft_hyphen a) (universal_newlines t)
        ∧ wb_inv f new w1 (c, s.2)
  | _ => rewritten (soft_hyphen a) w0 s.2
  end.

End run_steps.

(** ** Safety *)

Lemma rewritten_same_fs `{C : Codec} mode w w' : fs w' = fs w → rewritten mode w w'.
Proof. intros Hfs p _. left. by rewrite Hfs. Qed.

Section safety.
Context `{C : Codec} `{!CodecLaws C}.
Context (a : args).
Implicit Types (f p : list (list N)) (st : summary) (w : world) (c : pc).

(** In every state of the write-back of a file, the world is the one the
    write-back began in with at most that file rewritten. *)
Lemma wb_inv_rewritten f data t c w1 w :
  fs w1 !! f = Some (File data) → decode data = Some t →
  wb_inv f (normalized (soft_hyphen a) (universal_newlines t)) w1 (c, w) →
  rewritten (soft_hyphen a) w1 w.
Proof.
  intros Hf Ht Hinv p Hp. pose proof (not_is_tmp_ne p f Hp) as Hne.
  destruct (decide (c = Halt (Ok ()))) as [->|Hc];
    [|left; by apply (wb_inv_frame _ _ _ _ _ Hinv)].
  destruct Hinv as (Hfr & _ & b & Hb & Hfb). cbn [fst snd] in *.
  destruct (decide (p = f)) as [->|Hpf]; [|left; by apply Hfr].
  right. exists data, b. split_and!; [done | by exists t | done].
Qed.

Lemma main_inv_step w0 s s' : main_inv a w0 s → main_step a s s' → main_inv a w0 s'.
Proof.
  intros Hinv Hstep. unfold main_inv in *.
  destruct Hstep as [files w w' Hi|w w' Hi|e w w' Hi|n f files st e w w' Hr
    |n f files st data w w' Hr|n f files st data w w' Hr
    |n f files st data w w' Hr Hc Hdry|f new c c' n files st w w' Hwb
    |f new n files st w|f new e n files st w|n st w|n st w];
    cbn [fst snd] in *;
    try (pose proof (iter_files_pure (root a) (ext a) w) as Hw; rewrite Hi in Hw;
         simpl in Hw; subst w');
    try (pose proof (read_text_pure f w) as Hw; rewrite Hr in Hw; simpl in Hw;
         subst w');
    try done.
  - apply read_text_Ok in Hr as (_ & d & t & Hd & Ht & ->).
    exists (printed [py "[CHANGED] " ++ path_str f] w), d, t.
    split_and!; [exact Hinv | exact Hd | exact Ht | reflexivity | apply wb_inv_Start].
  - destruct Hinv as (w1 & d & t & ? & ? & ? & ? & Hinv).
    exists w1, d, t. split_and!; try done. by eapply wb_inv_step.
  - destruct Hinv as (w1 & d & t & Hw1 & Hd & Ht & -> & Hinv).
    etrans; [done|]. by eapply wb_inv_rewritten.
  - destruct Hinv as (w1 & d & t & Hw1 & Hd & Ht & -> & Hinv).
    etrans; [done|]. by eapply wb_inv_rewritten.
Qed.

Lemma main_inv_rtc w0 s : rtc (main_step a) (Scanning, w0) s → main_inv a w0 s.
Proof.
  revert s. apply rtc_ind_r; [by apply rewritten_same_fs|].
  intros s1 s2 _ Hstep Hinv. by eapply main_inv_step.
Qed.

(** C7. Crash safety of the run: in whatever state a run of [main] is
    stopped (between two files, after a read, after any number of bytes
    of a temporary file, before or after a replace, during the report)
    every path that bears no temporary name is as it was before the run,
    or is a file that holds the complete encoding of its normalized
    text. *)
Theorem main_crash_safe w0 s p :
  rtc (main_step a) (Scanning, w0) s → ¬ is_tmp p →
  fs s.2 !! p = fs w0 !! p
  ∨ ∃ data b, fs w0 !! p = Some (File data)
              ∧ rewrite_of (soft_hyphen a) data b
              ∧ fs s.2 !! p = Some (File b).
Proof.
  intros Hinv%main_inv_rtc Hp. destruct s as [c w]. unfold main_inv in Hinv.
  cut (rewritten (soft_hyphen a) w0 w); [intros Hrw; by apply Hrw|].
  destruct c; cbn [fst snd] in Hinv; try done.
  destruct Hinv as (w1 & d & t & Hw1 & Hd & Ht & -> & Hinv).
  etrans; [done|]. by eapply wb_inv_rewritten.
Qed.

End safety.

(** ** The complete runs *)

Section complete.
Context `{C : Codec}.
Context (a : args).
Implicit Types (f p : list (list N)) (files : list (list (list N)))
  (st : summary) (w : world) (c : pc).

(** Where the loop ends: before the report, or with the exception of a
    file. *)
Definition loop_end (n : nat) (r : result summary * world) : run_pc * world :=
  match r.1 with
  | Ok st => (Reporting n st, r.2)
  | Raise e => (Finished (Raise e), r.2)
  end.

Lemma wb_steps_lift f new n files st c w c' w' :
  rtc (wb_step f new) (c, w) (c', w') →
  rtc (main_step a) (WritingBack f new c n files st, w)
                    (WritingBack f new c' n files st, w').
Proof.
  apply (rtc_congruence (λ s, (WritingBack f new s.1 n files st, s.2))).
  intros [c1 w1] [c2 w2] Hstep. by constructor.
Qed.

(** The steps of a file with a listed character, outside a dry run. *)
Lemma write_back_steps f new n files st w :
  rtc (main_step a) (WritingBack f new Start n files st, w)
    (match (write_back f new w).1 with
     | Ok _ => Looping n files st
     | Raise e => Finished (Raise e)
     end, (write_back f new w).2).
Proof.
  etrans; [apply wb_steps_lift, wb_steps_write_back|].
  destruct (write_back f new w) as [[[]|e] w2]; apply rtc_once; constructor.
Qed.

Lemma process_changed_eq f st data w :
  read_text f w = (Ok data, w) → ¬ clean data → dry_run a = false →
  process a f st w
  = (match (write_back f (normalized (soft_hyphen a) data)
              (printed [py "[CHANGED] " ++ path_str f] w)).1 with
     | Ok _ => Ok (account (soft_hyphen a) data st)
     | Raise e => Raise e
     end,
     (write_back f (normalized (soft_hyphen a) data)
        (printed [py "[CHANGED] " ++ path_str f] w)).2).
Proof.
  intros Hr Hc Hdry. rewrite (process_unfold _ _ _ _ data), decide_False by done.
  rewrite print_bind, Hdry, io_bind_unfold.
  by destruct (write_back _ _ _) as [[[]|e] w2].
Qed.

Lemma process_announce_dry f st data w :
  read_text f w = (Ok data, w) → ¬ clean data → dry_run a = true →
  process a f st w
  = (Ok (account (soft_hyphen a) data st), printed [py "[CHANGED] " ++ path_str f] w).
Proof.
  intros Hr Hc Hdry. rewrite (process_unfold _ _ _ _ data), decide_False by done.
  by rewrite print_bind, Hdry.
Qed.

(** The steps of the loop reach what the loop of [main] returns. *)
Lemma loop_steps n files st w :
  rtc (main_step a) (Looping n files st, w)
    (loop_end n (for_each files (process a) st w)).
Proof.
  revert st w. induction files as [|f files IH]; intros st w.
  { rewrite for_each_nil. apply rtc_once. constructor. }
  rewrite for_each_cons.
  destruct (read_text f w) as [[data|e] w'] eqn:Hr;
    pose proof (read_text_pure f w) as Hw; rewrite Hr in Hw; simpl in Hw; subst w';
    [|rewrite (io_bind_Raise _ _ _ _ _ (process_Raise a f st w e Hr));
      apply rtc_once; by constructor].
  destruct (decide (clean data)) as [Hc|Hc].
  { rewrite (io_bind_Ok _ _ _ _ _ (process_skip a f st w data Hr Hc)).
    eapply rtc_l; [by eapply step_clean | apply IH]. }
  destruct (dry_run a) eqn:Hdry.
  { rewrite (io_bind_Ok _ _ _ _ _ (process_announce_dry f st data w Hr Hc Hdry)).
    eapply rtc_l; [by eapply step_announce_dry | apply IH]. }
  eapply rtc_l; [by eapply step_announce|]. etrans; [apply write_back_steps|].
  rewrite io_bind_unfold, (process_changed_eq f st data w) by done.
  destruct (write_back _ _ _) as [[[]|e] w2]; [apply IH | done].
Qed.

(** The steps reach the result of [main]. *)
Lemma main_steps_main w :
  rtc (main_step a) (Scanning, w) (Finished (main a w).1, (main a w).2).
Proof.
  destruct (iter_files (root a) (ext a) w) as [[files|e] w'] eqn:Hi;
    pose proof (iter_files_pure (root a) (ext a) w) as Hw; rewrite Hi in Hw;
    simpl in Hw; subst w'.
  - rewrite (main_unfold _ _ _ Hi). case_decide as Hf.
    { subst files. apply rtc_once. by constructor. }
    eapply rtc_l; [by constructor|]. etrans; [apply loop_steps|].
    rewrite io_bind_unfold. unfold loop_end.
    destruct (for_each files _ _ w) as [[st|e] w1]; [|done].
    rewrite io_bind_unfold, report_eq. apply rtc_once. constructor.
  - unfold main. rewrite (io_bind_Raise _ _ _ _ _ Hi). apply rtc_once. by constructor.
Qed.

Lemma main_step_deterministic : deterministic (main_step a).
Proof.
  intros s s1 s2 H1 H2.
  inversion H1; subst; inversion H2; subst; try congruence;
    match goal with
    | Ha : wb_step _ _ (Halt _, _) _ |- _ =>
        by destruct (wb_step_Halt _ _ _ _ (ex_intro _ _ Ha))
    | Ha : wb_step _ _ ?s _, Hb : wb_step _ _ ?s _ |- _ =>
        by injection (wb_step_deterministic _ _ _ _ _ Ha Hb) as -> ->
    end.
Qed.

Lemma main_step_Finished r w : nf (main_step a) (Finished r, w).
Proof. intros [s Hs]. inversion Hs. Qed.

(** C16. The steps implement [main]: the runs of the steps that end are
    the calls of [main], with the same result and the same world. *)
Theorem main_steps_refine w r w' :
  rtc (main_step a) (Scanning, w) (Finished r, w') ↔ main a w = (r, w').
Proof.
  split.
  - intros Hrun. pose proof (main_steps_main w) as Hm.
    pose proof (confluent_rtc_nf _ _ _ (deterministic_confluent main_step_deterministic)
                  Hrun (main_step_Finished _ _) Hm (main_step_Finished _ _)) as [= -> ->].
    by destruct (main a w).
  - intros Hm. pose proof (main_steps_main w) as Hrun. by rewrite Hm in Hrun.
Qed.

End complete.
