(* ===== verification/Stable.v ===== *)
(** * The tree after a run, and the second run

    What a run of [tools/normalize_hyphens.py] that meets no error leaves
    on disk, path by path: every file found holds its normalized text, no
    temporary sibling of a modified file remains, every other path is as
    it was ([main_files]).  From this, the fixed point of the tool on
    trees: a second run over the result finds the same files, modifies
    none and writes nothing ([main_stable]). *)

From S2P Require Import Prelude Chars Normalize Format Summary FileSys Main Run.

#[local] Set Warnings "-clear-no-such-hyp".

(** The report of a run over [n_files] files that modified none. *)
Definition clean_report (n_files : nat) : list pystr :=
  [ 10%N :: py "Summary:";
    py "  Files scanned:   " ++ str_of_nat n_files;
    py "  Files modified:  0";
    py "  No normalization needed." ].

(** A file with text [s] is settled in a world: it holds the normalized
    text, and if that differs from [s] its temporary sibling is gone. *)
Definition settled `{C : Codec} (mode : pystr) (w : world) (f : list (list N))
  (s : pystr) : Prop :=
  text_of w f = Some (normalized mode s)
  ∧ (¬ clean s → fs w !! tmp_path f = None).

Lemma settled_ext `{C : Codec} mode w w' f s :
  fs w' = fs w → settled mode w f s → settled mode w' f s.
Proof.
  intros Hfs [Hs Htmp]. split; [|by rewrite Hfs].
  rewrite <-Hs. apply text_of_ext. by rewrite Hfs.
Qed.

Lemma report_lines_clean n_files :
  report_lines n_files {| total_changed := 0; total_hits := ∅ |}
  = clean_report n_files.
Proof. done. Qed.

(** An enumeration that found a file was given a pattern [rglob] accepts
    and a directory. *)
Lemma iter_files_Ok_inv root ext w files w' :
  iter_files root ext w = (Ok files, w') → files ≠ [] →
  glob_ext ext ∧ fs w !! root = Some Dir.
Proof.
  intros Hfiles Hne. destruct (decide (glob_ext ext)) as [Hext|Hext].
  - split; [done|]. apply dec_stable. intros Hroot.
    rewrite iter_files_no_dir in Hfiles by done. congruence.
  - unfold iter_files, rglob in Hfiles. rewrite io_bind_unfold in Hfiles.
    revert Hfiles. case_decide as Hpat; [|done].
    destruct (double_star _) eqn:Hds; [done|]. by destruct Hext.
Qed.

Section after.
Context `{C : Codec} `{!CodecLaws C}.
Implicit Types (a : args) (f g p : list (list N)) (s : pystr) (st : summary)
  (w : world).

(** ** One step *)

(** A text that was read holds no carriage return. *)
Lemma text_of_no_cr w f s : text_of w f = Some s → 13%N ∉ s.
Proof.
  unfold text_of. destruct (fs w !! f) as [[data|]|]; [|done..].
  destruct (decode data); [|done]. intros [= <-]. apply universal_newlines_no_cr.
Qed.

(** After its step a file holds its normalized text. *)
Lemma step_spec_text_of_self a f s st w :
  text_of w f = Some s → dry_run a = false →
  text_of (step_spec a f s st w).2 f = Some (normalized (soft_hyphen a) s).
Proof.
  intros Hs Hdry. unfold step_spec, stored. rewrite Hdry.
  case_decide; [by rewrite normalized_id|].
  destruct (text_of_encodable (soft_hyphen a) w f s Hs) as [b Hb].
  unfold text_of. simpl. rewrite lookup_insert_eq, Hb. simpl.
  rewrite (decode_encode _ _ Hb). simpl. f_equal.
  by eapply universal_newlines_id, normalized_no_cr, text_of_no_cr.
Qed.

(** After the step of a modified file its temporary sibling is gone. *)
Lemma step_spec_tmp a f s st w :
  dry_run a = false → ¬ clean s →
  fs (step_spec a f s st w).2 !! tmp_path f = None.
Proof.
  intros Hdry Hs. unfold step_spec, stored. rewrite Hdry, decide_False by done.
  simpl. rewrite lookup_insert_ne by (symmetry; apply tmp_path_ne).
  apply lookup_delete_eq.
Qed.

(** ** The loop *)

(** A path that is no file of the run and no temporary sibling of one is
    as it was. *)
Lemma loop_spec_lookup_other a files texts st w p :
  (dry_run a = false → ∀ g, g ∈ files → p ≠ g ∧ p ≠ tmp_path g) →
  fs (loop_spec a files texts st w).2 !! p = fs w !! p.
Proof.
  revert texts st w. induction files as [|f files IH]; intros [|s texts] st w Hp;
    try done.
  cbn [loop_spec]. rewrite IH by (intros ? g ?; apply Hp; set_solver).
  apply step_spec_lookup_ne. intros ?. apply Hp; set_solver.
Qed.

(** The first file of a run and its temporary sibling are no file of the
    rest of the run and no temporary sibling of one. *)
Lemma ready_head_apart a w f files s texts g :
  ready a w (f :: files) (s :: texts) → dry_run a = false → g ∈ files →
  (f ≠ g ∧ f ≠ tmp_path g) ∧ (tmp_path f ≠ g ∧ tmp_path f ≠ tmp_path g).
Proof.
  intros (_ & [Hf Hnd]%NoDup_cons & Htmp & Hwr) Hdry Hg.
  rewrite Forall_forall in Hwr.
  assert (f ≠ g) by set_solver.
  assert (f ≠ []) by (eapply writable_not_nil, Hwr; [done | set_solver]).
  assert (g ≠ []) by (eapply writable_not_nil, Hwr; [done | set_solver]).
  split_and!; [done | apply Htmp; set_solver | |].
  - intros Heq. apply (Htmp g f); set_solver.
  - by intros ?%tmp_path_inj.
Qed.

(** What the loop leaves of the files of the run. *)
Lemma loop_spec_files a files texts st w :
  ready a w files texts → dry_run a = false →
  Forall2 (settled (soft_hyphen a) (loop_spec a files texts st w).2) files texts.
Proof.
  intros Hr Hdry. revert texts st w Hr.
  induction files as [|f files IH]; intros texts st w Hr;
    pose proof Hr as [Hts _]; destruct texts as [|s texts];
    try (by apply Forall2_length in Hts).
  cbn [loop_spec]. constructor; [|by eapply IH, ready_step].
  apply Forall2_cons in Hts as [Hs _]. split; [|intros Hcl].
  - rewrite <-(step_spec_text_of_self a f s st w Hs Hdry).
    apply text_of_ext, loop_spec_lookup_other. intros _ g Hg.
    by apply (ready_head_apart a w f files s texts g).
  - rewrite <-(step_spec_tmp a f s st w Hdry Hcl).
    apply loop_spec_lookup_other. intros _ g Hg.
    by apply (ready_head_apart a w f files s texts g).
Qed.

(** The loop creates no path but the files of the run: any other path is
    as it was, or is gone. *)
Lemma loop_spec_lookup_cases a files texts st w p :
  p ∈ files ∨ fs (loop_spec a files texts st w).2 !! p = fs w !! p
  ∨ fs (loop_spec a files texts st w).2 !! p = None.
Proof.
  revert texts st w. induction files as [|f files IH]; intros [|s texts] st w;
    try (by right; left).
  cbn [loop_spec]. destruct (decide (p = f)) as [->|Hpf]; [left; set_solver|].
  destruct (IH texts (step_spec a f s st w).1 (step_spec a f s st w).2)
    as [?|[->| ->]]; [left; set_solver | | by right; right].
  right. unfold step_spec, stored. case_decide; [by left|].
  destruct (dry_run a); [by left|]. simpl. rewrite lookup_insert_ne by done.
  destruct (decide (p = tmp_path f)) as [->|?];
    [right; apply lookup_delete_eq | left; by apply lookup_delete_ne].
Qed.

(** The loop leaves the files to find as they were. *)
Lemma loop_spec_wanted a files texts st w dir e p :
  ready a w files texts → dry_run a = false →
  (∀ q, q ∈ files ↔ wanted dir e w q) →
  wanted dir e (loop_spec a files texts st w).2 p ↔ wanted dir e w p.
Proof.
  intros Hr Hdry Hfiles. destruct (decide (p ∈ files)) as [Hp|Hp].
  - pose proof (proj1 (Hfiles p) Hp) as Hw. split; [done|]. intros _.
    destruct Hw as (_ & Hw). split; [|done].
    apply list_elem_of_lookup_1 in Hp as [i Hi].
    destruct (Forall2_lookup_l _ _ _ _ _ (loop_spec_files a files texts st w Hr Hdry) Hi)
      as (s & _ & Hs & _). by eapply text_of_regular.
  - split; [|by intros ?%Hfiles]. intros ([data Hd] & Hw).
    exfalso. apply Hp, Hfiles.
    destruct (loop_spec_lookup_cases a files texts st w p) as [?|[Heq|Heq]];
      [done | | congruence].
    split; [|done]. exists data. congruence.
Qed.

End after.

(** ** The run *)

Lemma wanted_ext dir e w w' p :
  fs w' = fs w → wanted dir e w' p ↔ wanted dir e w p.
Proof. unfold wanted, regular. by intros ->. Qed.

(** A loop whose body does nothing does nothing. *)
Lemma for_each_skip {A S} (l : list A) (body : A → S → io S) s w :
  (∀ x, x ∈ l → body x s w = (Ok s, w)) → for_each l body s w = (Ok s, w).
Proof.
  induction l as [|x l IH]; intros Hl; [done|].
  rewrite for_each_cons, (io_bind_Ok _ _ _ _ _ (Hl x ltac:(set_solver))).
  apply IH. intros y Hy. apply Hl. set_solver.
Qed.

Section stable.
Context `{C : Codec} `{!CodecLaws C}.
Implicit Types (a : args) (f g p : list (list N)) (s : pystr) (st : summary)
  (w : world).

(** The tree a run that meets no error leaves is the one [loop_spec]
    describes. *)
Lemma main_fs a w files texts :
  iter_files (root a) (ext a) w = (Ok files, w) → files ≠ [] →
  ready a w files texts →
  fs (main a w).2
  = fs (loop_spec a files texts {| total_changed := 0; total_hits := ∅ |} w).2.
Proof.
  intros Hfiles Hne Hr. rewrite (main_unfold _ _ _ Hfiles), decide_False by done.
  rewrite (io_bind_Ok _ _ _ _ _ (loop_refines a files texts _ w Hr)).
  by rewrite io_bind_unfold, report_eq.
Qed.

(** C19. The tree after a run that meets no error and is no dry run:
    every file found holds its normalized text (a text without a listed
    character is its own normalized text), no temporary sibling of a
    modified file remains, and every path that is no file found and no
    temporary sibling of one is as it was. *)
Theorem main_files a w files texts :
  iter_files (root a) (ext a) w = (Ok files, w) → files ≠ [] →
  ready a w files texts → dry_run a = false →
  Forall2 (settled (soft_hyphen a) (main a w).2) files texts
  ∧ ∀ p, (∀ g, g ∈ files → p ≠ g ∧ p ≠ tmp_path g) →
         fs (main a w).2 !! p = fs w !! p.
Proof.
  intros Hfiles Hne Hr Hdry. pose proof (main_fs a w files texts Hfiles Hne Hr) as Hfs.
  set (st0 := {| total_changed := 0; total_hits := ∅ |}) in Hfs. split.
  - eapply Forall2_impl; [exact (loop_spec_files a files texts st0 w Hr Hdry)|].
    intros f s. by apply settled_ext.
  - intros p Hp. rewrite Hfs. apply loop_spec_lookup_other. auto.
Qed.

(** The root of a run stays a directory. *)
Lemma main_root a w files texts :
  iter_files (root a) (ext a) w = (Ok files, w) → files ≠ [] →
  ready a w files texts →
  fs (main a w).2 !! root a = Some Dir.
Proof.
  intros Hfiles Hne Hr. rewrite (main_fs a w files texts) by done.
  destruct (iter_files_Ok_inv _ _ _ _ _ Hfiles Hne) as [_ Hroot].
  rewrite <-Hroot. apply loop_spec_lookup_other. intros Hdry g Hg.
  destruct Hr as (Hts & _ & _ & Hwr). rewrite Forall_forall in Hwr. split.
  - intros <-. destruct (iter_files_regular _ _ _ _ _ Hfiles Hg). congruence.
  - intros Heq. destruct (Hwr g Hg) as [?|(_ & _ & Htmp & _)]; congruence.
Qed.

(** After a run every file found holds a text without a listed character:
    its step does nothing. *)
Lemma main_process_skip a w files texts f st w1 :
  iter_files (root a) (ext a) w = (Ok files, w) → files ≠ [] →
  ready a w files texts → dry_run a = false →
  fs w1 = fs (main a w).2 → f ∈ files →
  process a f st w1 = (Ok st, w1).
Proof.
  intros Hfiles Hne Hr Hdry Hw1 [i Hi]%list_elem_of_lookup_1.
  rewrite (main_fs a w files texts) in Hw1 by done.
  set (st0 := {| total_changed := 0; total_hits := ∅ |}) in Hw1.
  destruct (Forall2_lookup_l _ _ _ _ _ (loop_spec_files a files texts st0 w Hr Hdry) Hi)
    as (s & _ & Hs & _).
  apply (process_skip _ _ _ _ (normalized (soft_hyphen a) s)), normalized_clean.
  apply read_text_text_of. rewrite <-Hs. apply text_of_ext. by rewrite Hw1.
Qed.

(** The second run finds the files of the first. *)
Lemma main_iter_files a w files texts w1 :
  iter_files (root a) (ext a) w = (Ok files, w) → files ≠ [] →
  ready a w files texts → dry_run a = false →
  fs w1 = fs (main a w).2 →
  ∃ files', iter_files (root a) (ext a) w1 = (Ok files', w1) ∧ files' ≡ₚ files.
Proof.
  intros Hfiles Hne Hr Hdry Hw1.
  destruct (iter_files_Ok_inv _ _ _ _ _ Hfiles Hne) as [Hext Hroot].
  destruct (iter_files_Dir _ _ w Hext Hroot) as (files0 & Hf0 & Hnd & Hin).
  assert (files0 = files) as -> by congruence.
  destruct (iter_files_Dir (root a) (ext a) w1 Hext) as (files' & ? & Hnd' & Hin').
  { rewrite Hw1. by eapply main_root. }
  exists files'. split; [done|]. apply NoDup_Permutation; [done..|]. intros p.
  rewrite Hin', Hin, (wanted_ext _ _ _ _ _ Hw1).
  rewrite (wanted_ext _ _ _ _ _ (main_fs a w files texts Hfiles Hne Hr)).
  by apply loop_spec_wanted.
Qed.

(** C9. A run is a fixed point on trees: after a run that meets no error
    and is no dry run, a second run finds as many files, announces none,
    writes nothing and reports that no normalization is needed. *)
Theorem main_stable a w files texts :
  iter_files (root a) (ext a) w = (Ok files, w) → files ≠ [] →
  ready a w files texts → dry_run a = false →
  main a (main a w).2
  = (Ok 0, printed (clean_report (length files)) (main a w).2).
Proof.
  intros Hfiles Hne Hr Hdry.
  destruct (main_iter_files a w files texts (main a w).2) as (files' & Hf' & Hp);
    [done..|].
  rewrite (main_unfold _ _ _ Hf'), decide_False
    by (intros ->; by apply Permutation_nil_l in Hp).
  assert (for_each files' (process a) {| total_changed := 0; total_hits := ∅ |}
            (main a w).2 = (Ok {| total_changed := 0; total_hits := ∅ |}, (main a w).2))
    as Hloop.
  { apply for_each_skip. intros f Hf.
    apply (main_process_skip a w files texts); [done..|by rewrite <-Hp]. }
  rewrite (io_bind_Ok _ _ _ _ _ Hloop).
  by rewrite io_bind_unfold, report_eq, (Permutation_length Hp), report_lines_clean.
Qed.

End stable.
