(* ===== verification/Scenarios.v ===== *)
(** * Runs on concrete file trees

    [main] evaluated on small worlds with the UTF-8 codec: the scenarios of
    the specification that involve files (5 and 6), and runs that show what
    the code does where the specification promises otherwise or is silent
    (a missing root, carriage returns, a write that fails half-way, a
    temporary name that is already taken, a directory with a matching
    name). *)

From S2P Require Import Prelude Chars Normalize Format Summary FileSys Utf8 Main Run.

Local Open Scope N_scope.

(** ** The worlds *)

(** The bytes of a text. *)
Definition text (s : pystr) : list N := default [] (encode s).

Definition proj : list (list N) := [py "proj"].
Definition a_tex : list (list N) := [py "proj"; py "a.tex"].
Definition a_tex_tmp : list (list N) := [py "proj"; py "a.tex.tmp"].
Definition b_tex : list (list N) := [py "proj"; py "sub"; py "b.tex"].
Definition notes : list (list N) := [py "proj"; py "notes.txt"].

(** A world with the root directory and the nodes given, nothing printed
    and no limit on what may be written. *)
Definition tree (files : gmap (list (list N)) node) : world :=
  {| fs := <[[] := Dir]> files; stdout := []; budget := None |}.

Definition soft : pystr := py "micro" ++ [0xad] ++ py "scopic".

(** One file with a soft hyphen (scenario 1), one clean file in a
    sub-directory, one file with another extension. *)
Definition w_soft : world :=
  tree {[ proj := Dir; a_tex := File (text soft);
          [py "proj"; py "sub"] := Dir; b_tex := File (text (py "plain text"));
          notes := File (text [0x2014]) ]}.

Definition run (dry : bool) : args :=
  {| root := proj; ext := py ".tex"; soft_hyphen := py "hyphen"; dry_run := dry |}.

Ltac evaluate := vm_compute; reflexivity.

(** ** Scenario 1 on disk *)

Example run_soft_status : (main (run false) w_soft).1 = Ok 0%nat.
Proof. evaluate. Qed.

Example run_soft_file :
  fs (main (run false) w_soft).2 !! a_tex = Some (File (text (py "micro-scopic"))).
Proof. evaluate. Qed.

Example run_soft_others :
  fs (main (run false) w_soft).2 !! b_tex = Some (File (text (py "plain text")))
  ∧ fs (main (run false) w_soft).2 !! notes = Some (File (text [0x2014]))
  ∧ fs (main (run false) w_soft).2 !! a_tex_tmp = None.
Proof. split_and!; evaluate. Qed.

Example run_soft_stdout :
  stdout (main (run false) w_soft).2 =
    [ py "[CHANGED] /proj/a.tex";
      10 :: py "Summary:";
      py "  Files scanned:   2";
      py "  Files modified:  1";
      py "  Replacements/removals:";
      py "    U+00AD   SOFT_HYPHEN count=1" ].
Proof. evaluate. Qed.

(** ** Scenario 5: dry run *)

Example scenario_5 :
  fs (main (run true) w_soft).2 !! a_tex = Some (File (text soft))
  ∧ stdout (main (run true) w_soft).2 = stdout (main (run false) w_soft).2
  ∧ (main (run true) w_soft).1 = Ok 0%nat.
Proof. split_and!; evaluate. Qed.

(** ** Scenario 6: no matching file *)

(** The run returns 0, but prints one line only: no ["Files scanned"], no
    ["Files modified"]. *)
Example scenario_6 :
  main (run false) (tree {[ proj := Dir; notes := File (text soft) ]})
  = (Ok 0%nat,
     printed [py "No *.tex files found under /proj"]
             (tree {[ proj := Dir; notes := File (text soft) ]})).
Proof. evaluate. Qed.

(** The same when the root does not exist. *)
Example missing_root :
  main (run false) (tree ∅)
  = (Ok 0%nat, printed [py "No *.tex files found under /proj"] (tree ∅)).
Proof. evaluate. Qed.

(** ** A directory with a matching name is skipped *)

Example directory_skipped :
  main (run false) (tree {[ proj := Dir; a_tex := Dir ]})
  = (Ok 0%nat,
     printed [py "No *.tex files found under /proj"]
             (tree {[ proj := Dir; a_tex := Dir ]})).
Proof. evaluate. Qed.

(** ** Carriage returns *)

(** A modified file loses its carriage returns: the text is read with
    universal newlines and written back as read. *)
Example crlf_rewritten :
  fs (main (run false)
        (tree {[ proj := Dir; a_tex := File (text (py "a" ++ [13; 10; 0x2013])) ]})).2
    !! a_tex
  = Some (File (text (py "a" ++ [10] ++ py "-"))).
Proof. evaluate. Qed.

(** An unmodified file keeps them. *)
Example crlf_kept :
  fs (main (run false)
        (tree {[ proj := Dir; a_tex := File (text (py "a" ++ [13; 10])) ]})).2
    !! a_tex
  = Some (File (text (py "a" ++ [13; 10]))).
Proof. evaluate. Qed.

(** ** A write that fails half-way *)

(** With room for three bytes only, the run ends with [OSError]; the file
    is intact, and the temporary file stays behind with the three bytes. *)
Example disk_full :
  let w := {| fs := fs w_soft; stdout := []; budget := Some 3%nat |} in
  (main (run false) w).1 = Raise OSError
  ∧ fs (main (run false) w).2 !! a_tex = Some (File (text soft))
  ∧ fs (main (run false) w).2 !! a_tex_tmp = Some (File (text (py "mic")))
  ∧ exit_status (main (run false) w).1 = 1%nat.
Proof. split_and!; evaluate. Qed.

(** ** A temporary name that is taken *)

(** A file that already bears the temporary name is overwritten and then
    renamed away. *)
Example tmp_name_taken :
  let w := tree {[ proj := Dir; a_tex := File (text soft);
                   a_tex_tmp := File (text (py "precious")) ]} in
  (main (run false) w).1 = Ok 0%nat
  ∧ fs (main (run false) w).2 !! a_tex_tmp = None.
Proof. split_and!; evaluate. Qed.

(** ** A file that is not UTF-8 *)

Example not_utf8 :
  let w := tree {[ proj := Dir; a_tex := File [0xad] ]} in
  main (run false) w = (Raise UnicodeDecodeError, w).
Proof. evaluate. Qed.

(** ** The theorems of [Main] at concrete worlds *)

Ltac decided := apply (bool_decide_unpack _); vm_compute; exact I.

Definition st0 : summary := {| total_changed := 0; total_hits := ∅ |}.
Definition st1 : summary := {| total_changed := 1; total_hits := {[ 0xad := 1%nat ]} |}.

(** The world with room for three more bytes. *)
Definition w_full : world := {| fs := fs w_soft; stdout := []; budget := Some 3%nat |}.

(** The world with a file that is not UTF-8. *)
Definition w_latin1 : world := tree {[ proj := Dir; a_tex := File [0xad] ]}.

(** [w_soft] after the step of [a.tex]. *)
Definition w_done : world :=
  set_fs (λ m, <[a_tex := File (text (py "micro-scopic"))]> (delete a_tex_tmp m))
         (printed [py "[CHANGED] /proj/a.tex"] w_soft).

Lemma iter_files_spec_witness :
  glob_ext (py ".t?x")
  ∧ ∃ files, iter_files proj (py ".t?x") w_soft = (Ok files, w_soft) ∧ NoDup files
             ∧ ∀ p, p ∈ files ↔ fs w_soft !! proj = Some Dir
                                 ∧ wanted proj (py ".t?x") w_soft p.
Proof.
  assert (H1 : glob_ext (py ".t?x")) by decided.
  split; [exact H1 | exact (iter_files_spec _ _ _ H1)].
Defined.

Lemma iter_files_plain_witness :
  plain_ext (py ".tex")
  ∧ ∃ files, iter_files proj (py ".tex") w_soft = (Ok files, w_soft) ∧ NoDup files
             ∧ ∀ p, p ∈ files ↔
                 fs w_soft !! proj = Some Dir
                 ∧ (∃ data, fs w_soft !! p = Some (File data))
                 ∧ proj `prefix_of` p ∧ p ≠ proj ∧ py ".tex" `suffix_of` name p.
Proof.
  assert (H1 : plain_ext (py ".tex")) by decided.
  split; [exact H1 | exact (iter_files_plain _ _ _ H1)].
Defined.

Lemma main_no_files_witness :
  iter_files (root (run false)) (ext (run false)) (tree {[ proj := Dir ]})
    = (Ok [], tree {[ proj := Dir ]})
  ∧ main (run false) (tree {[ proj := Dir ]})
    = (Ok 0%nat, printed [py "No *" ++ ext (run false) ++ py " files found under "
                          ++ path_str (root (run false))] (tree {[ proj := Dir ]})).
Proof.
  assert (H : iter_files (root (run false)) (ext (run false)) (tree {[ proj := Dir ]})
              = (Ok [], tree {[ proj := Dir ]})) by evaluate.
  split; [exact H | exact (main_no_files _ _ H)].
Defined.

Lemma main_dry_run_witness :
  dry_run (run true) = true
  ∧ fs (main (run true) w_soft).2 = fs w_soft
  ∧ budget (main (run true) w_soft).2 = budget w_soft.
Proof. split; [reflexivity | exact (main_dry_run (run true) w_soft eq_refl)]. Defined.

Lemma main_atomic_witness :
  ¬ is_tmp a_tex
  ∧ (fs (main (run false) w_full).2 !! a_tex = fs w_full !! a_tex
     ∨ ∃ data b, fs w_full !! a_tex = Some (File data)
                 ∧ rewrite_of (py "hyphen") data b
                 ∧ fs (main (run false) w_full).2 !! a_tex = Some (File b)).
Proof.
  assert (H : ¬ is_tmp a_tex) by decided.
  split; [exact H | exact (main_atomic (run false) w_full a_tex H)].
Defined.

Lemma loop_counters_witness :
  for_each [a_tex; b_tex] (process (run true)) st0 w_soft
    = (Ok st1, printed [py "[CHANGED] /proj/a.tex"] w_soft)
  ∧ (total_hits st1 = ∅ ↔ total_changed st1 = 0%nat)
  ∧ (total_changed st1 ≤ length [a_tex; b_tex])%nat.
Proof.
  assert (H : for_each [a_tex; b_tex] (process (run true)) st0 w_soft
              = (Ok st1, printed [py "[CHANGED] /proj/a.tex"] w_soft)) by evaluate.
  split; [exact H | exact (loop_counters _ _ _ _ _ H)].
Defined.

Lemma process_clean_witness :
  fs w_soft !! b_tex = Some (File (text (py "plain text")))
  ∧ decode (text (py "plain text")) = Some (py "plain text")
  ∧ clean (py "plain text")
  ∧ process (run false) b_tex st1 w_soft = (Ok st1, w_soft).
Proof.
  assert (H1 : fs w_soft !! b_tex = Some (File (text (py "plain text")))) by evaluate.
  assert (H2 : decode (text (py "plain text")) = Some (py "plain text")) by evaluate.
  assert (H3 : clean (py "plain text")) by decided.
  split_and!; [exact H1 | exact H2 | exact H3 |].
  exact (process_clean (run false) b_tex st1 w_soft _ _ H1 H2 H3).
Defined.

Lemma process_undecodable_witness :
  fs w_latin1 !! a_tex = Some (File [0xad]) ∧ decode [0xad] = None
  ∧ process (run false) a_tex st0 w_latin1 = (Raise UnicodeDecodeError, w_latin1).
Proof.
  assert (H1 : fs w_latin1 !! a_tex = Some (File [0xad])) by evaluate.
  assert (H2 : decode [0xad] = None) by evaluate.
  split_and!; [exact H1 | exact H2 |].
  exact (process_undecodable (run false) a_tex st0 w_latin1 _ H1 H2).
Defined.

Lemma main_aborts_witness :
  iter_files (root (run false)) (ext (run false)) w_latin1
    = (Ok ([] ++ a_tex :: []), w_latin1)
  ∧ for_each [] (process (run false)) st0 w_latin1 = (Ok st0, w_latin1)
  ∧ process (run false) a_tex st0 w_latin1 = (Raise UnicodeDecodeError, w_latin1)
  ∧ main (run false) w_latin1 = (Raise UnicodeDecodeError, w_latin1)
  ∧ exit_status (main (run false) w_latin1).1 = 1%nat.
Proof.
  assert (H1 : iter_files (root (run false)) (ext (run false)) w_latin1
               = (Ok ([] ++ a_tex :: []), w_latin1)) by evaluate.
  assert (H2 : for_each [] (process (run false)) st0 w_latin1 = (Ok st0, w_latin1))
    by reflexivity.
  assert (H3 : process (run false) a_tex st0 w_latin1
               = (Raise UnicodeDecodeError, w_latin1)) by evaluate.
  split_and!; [exact H1 | exact H2 | exact H3 | ..];
    apply (main_aborts _ _ _ _ _ _ _ _ _ H1 H2 H3).
Defined.

Lemma main_missing_root_witness :
  glob_ext (ext (run false)) ∧ fs (tree ∅) !! root (run false) = None
  ∧ main (run false) (tree ∅)
    = (Ok 0%nat, printed [py "No *" ++ ext (run false) ++ py " files found under "
                          ++ path_str (root (run false))] (tree ∅)).
Proof.
  assert (H1 : glob_ext (ext (run false))) by decided.
  assert (H2 : fs (tree ∅) !! root (run false) = None) by reflexivity.
  split_and!; [exact H1 | exact H2 | exact (main_missing_root _ _ H1 H2)].
Defined.

Lemma process_changed_witness :
  dry_run (run false) = false ∧ name a_tex ≠ [] ∧ (47 ∉ name a_tex)
  ∧ fs w_soft !! a_tex = Some (File (text soft)) ∧ decode (text soft) = Some soft
  ∧ ¬ clean soft ∧ fs w_soft !! tmp_path a_tex ≠ Some Dir ∧ budget w_soft = None
  ∧ encode (normalized (py "hyphen") (universal_newlines soft))
    = Some (text (py "micro-scopic"))
  ∧ process (run false) a_tex st0 w_soft
    = (Ok (account (py "hyphen") (universal_newlines soft) st0),
       set_fs (λ m, <[a_tex := File (text (py "micro-scopic"))]>
                      (delete (tmp_path a_tex) m))
              (printed [py "[CHANGED] " ++ path_str a_tex] w_soft)).
Proof.
  assert (H1 : name a_tex ≠ []) by decided.
  assert (H2 : 47 ∉ name a_tex) by decided.
  assert (H3 : fs w_soft !! a_tex = Some (File (text soft))) by evaluate.
  assert (H4 : decode (text soft) = Some soft) by evaluate.
  assert (H5 : ¬ clean soft) by decided.
  assert (H6 : fs w_soft !! tmp_path a_tex ≠ Some Dir) by decided.
  assert (H7 : encode (normalized (py "hyphen") (universal_newlines soft))
               = Some (text (py "micro-scopic"))) by evaluate.
  split_and!; [reflexivity | exact H1 | exact H2 | exact H3 | exact H4 | exact H5
               | exact H6 | reflexivity | exact H7 |].
  exact (process_changed (run false) a_tex st0 w_soft _ _ _
           eq_refl H1 H2 H3 H4 H5 H6 eq_refl H7).
Defined.

Lemma process_stable_witness :
  dry_run (run false) = false
  ∧ process (run false) a_tex st0 w_soft = (Ok st1, w_done)
  ∧ process (run false) a_tex st1 w_done = (Ok st1, w_done).
Proof.
  assert (H : process (run false) a_tex st0 w_soft = (Ok st1, w_done)) by evaluate.
  split_and!; [reflexivity | exact H |].
  exact (process_stable (run false) a_tex st0 w_soft st1 w_done st1 eq_refl H).
Defined.

(** [w_soft] is a tree: [proj] holds [a.tex], [notes.txt] and the
    directory [sub], which holds [b.tex]. *)
Lemma main_keeps_tree_witness :
  tree_like w_soft ∧ tree_like (main (run false) w_soft).2.
Proof.
  assert (H : tree_like w_soft) by decided.
  split; [exact H | exact (main_keeps_tree (run false) _ H)].
Defined.

Lemma main_refines_witness :
  iter_files (root (run false)) (ext (run false)) w_soft = (Ok [b_tex; a_tex], w_soft)
  ∧ [b_tex; a_tex] ≠ []
  ∧ ready (run false) w_soft [b_tex; a_tex] [py "plain text"; soft]
  ∧ main (run false) w_soft
    = (Ok 0%nat,
       printed (report_lines (length [b_tex; a_tex])
                  (loop_spec (run false) [b_tex; a_tex] [py "plain text"; soft]
                             st0 w_soft).1)
               (loop_spec (run false) [b_tex; a_tex] [py "plain text"; soft]
                          st0 w_soft).2).
Proof.
  assert (H1 : iter_files (root (run false)) (ext (run false)) w_soft
               = (Ok [b_tex; a_tex], w_soft)) by evaluate.
  assert (H2 : [b_tex; a_tex] ≠ []) by discriminate.
  assert (H3 : ready (run false) w_soft [b_tex; a_tex] [py "plain text"; soft])
    by decided.
  split_and!; [exact H1 | exact H2 | exact H3 |].
  exact (main_refines (run false) w_soft _ _ H1 H2 H3).
Defined.

Lemma main_output_witness :
  iter_files (root (run true)) (ext (run true)) w_soft = (Ok [b_tex; a_tex], w_soft)
  ∧ [b_tex; a_tex] ≠ []
  ∧ ready (run true) w_soft [b_tex; a_tex] [py "plain text"; soft]
  ∧ (main (run true) w_soft).1 = Ok 0%nat
  ∧ stdout (main (run true) w_soft).2
    = stdout w_soft ++ announced [b_tex; a_tex] [py "plain text"; soft]
      ++ report_lines (length [b_tex; a_tex])
           {| total_changed := length (filter (λ s, ¬ clean s) [py "plain text"; soft]);
              total_hits := (normalize_text (concat [py "plain text"; soft])
                                            (soft_hyphen (run true))).2 |}.
Proof.
  assert (H1 : iter_files (root (run true)) (ext (run true)) w_soft
               = (Ok [b_tex; a_tex], w_soft)) by evaluate.
  assert (H2 : [b_tex; a_tex] ≠ []) by discriminate.
  assert (H3 : ready (run true) w_soft [b_tex; a_tex] [py "plain text"; soft])
    by decided.
  split_and!; [exact H1 | exact H2 | exact H3 | ..];
    apply (main_output (run true) w_soft _ _ H1 H2 H3).
Defined.
