(* ===== verification/Cases.v ===== *)
(** * Runs that fail, are stopped, or are repeated

    The theorems of [Errors], [Crash], [Stable] and [Cli] at the worlds
    of [Scenarios], with the UTF-8 codec: a run that ends with [OSError],
    a write-back stopped after three bytes, a write-back run to its end
    by the step function, a second run over the result of the first, and
    command lines. *)

From S2P Require Import Prelude Chars Normalize Format Summary FileSys Utf8 Main.
From S2P Require Import Cli Run Errors Crash Interrupt Stable Scenarios.

Local Open Scope N_scope.

(** ** A write-back that is stopped *)

Definition fixed : pystr := py "micro-scopic".

(** [w_soft] with the first three bytes of the new text in the temporary
    file. *)
Definition w_mid : world := set_fs <[a_tex_tmp := File (text (py "mic"))]> w_soft.

(** After six steps three bytes are written. *)
Example stopped_state :
  wb_run a_tex fixed 6 (Start, w_soft) = (Writing a_tex_tmp (text fixed) 3, w_mid).
Proof. evaluate. Qed.

(** The original is intact then. *)
Example stopped_file : fs w_mid !! a_tex = Some (File (text soft)).
Proof. evaluate. Qed.

(** Run to its end, the step function returns what [write_back] returns. *)
Example run_to_end :
  wb_run a_tex fixed 17 (Start, w_soft) = (Halt (Ok ()), (write_back a_tex fixed w_soft).2)
  ∧ wb_measure fixed (Start, w_soft) = 17%nat.
Proof. split; evaluate. Qed.

(** On a full disk the steps stop where [write_text] stops. *)
Example run_disk_full :
  wb_run a_tex fixed 17 (Start, w_full)
  = (Halt (write_back a_tex fixed w_full).1, (write_back a_tex fixed w_full).2)
  ∧ (write_back a_tex fixed w_full).1 = Raise OSError.
Proof. split; evaluate. Qed.

Lemma stopped_rtc :
  rtc (wb_step a_tex fixed) (Start, w_soft) (Writing a_tex_tmp (text fixed) 3, w_mid).
Proof. rewrite <-stopped_state. apply wb_run_rtc. Qed.

Lemma wb_crash_safe_witness :
  rtc (wb_step a_tex fixed) (Start, w_soft) (Writing a_tex_tmp (text fixed) 3, w_mid)
  ∧ a_tex ≠ tmp_path a_tex
  ∧ ((Writing a_tex_tmp (text fixed) 3 ≠ Halt (Ok ())
      ∧ fs w_mid !! a_tex = fs w_soft !! a_tex)
     ∨ (Writing a_tex_tmp (text fixed) 3 = Halt (Ok ())
        ∧ if decide (a_tex = a_tex)
          then ∃ data, encode fixed = Some data ∧ fs w_mid !! a_tex = Some (File data)
          else fs w_mid !! a_tex = fs w_soft !! a_tex)).
Proof.
  assert (H2 : a_tex ≠ tmp_path a_tex) by decided.
  split_and!; [exact stopped_rtc | exact H2 |].
  exact (wb_crash_safe a_tex fixed w_soft _ w_mid a_tex stopped_rtc H2).
Defined.

Lemma wb_completes_witness :
  named a_tex ∧ fs w_soft !! tmp_path a_tex ≠ Some Dir
  ∧ encode fixed = Some (text fixed) ∧ room (length (text fixed)) w_soft
  ∧ fs w_soft !! a_tex ≠ Some Dir
  ∧ rtc (wb_step a_tex fixed) (Start, w_soft) (Writing a_tex_tmp (text fixed) 3, w_mid)
  ∧ rtc (wb_step a_tex fixed) (Writing a_tex_tmp (text fixed) 3, w_mid)
      (Halt (Ok ()),
       set_fs (λ m, <[a_tex := File (text fixed)]> (delete (tmp_path a_tex) m))
              (spend (length (text fixed)) w_soft)).
Proof.
  assert (H1 : named a_tex) by decided.
  assert (H2 : fs w_soft !! tmp_path a_tex ≠ Some Dir) by decided.
  assert (H3 : encode fixed = Some (text fixed)) by evaluate.
  assert (H4 : room (length (text fixed)) w_soft) by exact I.
  assert (H5 : fs w_soft !! a_tex ≠ Some Dir) by decided.
  split_and!; [exact H1 | exact H2 | exact H3 | exact H4 | exact H5 | exact stopped_rtc |].
  exact (wb_completes a_tex fixed w_soft _ _ H1 H2 H3 H4 H5 stopped_rtc).
Defined.

(** ** A run that is stopped *)

(** [w_soft] after the announcement of [a.tex], and with the first three
    bytes of its temporary file. *)
Definition w_announced : world := printed [py "[CHANGED] /proj/a.tex"] w_soft.
Definition w_stopped : world :=
  set_fs <[a_tex_tmp := File (text (py "mic"))]> w_announced.

(** The run of scenario 1, stopped in the middle of the write-back of
    [a.tex]: the enumeration, the read of [sub/b.tex], the read and the
    announcement of [a.tex], and six steps of its write-back. *)
Lemma stopped_run :
  rtc (main_step (run false)) (Scanning, w_soft)
    (WritingBack a_tex fixed (Writing a_tex_tmp (text fixed) 3) 2 [] st1, w_stopped).
Proof.
  assert (wb_run a_tex fixed 6 (Start, w_announced)
          = (Writing a_tex_tmp (text fixed) 3, w_stopped)) as Hwb by evaluate.
  eapply rtc_l; [apply (step_scan _ [b_tex; a_tex] w_soft w_soft); [evaluate|done]|].
  eapply rtc_l;
    [apply (step_clean _ _ _ _ _ (py "plain text") w_soft w_soft); [evaluate|decided]|].
  eapply rtc_l;
    [apply (step_announce _ _ _ _ _ soft w_soft w_soft); [evaluate|decided|done]|].
  apply (wb_steps_lift _ a_tex fixed 2 [] st1 Start w_announced).
  rewrite <-Hwb. apply wb_run_rtc.
Qed.

Lemma main_crash_safe_witness :
  rtc (main_step (run false)) (Scanning, w_soft)
    (WritingBack a_tex fixed (Writing a_tex_tmp (text fixed) 3) 2 [] st1, w_stopped)
  ∧ ¬ is_tmp a_tex
  ∧ (fs w_stopped !! a_tex = fs w_soft !! a_tex
     ∨ ∃ data b, fs w_soft !! a_tex = Some (File data)
                 ∧ rewrite_of (soft_hyphen (run false)) data b
                 ∧ fs w_stopped !! a_tex = Some (File b)).
Proof.
  assert (H2 : ¬ is_tmp a_tex) by decided.
  split_and!; [exact stopped_run | exact H2 |].
  exact (main_crash_safe (run false) w_soft _ a_tex stopped_run H2).
Defined.

(** ** A run that fails *)

Lemma main_errors_witness :
  glob_ext (ext (run false))
  ∧ main (run false) w_full = (Raise OSError, (main (run false) w_full).2)
  ∧ OSError ∈ run_errors ∧ exit_status (main (run false) w_full).1 = 1%nat
  ∧ ∃ files f st1 w1,
      iter_files (root (run false)) (ext (run false)) w_full = (Ok files, w_full)
      ∧ f ∈ files
      ∧ process (run false) f st1 w1 = (Raise OSError, (main (run false) w_full).2)
      ∧ (fs (main (run false) w_full).2 = fs w1
         ∨ (OSError = OSError ∧ ∃ b n, budget w1 = Some n ∧ (n < length b)%nat
              ∧ fs (main (run false) w_full).2
                = <[tmp_path f := File (take n b)]> (fs w1))).
Proof.
  assert (H1 : glob_ext (ext (run false))) by decided.
  assert (H2 : main (run false) w_full = (Raise OSError, (main (run false) w_full).2))
    by evaluate.
  split_and!; [exact H1 | exact H2 | ..];
    apply (main_errors (run false) w_full OSError _ H1 H2).
Defined.

(** ** A second run *)

Lemma main_files_witness :
  iter_files (root (run false)) (ext (run false)) w_soft = (Ok [b_tex; a_tex], w_soft)
  ∧ [b_tex; a_tex] ≠ []
  ∧ ready (run false) w_soft [b_tex; a_tex] [py "plain text"; soft]
  ∧ dry_run (run false) = false
  ∧ Forall2 (settled (soft_hyphen (run false)) (main (run false) w_soft).2)
      [b_tex; a_tex] [py "plain text"; soft]
  ∧ ∀ p, (∀ g, g ∈ [b_tex; a_tex] → p ≠ g ∧ p ≠ tmp_path g) →
         fs (main (run false) w_soft).2 !! p = fs w_soft !! p.
Proof.
  assert (H1 : iter_files (root (run false)) (ext (run false)) w_soft
               = (Ok [b_tex; a_tex], w_soft)) by evaluate.
  assert (H2 : [b_tex; a_tex] ≠ []) by discriminate.
  assert (H3 : ready (run false) w_soft [b_tex; a_tex] [py "plain text"; soft])
    by decided.
  split_and!; [exact H1 | exact H2 | exact H3 | reflexivity | ..];
    apply (main_files (run false) w_soft _ _ H1 H2 H3 eq_refl).
Defined.

Lemma main_stable_witness :
  iter_files (root (run false)) (ext (run false)) w_soft = (Ok [b_tex; a_tex], w_soft)
  ∧ [b_tex; a_tex] ≠ []
  ∧ ready (run false) w_soft [b_tex; a_tex] [py "plain text"; soft]
  ∧ dry_run (run false) = false
  ∧ main (run false) (main (run false) w_soft).2
    = (Ok 0%nat, printed (clean_report (length [b_tex; a_tex])) (main (run false) w_soft).2).
Proof.
  assert (H1 : iter_files (root (run false)) (ext (run false)) w_soft
               = (Ok [b_tex; a_tex], w_soft)) by evaluate.
  assert (H2 : [b_tex; a_tex] ≠ []) by discriminate.
  assert (H3 : ready (run false) w_soft [b_tex; a_tex] [py "plain text"; soft])
    by decided.
  split_and!; [exact H1 | exact H2 | exact H3 | reflexivity |].
  exact (main_stable (run false) w_soft _ _ H1 H2 H3 eq_refl).
Defined.

(** The second run, evaluated: the files are as the first run left them
    and four lines are printed. *)
Example second_run :
  let w1 := (main (run false) w_soft).2 in
  fs (main (run false) w1).2 !! a_tex = Some (File (text fixed))
  ∧ stdout (main (run false) w1).2
    = stdout w1 ++ [ 10 :: py "Summary:"; py "  Files scanned:   2";
                     py "  Files modified:  0"; py "  No normalization needed." ].
Proof. split; evaluate. Qed.

(** ** Command lines *)

Example no_arguments : parse_args [] = Parsed defaults.
Proof. evaluate. Qed.

(** Options may be abbreviated and may carry their value after [=]; the
    last occurrence of an option wins. *)
Example abbreviated :
  parse_args [py "--dry"; py "--r"; py "a"; py "--soft=remove"; py "--root"; py "b"]
  = Parsed {| ns_root := py "b"; ns_ext := py ".tex"; ns_soft_hyphen := py "remove";
              ns_dry_run := true |}.
Proof. evaluate. Qed.

(** Usage errors: a mode that is no choice, a value that is missing, a
    value given to the flag, an argument left over. *)
Example usage_errors :
  parse_args [py "--soft-hyphen"; py "strip"] = Exit 2
  ∧ parse_args [py "--root"] = Exit 2
  ∧ parse_args [py "--root"; py "--dry-run"] = Exit 2
  ∧ parse_args [py "--dry-run=yes"] = Exit 2
  ∧ parse_args [py "sections"] = Exit 2
  ∧ parse_args [py "--verbose"] = Exit 2.
Proof. split_and!; evaluate. Qed.

(** [--help] ends the parse where it stands: after an unknown option,
    but not after an error. *)
Example help_first :
  parse_args [py "--verbose"; py "-h"; py "--soft-hyphen"; py "strip"] = Exit 0
  ∧ parse_args [py "--soft-hyphen"; py "strip"; py "--help"] = Exit 2.
Proof. split; evaluate. Qed.

(** What the model leaves out. *)
Example not_modelled :
  parse_args [py "--"; py "x"] = NotModelled ∧ parse_args [py "-n"] = NotModelled.
Proof. split; evaluate. Qed.

Example resolved :
  resolve [py "home"; py "u"] (py "../x/./y//") = Some [py "home"; py "x"; py "y"]
  ∧ resolve [py "home"; py "u"] (py "/../proj") = Some proj
  ∧ resolve [py "home"; py "u"] (py ".") = Some [py "home"; py "u"]
  ∧ resolve [py "home"; py "u"] (py "//proj") = None.
Proof. split_and!; evaluate. Qed.

(** The run of scenario 1 from its command line. *)
Example from_argv :
  main_argv [] (py "usage") [py "--root"; py "proj"] w_soft = main (run false) w_soft.
Proof. evaluate. Qed.

(** A usage error touches nothing and gives the status 2. *)
Example usage_error_run :
  main_argv [] (py "usage") [py "--ext"] w_soft = (Ok 2%nat, w_soft).
Proof. evaluate. Qed.

Lemma parse_args_choices_witness :
  parse_args [py "--soft-hyphen"; py "remove"]
  = Parsed {| ns_root := py "."; ns_ext := py ".tex"; ns_soft_hyphen := py "remove";
              ns_dry_run := false |}
  ∧ py "remove" ∈ choices.
Proof.
  assert (H : parse_args [py "--soft-hyphen"; py "remove"]
              = Parsed {| ns_root := py "."; ns_ext := py ".tex";
                          ns_soft_hyphen := py "remove"; ns_dry_run := false |})
    by evaluate.
  split; [exact H | exact (parse_args_choices _ _ H)].
Defined.

Lemma parse_args_render_witness :
  py "remove" ∈ choices
  ∧ parse_args (render {| ns_root := py "-sections"; ns_ext := py ".tex";
                          ns_soft_hyphen := py "remove"; ns_dry_run := true |})
    = Parsed {| ns_root := py "-sections"; ns_ext := py ".tex";
                ns_soft_hyphen := py "remove"; ns_dry_run := true |}.
Proof.
  assert (H : py "remove" ∈ choices) by decided.
  split; [exact H|].
  exact (parse_args_render {| ns_root := py "-sections"; ns_ext := py ".tex";
                              ns_soft_hyphen := py "remove"; ns_dry_run := true |} H).
Defined.

Lemma main_argv_dry_run_witness :
  py "--dry-run" ∈ [py "--root"; py "proj"; py "--dry-run"]
  ∧ fs (main_argv [] (py "usage") [py "--root"; py "proj"; py "--dry-run"] w_soft).2
    = fs w_soft
  ∧ budget (main_argv [] (py "usage") [py "--root"; py "proj"; py "--dry-run"] w_soft).2
    = budget w_soft.
Proof.
  assert (H : py "--dry-run" ∈ [py "--root"; py "proj"; py "--dry-run"]) by decided.
  split; [exact H | exact (main_argv_dry_run [] (py "usage") _ w_soft H)].
Defined.

(** ** Extensions that are patterns *)

(** The extension is spliced into a glob pattern: [?] stands for any
    character and [*] for any run of characters, so [--ext .t?x] finds
    the [.tex] files and [--ext .t*] the [.txt] file as well, as does the
    empty extension. *)
Example wildcard_ext :
  iter_files proj (py ".t?x") w_soft = (Ok [b_tex; a_tex], w_soft)
  ∧ iter_files proj (py ".t*") w_soft = (Ok [notes; b_tex; a_tex], w_soft)
  ∧ iter_files proj [] w_soft = (Ok [notes; b_tex; a_tex], w_soft).
Proof. split_and!; evaluate. Qed.

(** A star at the head of the extension makes two stars in a row, which
    [rglob] refuses: the run ends with [ValueError] and the status 1. *)
Example double_star_ext :
  main {| root := proj; ext := py "*.tex"; soft_hyphen := py "hyphen";
          dry_run := false |} w_soft
  = (Raise ValueError, w_soft).
Proof. evaluate. Qed.
